(** * QuickIt: script resolution and run orchestration

    A shallow embedding of [src/extension.ts] (the QuickIt editor extension)
    and the properties of its descriptor registry, name validator,
    interpreter resolver, command builder and run supervisor.

    Conventions of the embedding.
    - A JavaScript string is a sequence of UTF-16 code units.  The
      development covers the strings whose code units are below 256 and
      writes them as [string]: one [ascii] per code unit.  On that fragment
      [String.prototype.trim], the regular-expression class [\s] and
      [String.prototype.toLowerCase] are exactly the functions [trim],
      [isWhiteSpace] and [toLowerCase] below.
    - [undefined] is [None]; a JavaScript index that may be [-1] is a [Z].
    - Calls into the editor host (notifications, tree refreshes, file-system
      and PATH probes, task launches) are recorded in an effect log that the
      functions thread through, in the order the source performs them.
    - The host's answers (configuration contents, probe results, completion
      signals) are inputs of the functions. *)

From Stdlib Require Import ZArith Lia Bool List Ascii String DecimalString.
From stdpp Require Import base option gmap strings.
Import ListNotations.

Local Open Scope string_scope.
Local Open Scope Z_scope.

(** ** JavaScript string primitives *)

Module JS.

Definition code (c : ascii) : nat := nat_of_ascii c.

(** ECMAScript WhiteSpace and LineTerminator code units below 256:
    TAB, LF, VT, FF, CR, SPACE and NO-BREAK SPACE. *)
Definition isWhiteSpace (c : ascii) : bool :=
  let n := code c in
  ((9 <=? n)%nat && (n <=? 13)%nat) || (n =? 32)%nat || (n =? 160)%nat.

Fixpoint trimStart (s : string) : string :=
  match s with
  | EmptyString => EmptyString
  | String c r => if isWhiteSpace c then trimStart r else s
  end.

Fixpoint trimEnd (s : string) : string :=
  match s with
  | EmptyString => EmptyString
  | String c r =>
      match trimEnd r with
      | EmptyString => if isWhiteSpace c then EmptyString else String c EmptyString
      | r' => String c r'
      end
  end.

(** [s.trim()] *)
Definition trim (s : string) : string := trimEnd (trimStart s).

(** Lower-casing of one code unit below 256: [A-Z] and the Latin-1
    capitals U+00C0..U+00DE (U+00D7, the multiplication sign, excepted). *)
Definition lowerChar (c : ascii) : ascii :=
  let n := code c in
  if ((65 <=? n)%nat && (n <=? 90)%nat)
     || ((192 <=? n)%nat && (n <=? 222)%nat && negb (n =? 215)%nat)
  then ascii_of_nat (n + 32) else c.

(** [s.toLowerCase()] *)
Fixpoint toLowerCase (s : string) : string :=
  match s with
  | EmptyString => EmptyString
  | String c r => String (lowerChar c) (toLowerCase r)
  end.

(** JavaScript truthiness of a string: the empty string is falsy. *)
Definition truthy (s : string) : bool :=
  match s with EmptyString => false | _ => true end.

(** Truthiness of [string | undefined]. *)
Definition truthyOpt (o : option string) : bool :=
  match o with Some s => truthy s | None => false end.

(** [s.startsWith(p)] *)
Fixpoint startsWith (s p : string) {struct p} : bool :=
  match p with
  | EmptyString => true
  | String a p' =>
      match s with
      | EmptyString => false
      | String b s' => Ascii.eqb a b && startsWith s' p'
      end
  end.

Definition len (s : string) : Z := Z.of_nat (String.length s).

(** [s.slice(a, b)], with JavaScript's treatment of negative and
    out-of-range bounds. *)
Definition clampIndex (s : string) (i : Z) : Z :=
  if i <? 0 then Z.max (len s + i) 0 else Z.min i (len s).

Definition slice (s : string) (a b : Z) : string :=
  let from := clampIndex s a in
  let to := clampIndex s b in
  String.substring (Z.to_nat from) (Z.to_nat (Z.max (to - from) 0)) s.

(** [s.slice(a)] *)
Definition sliceFrom (s : string) (a : Z) : string := slice s a (len s).

(** Index of the first code unit of [s] satisfying [p], counted from
    [i]; [-1] when there is none. *)
Fixpoint findIndexFrom (p : ascii -> bool) (s : string) (i : Z) : Z :=
  match s with
  | EmptyString => -1
  | String c r => if p c then i else findIndexFrom p r (i + 1)
  end.

(** [s.indexOf(q, pos)] for a one-character search string [q] and
    [0 <= pos]. *)
Definition indexOfChar (s : string) (q : ascii) (pos : nat) : Z :=
  findIndexFrom (Ascii.eqb q) (String.substring pos (String.length s - pos) s)
                (Z.of_nat pos).

(** [s.search(/\s/)] *)
Definition searchWhiteSpace (s : string) : Z := findIndexFrom isWhiteSpace s 0.

(** [/[class]/.test(s)]: some code unit of [s] is in the class. *)
Fixpoint testClass (p : ascii -> bool) (s : string) : bool :=
  match s with
  | EmptyString => false
  | String c r => p c || testClass p r
  end.

(** [/[class]$/.test(s)]: the last code unit of [s] is in the class. *)
Fixpoint testClassAtEnd (p : ascii -> bool) (s : string) : bool :=
  match s with
  | EmptyString => false
  | String c EmptyString => p c
  | String _ r => testClassAtEnd p r
  end.

(** [s.replace(/q/g, rep)] for a one-character pattern [q] and a
    replacement text without [$]. *)
Fixpoint replaceCharG (q : ascii) (rep : string) (s : string) : string :=
  match s with
  | EmptyString => EmptyString
  | String c r =>
      (if Ascii.eqb c q then rep else String c EmptyString) ++ replaceCharG q rep r
  end.

(** [String(n)] for an integer [n]. *)
Definition ofInt (n : Z) : string := NilZero.string_of_int (Z.to_int n).

End JS.

(** ** Node's [path] functions used by the validator

    [path.extname] and [path.parse(...).name], as the loops of Node's POSIX
    implementation.  The validator calls them only on names that contain
    neither a slash, a backslash nor a colon, where the Windows
    implementation computes the same results. *)

Module Path.

Record scan : Type := mkScan {
  startDot : Z;
  startPart : Z;
  endIdx : Z;
  matchedSlash : bool;
  preDotState : Z
}.

Definition scanInit : scan :=
  {| startDot := -1; startPart := 0; endIdx := -1;
     matchedSlash := true; preDotState := 0 |}.

Definition DOT : ascii := "."%char.
Definition SLASH : ascii := "/"%char.

(** What one iteration does to the loop variables once the code unit at
    index [i] is known not to be a separator. *)
Definition scanChar (c : ascii) (i : Z) (st : scan) : scan :=
  let st1 :=
    if endIdx st =? -1
    then mkScan (startDot st) (startPart st) (i + 1) false (preDotState st)
    else st in
  if Ascii.eqb c DOT then
    if startDot st1 =? -1
    then mkScan i (startPart st1) (endIdx st1) (matchedSlash st1) (preDotState st1)
    else if negb (preDotState st1 =? 1)
         then mkScan (startDot st1) (startPart st1) (endIdx st1) (matchedSlash st1) 1
         else st1
  else if negb (startDot st1 =? -1)
       then mkScan (startDot st1) (startPart st1) (endIdx st1) (matchedSlash st1) (-1)
       else st1.

(** [for (i = n - 1; i >= start; --i) { ... }] *)
Fixpoint scanLoop (path : string) (start n : nat) (st : scan) : scan :=
  match n with
  | O => st
  | S i =>
      if (i <? start)%nat then st else
      match String.get i path with
      | None => st
      | Some c =>
          if Ascii.eqb c SLASH then
            if negb (matchedSlash st)
            then mkScan (startDot st) (Z.of_nat i + 1) (endIdx st)
                        (matchedSlash st) (preDotState st)
            else scanLoop path start i st
          else scanLoop path start i (scanChar c (Z.of_nat i) st)
      end
  end.

(** The test both functions make after the loop: no usable extension. *)
Definition noExtension (st : scan) : bool :=
  (startDot st =? -1)
  || (preDotState st =? 0)
  || ((preDotState st =? 1)
      && (startDot st =? endIdx st - 1)
      && (startDot st =? startPart st + 1)).

(** [path.extname(p)] *)
Definition extname (p : string) : string :=
  let st := scanLoop p 0 (String.length p) scanInit in
  if (endIdx st =? -1) || noExtension st then EmptyString
  else JS.slice p (startDot st) (endIdx st).

(** [path.parse(p).name] *)
Definition parseName (p : string) : string :=
  match p with
  | EmptyString => EmptyString
  | String c0 _ =>
      let isAbsolute := Ascii.eqb c0 SLASH in
      let start := if isAbsolute then 1%nat else 0%nat in
      let st := scanLoop p start (String.length p) scanInit in
      if endIdx st =? -1 then EmptyString
      else
        let from := if (startPart st =? 0) && isAbsolute then 1 else startPart st in
        if noExtension st then JS.slice p from (endIdx st)
        else JS.slice p from (startDot st)
  end.

(** *** [path.win32]

    On Windows [path] is [path.win32]: a slash and a backslash both
    separate, and the loop of [extname] stops before a drive-letter
    prefix.  The validator and [normalizeScriptFileName] call [extname] and
    [parse] on names without separator, where the two variants agree
    (lemma [win32Extname_plain] below for [extname]); the [fsPath] of a uri
    is another matter, and [resolveDescriptorForUri] takes the variant of
    the platform. *)

Definition BACKWARD_SLASH : ascii := "\"%char.
Definition COLON : ascii := ":"%char.

(** [isPathSeparator(code)] *)
Definition isPathSeparator (c : ascii) : bool :=
  Ascii.eqb c SLASH || Ascii.eqb c BACKWARD_SLASH.

(** [isWindowsDeviceRoot(code)]: [A-Z] or [a-z]. *)
Definition isWindowsDeviceRoot (c : ascii) : bool :=
  let n := JS.code c in
  ((65 <=? n)%nat && (n <=? 90)%nat) || ((97 <=? n)%nat && (n <=? 122)%nat).

(** The loop of [win32.extname]: that of [posix.extname] with
    [isPathSeparator] for the comparison with the slash. *)
Fixpoint win32ScanLoop (path : string) (start n : nat) (st : scan) : scan :=
  match n with
  | O => st
  | S i =>
      if (i <? start)%nat then st else
      match String.get i path with
      | None => st
      | Some c =>
          if isPathSeparator c then
            if negb (matchedSlash st)
            then mkScan (startDot st) (Z.of_nat i + 1) (endIdx st)
                        (matchedSlash st) (preDotState st)
            else win32ScanLoop path start i st
          else win32ScanLoop path start i (scanChar c (Z.of_nat i) st)
      end
  end.

(** [path.length >= 2 && path[1] === ':' && isWindowsDeviceRoot(path[0])] *)
Definition hasDriveLetter (p : string) : bool :=
  match p with
  | String c0 (String c1 _) => Ascii.eqb c1 COLON && isWindowsDeviceRoot c0
  | _ => false
  end.

(** [path.win32.extname(p)] *)
Definition win32Extname (p : string) : string :=
  let start := if hasDriveLetter p then 2%nat else 0%nat in
  let st := win32ScanLoop p start (String.length p)
              (mkScan (-1) (Z.of_nat start) (-1) true 0) in
  if (endIdx st =? -1) || noExtension st then EmptyString
  else JS.slice p (startDot st) (endIdx st).

End Path.

(** ** Data model *)

Definition DQUOTE : ascii := "034"%char.
Definition SQUOTE : ascii := "'"%char.
Definition BACKSLASH : ascii := "\"%char.

(** [interface ScriptDescriptor] *)
Record ScriptDescriptor : Type := mkDescriptor {
  extension : string;
  label : string;
  languageId : option string;
  interpreterSetting : option string;
  getDefaultInterpreters : list string;
  buildRunCommand : string -> string -> string
}.

(** [interface CustomInterpreter] *)
Record CustomInterpreter : Type := mkCustom {
  command : string;
  customLabel : option string
}.

#[global] Instance CustomInterpreter_eq_dec : EqDecision CustomInterpreter.
Proof. solve_decision. Defined.

(** [class ScriptItem]: the fields the commands read. *)
Record ScriptItem : Type := mkItem {
  fsPath : string;
  descriptor : ScriptDescriptor
}.

(** What the extension asks of the editor host, in the order it asks. *)
Inductive Effect : Type :=
| ShowInformationMessage (msg : string)
| ShowWarningMessage (msg : string)
| ShowErrorMessage (msg : string)
| RefreshView
| Stat (file : string)
| ExecFile (tool : string) (arg : string)
| ExecuteTask (taskType runId name commandLine : string).

#[global] Instance Effect_eq_dec : EqDecision Effect.
Proof. solve_decision. Defined.

(** The outcome of one call of [configuration.inspect(key)]. *)
Record ConfigurationInspect : Type := mkInspect {
  defaultValue : option string;
  globalValue : option string;
  workspaceValue : option string;
  workspaceFolderValue : option string
}.

(** The [quickIt] configuration section as the host presents it: what
    [inspect] returns for each key ([None]: [inspect] returns
    [undefined]). *)
Definition WorkspaceConfiguration : Type := string -> option ConfigurationInspect.

(** [a ?? b] *)
Definition nullish {A} (a b : option A) : option A :=
  match a with Some _ => a | None => b end.

Infix "??" := nullish (at level 61, left associativity).

Definition cfgInspect (cfg : WorkspaceConfiguration) (key : string)
  : option ConfigurationInspect := cfg key.

(** [configuration.get(key)]: the effective value, where the host lets the
    workspace-folder value override the workspace value, that the user-level
    value, and that the default. *)
Definition cfgGet (cfg : WorkspaceConfiguration) (key : string) : option string :=
  match cfg key with
  | None => None
  | Some i => workspaceFolderValue i ?? workspaceValue i ?? globalValue i ?? defaultValue i
  end.

(** ** Pure helpers of [extension.ts] *)

(** [WINDOWS_RESERVED_BASENAMES] *)
Definition WINDOWS_RESERVED_BASENAMES : gset string :=
  list_to_set
    [ "con"; "prn"; "aux"; "nul";
      "com1"; "com2"; "com3"; "com4"; "com5"; "com6"; "com7"; "com8"; "com9";
      "lpt1"; "lpt2"; "lpt3"; "lpt4"; "lpt5"; "lpt6"; "lpt7"; "lpt8"; "lpt9" ].

Definition normalizeExtension (ext : string) : string :=
  let normalizedValue := JS.toLowerCase (JS.trim ext) in
  if negb (JS.truthy normalizedValue) then EmptyString
  else if JS.startsWith normalizedValue "." then normalizedValue
       else "." ++ normalizedValue.

Definition normalizeScriptFileName (rawName ext : string) : string :=
  let trimmedName := JS.trim rawName in
  let normalizedExtension := normalizeExtension ext in
  let existingExtension := normalizeExtension (Path.extname trimmedName) in
  if JS.truthy existingExtension && String.eqb existingExtension normalizedExtension
  then trimmedName
  else trimmedName ++ normalizedExtension.

(** The class [[\\/]] *)
Definition isSeparatorChar (c : ascii) : bool :=
  Ascii.eqb c BACKSLASH || Ascii.eqb c "/".

(** The class of [<], [>], [:], the double quote, [|], [?], the star and
    the control characters 00 to 1F. *)
Definition isInvalidFilenameChar (c : ascii) : bool :=
  Ascii.eqb c "<" || Ascii.eqb c ">" || Ascii.eqb c ":" || Ascii.eqb c DQUOTE
  || Ascii.eqb c "|" || Ascii.eqb c "?" || Ascii.eqb c "*"
  || (JS.code c <=? 31)%nat.

(** The class [[. ]] *)
Definition isPeriodOrSpace (c : ascii) : bool :=
  Ascii.eqb c "." || Ascii.eqb c " ".

(** [validateScriptNameInput]: [Some message] rejects, [None] accepts. *)
Definition validateScriptNameInput (value ext : string) : option string :=
  let trimmedValue := JS.trim value in
  if negb (JS.truthy trimmedValue) then Some "Script name is required."
  else if String.eqb trimmedValue "." || String.eqb trimmedValue ".."
  then Some "Enter a valid script name."
  else if JS.testClass isSeparatorChar trimmedValue
  then Some "Use only a file name, not a path."
  else if JS.testClass isInvalidFilenameChar trimmedValue
  then Some "Name contains invalid filename characters."
  else if JS.testClassAtEnd isPeriodOrSpace trimmedValue
  then Some "Name cannot end with a period or space."
  else
    let expectedExtension := normalizeExtension ext in
    if String.eqb (JS.toLowerCase trimmedValue) expectedExtension
    then Some ("Enter a file name before " ++ expectedExtension ++ ".")
    else
      let fileNameBase := JS.toLowerCase (Path.parseName trimmedValue) in
      if bool_decide (fileNameBase ∈ WINDOWS_RESERVED_BASENAMES)
      then Some "Name is reserved on Windows."
      else
        let providedExtension := normalizeExtension (Path.extname trimmedValue) in
        if JS.truthy providedExtension
           && negb (String.eqb providedExtension expectedExtension)
        then Some ("Use " ++ expectedExtension ++ " or leave the extension blank.")
        else None.

(** The quoted branch of [extractCommandToken]: the text between a leading
    quote and its first later occurrence, when that occurrence is past
    index 1. *)
Definition quotedToken (trimmed : string) : option string :=
  if JS.startsWith trimmed (String DQUOTE EmptyString) || JS.startsWith trimmed "'"
  then
    match trimmed with
    | String quote _ =>
        let closingIndex := JS.indexOfChar trimmed quote 1 in
        if closingIndex >? 1 then Some (JS.slice trimmed 1 closingIndex) else None
    | EmptyString => None
    end
  else None.

(** The fall-back of [extractCommandToken]: up to the first white space. *)
Definition unquotedToken (trimmed : string) : string :=
  let separatorIndex := JS.searchWhiteSpace trimmed in
  if separatorIndex =? -1 then trimmed else JS.slice trimmed 0 separatorIndex.

(** [extractCommandToken] *)
Definition extractCommandToken (cmd : string) : string :=
  let trimmed := JS.trim cmd in
  if negb (JS.truthy trimmed) then EmptyString
  else
    match quotedToken trimmed with
    | Some token => token
    | None => unquotedToken trimmed
    end.

(** [normalizeOptionalString] *)
Definition normalizeOptionalString (value : option string) : option string :=
  let trimmed := JS.trim <$> value in
  if JS.truthyOpt trimmed then trimmed else None.

(** [getQuickItConfigurationValue]: the pair [(value, hasWorkspaceOverride)]. *)
Definition getQuickItConfigurationValue (cfg : WorkspaceConfiguration)
    (settingPath : string) : option string * bool :=
  match cfgInspect cfg settingPath with
  | None => (normalizeOptionalString (cfgGet cfg settingPath), false)
  | Some inspected =>
      let value :=
        normalizeOptionalString
          (globalValue inspected ?? defaultValue inspected ?? cfgGet cfg settingPath) in
      let hasWorkspaceOverride :=
        bool_decide (workspaceValue inspected <> None)
        || bool_decide (workspaceFolderValue inspected <> None) in
      (value, hasWorkspaceOverride)
  end.

(** [getInitialTemplateForExtension] *)
Definition LF : string := String "010"%char EmptyString.

Definition getInitialTemplateForExtension (ext : string) : string :=
  if String.eqb ext ".ps1" then "# QuickIt PowerShell script" ++ LF
  else if String.eqb ext ".sh" then "#!/usr/bin/env bash" ++ LF
  else if String.eqb ext ".zsh" then "#!/usr/bin/env zsh" ++ LF
  else if String.eqb ext ".py" then "#!/usr/bin/env python3" ++ LF
  else if String.eqb ext ".js" then "// QuickIt JavaScript script" ++ LF
  else if String.eqb ext ".ts" then "// QuickIt TypeScript script" ++ LF
  else EmptyString.

(** ** The session: state owned by [activate] and the effect log *)

Record World : Type := mkWorld {
  customInterpreters : gmap string CustomInterpreter;
  hasShownWorkspaceConfigurationWarning : bool;
  hasShownReadError : bool;
  effects : list Effect
}.

Definition initialWorld : World :=
  {| customInterpreters := ∅;
     hasShownWorkspaceConfigurationWarning := false;
     hasShownReadError := false;
     effects := [] |}.

(** Computations over the session. *)
Definition M (A : Type) : Type := World -> A * World.

Definition ret {A} (a : A) : M A := fun w => (a, w).

Definition bind {A B} (m : M A) (k : A -> M B) : M B :=
  fun w => let '(a, w') := m w in k a w'.

Notation "x <- m ;; k" := (bind m (fun x => k))
  (at level 100, m at next level, right associativity).
Notation "m ;;; k" := (bind m (fun _ => k))
  (at level 100, right associativity).

Definition emit (e : Effect) : M unit :=
  fun w => (tt, mkWorld (customInterpreters w) (hasShownWorkspaceConfigurationWarning w)
                        (hasShownReadError w) (effects w ++ [e])).

Definition getCustomInterpreters : M (gmap string CustomInterpreter) :=
  fun w => (customInterpreters w, w).

Definition setCustomInterpreters (m : gmap string CustomInterpreter) : M unit :=
  fun w => (tt, mkWorld m (hasShownWorkspaceConfigurationWarning w)
                        (hasShownReadError w) (effects w)).

Definition getWorkspaceWarningFlag : M bool :=
  fun w => (hasShownWorkspaceConfigurationWarning w, w).

Definition setWorkspaceWarningFlag (b : bool) : M unit :=
  fun w => (tt, mkWorld (customInterpreters w) b (hasShownReadError w) (effects w)).

Definition getReadErrorFlag : M bool :=
  fun w => (hasShownReadError w, w).

Definition setReadErrorFlag (b : bool) : M unit :=
  fun w => (tt, mkWorld (customInterpreters w) (hasShownWorkspaceConfigurationWarning w)
                        b (effects w)).

(** [scriptsTreeProvider.refresh()] *)
Definition refresh : M unit := emit RefreshView.

(** [notifyQuickItError]; an error is represented by its message, which is
    what [toErrorMessage] extracts. *)
Definition notifyQuickItError (prefix error : string) : M unit :=
  emit (ShowErrorMessage (prefix ++ ": " ++ error)).

Definition WORKSPACE_WARNING : string :=
  "QuickIt ignores workspace-level quickIt settings for security. Configure QuickIt in User settings instead.".

(** [getQuickItSettingValue] *)
Definition getQuickItSettingValue (cfg : WorkspaceConfiguration) (settingPath : string)
  : M (option string) :=
  let '(value, hasWorkspaceOverride) := getQuickItConfigurationValue cfg settingPath in
  shown <- getWorkspaceWarningFlag ;;
  (if hasWorkspaceOverride && negb shown
   then setWorkspaceWarningFlag true ;;; emit (ShowWarningMessage WORKSPACE_WARNING)
   else ret tt) ;;;
  ret value.

(** ** The run supervisor, [executeQuickItTask] *)

(** The two properties the handlers read from a task definition; a value
    that is not a string is [None], like [undefined]: neither is strictly
    equal to a string. *)
Record TaskDefinition : Type := mkTaskDefinition {
  defType : option string;
  defRunId : option string
}.

(** What the host may deliver to one pending [executeQuickItTask]. *)
Inductive HostSignal : Type :=
| DidEndTaskProcess (definition : option TaskDefinition) (exitCode : option Z)
| DidEndTask (definition : option TaskDefinition)
| LaunchFulfilled
| LaunchRejected (error : string).

(** A call of the promise's [resolve] or [reject]. *)
Inductive Settlement : Type :=
| Resolve (exitCode : option Z)
| Reject (error : string).

#[global] Instance Settlement_eq_dec : EqDecision Settlement.
Proof. solve_decision. Defined.

(** The closure of the promise executor: the [settled] flag, how often each
    subscription was disposed, and the calls of [resolve] and [reject]
    made so far. *)
Record Supervisor : Type := mkSupervisor {
  settled : bool;
  endTaskSubscriptionDisposals : nat;
  endTaskProcessSubscriptionDisposals : nat;
  settlements : list Settlement
}.

Definition pendingSupervisor : Supervisor :=
  {| settled := false; endTaskSubscriptionDisposals := 0;
     endTaskProcessSubscriptionDisposals := 0; settlements := [] |}.

(** [settle(callback)] *)
Definition settle (callback : Settlement) (s : Supervisor) : Supervisor :=
  if settled s then s
  else {| settled := true;
          endTaskSubscriptionDisposals := S (endTaskSubscriptionDisposals s);
          endTaskProcessSubscriptionDisposals := S (endTaskProcessSubscriptionDisposals s);
          settlements := settlements s ++ [callback] |}.

(** The guard of both handlers, negated:
    [definition?.type === 'quick-it' && definition.runId === runId]. *)
Definition isForRun (runId : string) (definition : option TaskDefinition) : bool :=
  match definition with
  | None => false
  | Some d =>
      bool_decide (defType d = Some "quick-it") && bool_decide (defRunId d = Some runId)
  end.

(** One delivery to the handlers the executor installed. *)
Definition deliver (runId : string) (sig : HostSignal) (s : Supervisor) : Supervisor :=
  match sig with
  | DidEndTaskProcess definition exitCode =>
      if isForRun runId definition then settle (Resolve exitCode) s else s
  | DidEndTask definition =>
      if isForRun runId definition then settle (Resolve None) s else s
  | LaunchFulfilled => s
  | LaunchRejected error => settle (Reject error) s
  end.

Definition supervise (runId : string) (signals : list HostSignal) : Supervisor :=
  fold_left (fun s sig => deliver runId sig s) signals pendingSupervisor.

(** The state of the promise: it keeps the first settlement. *)
Definition promiseOutcome (s : Supervisor) : option Settlement := head (settlements s).

(** ** The host platform

    The functions of Node and of the editor that the extension calls and
    whose results depend on the machine it runs on. *)

Record Host : Type := mkHost {
  platform : string;                        (* process.platform *)
  pathIsAbsolute : string -> bool;          (* path.isAbsolute *)
  pathBasename : string -> string;          (* path.basename *)
  statSucceeds : string -> bool;            (* workspace.fs.stat resolves *)
  execFileSucceeds : string -> string -> bool; (* execFile(tool, [arg]) resolves *)
  uriJoinPath : string -> string -> string; (* Uri.joinPath(dir, name).fsPath *)
  sortByBasename : list ScriptItem -> list ScriptItem (* sort with localeCompare *)
}.

Definition quoted (s : string) : string :=
  String DQUOTE (s ++ String DQUOTE EmptyString).

Section QuickIt.

Variable H : Host.

(** [quoteForCommandArgument] *)
Definition quoteForCommandArgument (value : string) : string :=
  if String.eqb (platform H) "win32"
  then String DQUOTE
         (JS.replaceCharG DQUOTE (String DQUOTE (String DQUOTE EmptyString)) value
          ++ String DQUOTE EmptyString)
  else "'" ++ JS.replaceCharG SQUOTE "'\''" value ++ "'".

(** The command builder shared by every descriptor but PowerShell's. *)
Definition plainRunCommand (interpreter scriptPath : string) : string :=
  interpreter ++ " " ++ quoteForCommandArgument scriptPath.

Definition powershellDescriptor : ScriptDescriptor :=
  {| extension := ".ps1";
     label := "PowerShell (.ps1)";
     languageId := Some "powershell";
     interpreterSetting := Some "interpreters.powershell";
     getDefaultInterpreters := ["pwsh"; "powershell"];
     buildRunCommand := fun interpreter scriptPath =>
       interpreter ++ " -NoProfile -ExecutionPolicy Bypass -File "
                   ++ quoteForCommandArgument scriptPath |}.

(** [BUILTIN_SCRIPT_DESCRIPTORS] *)
Definition BUILTIN_SCRIPT_DESCRIPTORS : list ScriptDescriptor :=
  [ powershellDescriptor;
    mkDescriptor ".sh" "Bash (.sh)" (Some "shellscript") (Some "interpreters.bash")
                 ["bash"] plainRunCommand;
    mkDescriptor ".zsh" "Zsh (.zsh)" (Some "shellscript") (Some "interpreters.bash")
                 ["bash"] plainRunCommand;
    mkDescriptor ".py" "Python (.py)" (Some "python") (Some "interpreters.python")
                 ["python"] plainRunCommand;
    mkDescriptor ".js" "JavaScript (.js)" (Some "javascript") (Some "interpreters.node")
                 ["node"] plainRunCommand;
    mkDescriptor ".ts" "TypeScript (.ts)" (Some "typescript") (Some "interpreters.tsNode")
                 ["ts-node"] plainRunCommand ].

(** [BUILTIN_BY_EXTENSION]: [new Map(entries)] inserts the entries in
    order, a later one replacing an earlier one with the same key. *)
Definition BUILTIN_BY_EXTENSION : gmap string ScriptDescriptor :=
  fold_left (fun m d => <[extension d := d]> m) BUILTIN_SCRIPT_DESCRIPTORS ∅.

(** [path.extname] of the running platform: [path] is [path.win32] when
    [process.platform] is [win32] and [path.posix] otherwise. *)
Definition pathExtname (p : string) : string :=
  if String.eqb (platform H) "win32" then Path.win32Extname p else Path.extname p.

(** [resolveDescriptorForUri], on the [fsPath] of the uri and the current
    custom-interpreter table. *)
Definition resolveDescriptorForUri (customs : gmap string CustomInterpreter)
    (file : string) : option ScriptDescriptor :=
  let ext := normalizeExtension (pathExtname file) in
  match BUILTIN_BY_EXTENSION !! ext with
  | Some builtInDescriptor => Some builtInDescriptor
  | None =>
      match customs !! ext with
      | None => None
      | Some customInterpreter =>
          let trimmedLabel := JS.trim <$> customLabel customInterpreter in
          Some {| extension := ext;
                  label := if JS.truthyOpt trimmedLabel
                           then default EmptyString trimmedLabel
                           else "Custom (" ++ ext ++ ")";
                  languageId := None;
                  interpreterSetting := None;
                  getDefaultInterpreters := [command customInterpreter];
                  buildRunCommand := plainRunCommand |}
      end
  end.

(** [isCommandAvailable] *)
Definition isCommandAvailable (cmd : string) : M bool :=
  let executable := extractCommandToken cmd in
  if negb (JS.truthy executable) then ret false
  else if pathIsAbsolute H executable
  then emit (Stat executable) ;;; ret (statSucceeds H executable)
  else
    let tool := if String.eqb (platform H) "win32" then "where.exe" else "which" in
    emit (ExecFile tool executable) ;;; ret (execFileSucceeds H tool executable).

(** The [for] loop of [resolveInterpreterCommand]. *)
Fixpoint firstAvailable (candidates : list string) : M (option string) :=
  match candidates with
  | [] => ret None
  | candidate :: rest =>
      available <- isCommandAvailable candidate ;;
      if available then ret (Some candidate) else firstAvailable rest
  end.

(** [resolveInterpreterCommand] *)
Definition resolveInterpreterCommand (cfg : WorkspaceConfiguration)
    (d : ScriptDescriptor) : M (option string) :=
  configuredValue <-
    (if JS.truthyOpt (interpreterSetting d)
     then getQuickItSettingValue cfg (default EmptyString (interpreterSetting d))
     else ret None) ;;
  if JS.truthyOpt configuredValue then ret configuredValue
  else firstAvailable (getDefaultInterpreters d).

(** [executeQuickItTask] on the task that [createQuickItShellTask] builds:
    the launch request, then what the promise holds once the host has
    delivered [signals]; [None] is a promise that stays pending. *)
Definition executeQuickItTask (name commandLine runId : string)
    (signals : list HostSignal) : M (option Settlement) :=
  emit (ExecuteTask "quick-it" runId name commandLine) ;;;
  ret (promiseOutcome (supervise runId signals)).

(** The handler of [quick-it.runScript].  [runId] is what [createRunId]
    returned and [signals] what the host delivers to the supervisor of
    this run. *)
Definition runScriptCommand (cfg : WorkspaceConfiguration) (item : option ScriptItem)
    (runId : string) (signals : list HostSignal) : M unit :=
  match item with
  | None => emit (ShowErrorMessage "No QuickIt script selected.")
  | Some item =>
      interpreterCommand <- resolveInterpreterCommand cfg (descriptor item) ;;
      if negb (JS.truthyOpt interpreterCommand)
      then emit (ShowErrorMessage
                   ("No interpreter found for " ++ label (descriptor item)
                    ++ ". Configure one in QuickIt settings."))
      else
        let interpreter := default EmptyString interpreterCommand in
        available <- isCommandAvailable interpreter ;;
        if negb available
        then emit (ShowErrorMessage
                     ("Interpreter " ++ quoted interpreter ++ " was not found on PATH."))
        else
          let scriptName := pathBasename H (fsPath item) in
          emit (ShowInformationMessage
                  ("QuickIt: Executing " ++ quoted scriptName ++ "...")) ;;;
          outcome <- executeQuickItTask
                       ("QuickIt: " ++ scriptName)
                       (buildRunCommand (descriptor item) interpreter (fsPath item))
                       runId signals ;;
          match outcome with
          | None => ret tt
          | Some (Resolve exitCode) =>
              if bool_decide (exitCode = None) || bool_decide (exitCode = Some 0)
              then emit (ShowInformationMessage
                           ("QuickIt: Finished " ++ quoted scriptName ++ "."))
              else emit (ShowWarningMessage
                           ("QuickIt: Finished " ++ quoted scriptName ++ " (exit code "
                            ++ JS.ofInt (default 0 exitCode) ++ ")."))
          | Some (Reject error) =>
              notifyQuickItError "QuickIt failed to run the selected script" error
          end
  end.

(** ** The registration API *)

(** What the disposable returned by [registerInterpreter] closes over. *)
Record Registration : Type := mkRegistration {
  registeredExtension : string;
  registeredCommand : string
}.

(** [api.registerInterpreter]; [inl message] is the thrown [Error]. *)
Definition registerInterpreter (ext cmd : string) (lbl : option string)
  : M (string + Registration) :=
  let normalizedExtension := normalizeExtension ext in
  if negb (JS.truthy normalizedExtension)
  then ret (inl "Extension must be provided.")
  else
    let normalizedCommand := JS.trim cmd in
    if negb (JS.truthy normalizedCommand)
    then ret (inl "Interpreter command must be provided.")
    else if bool_decide (is_Some (BUILTIN_BY_EXTENSION !! normalizedExtension))
    then ret (inl (quoted normalizedExtension
                   ++ " is already handled by a built-in QuickIt interpreter."))
    else
      customs <- getCustomInterpreters ;;
      setCustomInterpreters
        (<[normalizedExtension := mkCustom normalizedCommand lbl]> customs) ;;;
      refresh ;;;
      ret (inr (mkRegistration normalizedExtension normalizedCommand)).

(** The callback of the returned [vscode.Disposable]. *)
Definition disposeRegistration (r : Registration) : M unit :=
  customs <- getCustomInterpreters ;;
  match customs !! registeredExtension r with
  | None => ret tt
  | Some currentValue =>
      if negb (String.eqb (command currentValue) (registeredCommand r))
      then ret tt
      else setCustomInterpreters (delete (registeredExtension r) customs) ;;; refresh
  end.

(** ** The tree provider *)

(** [vscode.FileType.File] *)
Definition FileType_File : Z := 1.

(** What the [try] block of [getChildren] meets: a failure of one of its
    awaited calls (with the error's message), or the scripts directory
    and its entries. *)
Inductive DirectoryRead : Type :=
| ReadFails (error : string)
| ReadGives (scriptsDirectory : string) (entries : list (string * Z)).

(** The [for] loop of [getChildren]. *)
Fixpoint collectScriptItems (resolveDescriptor : string -> option ScriptDescriptor)
    (scriptsDirectory : string) (entries : list (string * Z)) : list ScriptItem :=
  match entries with
  | [] => []
  | (entryName, fileType) :: rest =>
      let tail := collectScriptItems resolveDescriptor scriptsDirectory rest in
      if negb (fileType =? FileType_File) then tail
      else
        let uri := uriJoinPath H scriptsDirectory entryName in
        match resolveDescriptor uri with
        | None => tail
        | Some d => mkItem uri d :: tail
        end
  end.

(** [ScriptsTreeProvider.getChildren] *)
Definition getChildren (resolveDescriptor : string -> option ScriptDescriptor)
    (element : option ScriptItem) (read : DirectoryRead) : M (list ScriptItem) :=
  match element with
  | Some _ => ret []
  | None =>
      match read with
      | ReadGives scriptsDirectory entries =>
          let scriptItems := collectScriptItems resolveDescriptor scriptsDirectory entries in
          setReadErrorFlag false ;;;
          ret (sortByBasename H scriptItems)
      | ReadFails error =>
          shown <- getReadErrorFlag ;;
          (if negb shown
           then setReadErrorFlag true ;;;
                emit (ShowErrorMessage ("QuickIt failed to load scripts: " ++ error))
           else ret tt) ;;;
          ret []
      end
  end.

End QuickIt.

(** * Specification-side definitions

    The vocabulary in which the properties below are stated. *)

(** ** Command tokens and probes *)

(** The text before the first white space: what splitting a command on
    its first white-space run keeps. *)
Fixpoint beforeWhiteSpace (s : string) : string :=
  match s with
  | EmptyString => EmptyString
  | String c r => if JS.isWhiteSpace c then EmptyString else String c (beforeWhiteSpace r)
  end.

(** The lookup utility of [isCommandAvailable]. *)
Definition lookupTool (H : Host) : string :=
  if String.eqb (platform H) "win32" then "where.exe" else "which".

(** The one probe [isCommandAvailable] makes for a non-empty token, and
    the host's answer to it. *)
Definition probeOf (H : Host) (executable : string) : Effect :=
  if pathIsAbsolute H executable then Stat executable
  else ExecFile (lookupTool H) executable.

Definition probeAnswer (H : Host) (executable : string) : bool :=
  if pathIsAbsolute H executable then statSucceeds H executable
  else execFileSucceeds H (lookupTool H) executable.

(** The world after one more effect. *)
Definition logged (e : Effect) (w : World) : World := snd (emit e w).

(** ** The name validator *)

(** The punctuation of the class of invalid file-name characters. *)
Definition isReservedPunctuation (c : ascii) : bool :=
  Ascii.eqb c "<" || Ascii.eqb c ">" || Ascii.eqb c ":" || Ascii.eqb c DQUOTE
  || Ascii.eqb c "|" || Ascii.eqb c "?" || Ascii.eqb c "*".

(** The control characters 00 to 1F. *)
Definition isControlChar (c : ascii) : bool := (JS.code c <=? 31)%nat.

Definition isPeriod (c : ascii) : bool := Ascii.eqb c ".".

Definition isSpace (c : ascii) : bool := Ascii.eqb c " ".

(** What [preDotState] becomes when the loop, past a dot, reads the first
    character of the name. *)
Definition firstCharState (t : string) : Z :=
  match t with
  | EmptyString => 0
  | String c _ => if Ascii.eqb c Path.DOT then 1 else -1
  end.

(** The largest index below [n] that holds a dot. *)
Fixpoint lastDotBelow (t : string) (n : nat) : option nat :=
  match n with
  | O => None
  | S i =>
      match String.get i t with
      | Some c => if Ascii.eqb c Path.DOT then Some i else lastDotBelow t i
      | None => lastDotBelow t i
      end
  end.

(** The extension and the name without it, for a name without directory
    part: the extension starts at the last dot, unless that dot opens the
    name or the name is [..]. *)
Definition extSpec (t : string) : string :=
  match lastDotBelow t (String.length t) with
  | None | Some O => EmptyString
  | Some k =>
      if String.eqb t ".." then EmptyString
      else String.substring k (String.length t - k) t
  end.

Definition nameSpec (t : string) : string :=
  match lastDotBelow t (String.length t) with
  | None | Some O => t
  | Some k => if String.eqb t ".." then t else String.substring 0 k t
  end.

(** The names the validator turns down, said on the name as typed
    ([value]) where trimming cannot matter and on the trimmed name
    otherwise. *)
Definition nameRejected (value ext : string) : Prop :=
  let t := JS.trim value in
  t = EmptyString
  \/ (t = "." \/ t = "..")
  \/ JS.testClass isSeparatorChar value = true
  \/ (JS.testClass isReservedPunctuation value = true
      \/ JS.testClass isControlChar t = true)
  \/ JS.testClassAtEnd isPeriod t = true
  \/ JS.toLowerCase t = normalizeExtension ext
  \/ JS.toLowerCase (nameSpec t) ∈ WINDOWS_RESERVED_BASENAMES
  \/ (normalizeExtension (extSpec t) <> EmptyString
      /\ normalizeExtension (extSpec t) <> normalizeExtension ext).

(** ** The command builder *)

(** The quoting rule in the words of the specification. *)

Definition wrapIn (q : ascii) (s : string) : string :=
  String q (s ++ String q EmptyString).

(** Every embedded [q] doubled. *)
Fixpoint doubleEach (q : ascii) (s : string) : string :=
  match s with
  | EmptyString => EmptyString
  | String c r =>
      if Ascii.eqb c q then String q (String q (doubleEach q r))
      else String c (doubleEach q r)
  end.

(** Close quote, escaped literal quote, reopen quote. *)
Definition closeEscapeReopen : string :=
  String SQUOTE (String BACKSLASH (String SQUOTE (String SQUOTE EmptyString))).

Fixpoint escapeSingleQuotes (s : string) : string :=
  match s with
  | EmptyString => EmptyString
  | String c r =>
      if Ascii.eqb c SQUOTE then closeEscapeReopen ++ escapeSingleQuotes r
      else String c (escapeSingleQuotes r)
  end.

Definition windowsQuoting (value : string) : string :=
  wrapIn DQUOTE (doubleEach DQUOTE value).

Definition posixQuoting (value : string) : string :=
  wrapIn SQUOTE (escapeSingleQuotes value).

(** What a POSIX shell reads from a word made of single-quoted stretches
    and backslash escapes: inside quotes every character is literal up to
    the closing quote; outside, a backslash makes the next character
    literal.  [None] is an unterminated word. *)
Fixpoint shellWord (inQuote : bool) (s : string) : option string :=
  match s with
  | EmptyString => if inQuote then None else Some EmptyString
  | String c r =>
      if inQuote then
        if Ascii.eqb c SQUOTE then shellWord false r
        else String c <$> shellWord true r
      else if Ascii.eqb c SQUOTE then shellWord true r
      else if Ascii.eqb c BACKSLASH then
        match r with
        | EmptyString => None
        | String c' r' => String c' <$> shellWord false r'
        end
      else String c <$> shellWord false r
  end.

(** ** The run supervisor *)

(** What a signal asks the promise to become, if it gets past the guard of
    its handler. *)
Definition settlementOf (runId : string) (sig : HostSignal) : option Settlement :=
  match sig with
  | DidEndTaskProcess definition exitCode =>
      if isForRun runId definition then Some (Resolve exitCode) else None
  | DidEndTask definition =>
      if isForRun runId definition then Some (Resolve None) else None
  | LaunchFulfilled => None
  | LaunchRejected error => Some (Reject error)
  end.

(** The first signal of the sequence that gets past its guard. *)
Fixpoint firstSettlement (runId : string) (signals : list HostSignal)
  : option Settlement :=
  match signals with
  | [] => None
  | sig :: rest =>
      match settlementOf runId sig with
      | Some o => Some o
      | None => firstSettlement runId rest
      end
  end.

(** A supervisor that settled once, with [o]. *)
Definition settledWith (o : Settlement) : Supervisor :=
  {| settled := true; endTaskSubscriptionDisposals := 1;
     endTaskProcessSubscriptionDisposals := 1; settlements := [o] |}.

(** ** Setting resolution *)

(** Two configurations that differ at most in workspace-level and
    workspace-folder-level values. *)
Definition sameUserLevel (cfg1 cfg2 : WorkspaceConfiguration) : Prop :=
  forall key,
    match cfg1 key, cfg2 key with
    | Some i1, Some i2 =>
        globalValue i1 = globalValue i2 /\ defaultValue i1 = defaultValue i2
    | None, None => True
    | _, _ => False
    end.


(** Modelled from the spec: the settings the extension declares.  The
    declaration itself (the configuration contributed by [package.json]) is
    not among the sources; the spec lists these keys as the settings
    surface, and the README gives each of them the type string and the
    empty string as default. *)
Definition DECLARED_SETTINGS : list string :=
  [ "scriptDirectory"; "interpreters.powershell"; "interpreters.bash";
    "interpreters.python"; "interpreters.node"; "interpreters.tsNode" ].

(** A configuration of an editor that loaded these declarations:
    [inspect] knows every declared key and reports its default. *)
Definition declaresSettings (cfg : WorkspaceConfiguration) : Prop :=
  forall key,
    In key DECLARED_SETTINGS ->
    exists i, cfg key = Some i /\ defaultValue i = Some EmptyString.

(** The keys [extension.ts] passes to [getQuickItSettingValue]:
    [scriptDirectory], in [resolveScriptsDirectory], and the
    [interpreterSetting] of a descriptor, in [resolveInterpreterCommand];
    only the descriptors of the built-in table have one. *)
Definition settingsRead (H : Host) : list string :=
  "scriptDirectory"
  :: flat_map (fun d => match interpreterSetting d with
                        | Some key => [key]
                        | None => []
                        end)
       (BUILTIN_SCRIPT_DESCRIPTORS H).



(** ** The registration API *)

(** The extensions of the built-in table. *)
Definition builtinExtensions (H : Host) : list string :=
  map extension (BUILTIN_SCRIPT_DESCRIPTORS H).

(** The invalid-argument condition of [registerInterpreter]. *)
Definition invalidRegistration (H : Host) (ext cmd : string) : Prop :=
  normalizeExtension ext = EmptyString
  \/ JS.trim cmd = EmptyString
  \/ In (normalizeExtension ext) (builtinExtensions H).

(** The session after a successful registration. *)
Definition registered (ext cmd : string) (lbl : option string) (w : World) : World :=
  {| customInterpreters :=
       <[normalizeExtension ext := mkCustom (JS.trim cmd) lbl]> (customInterpreters w);
     hasShownWorkspaceConfigurationWarning := hasShownWorkspaceConfigurationWarning w;
     hasShownReadError := hasShownReadError w;
     effects := effects w ++ [RefreshView] |}.

(** The session after a disposal that removed the entry. *)
Definition unregistered (r : Registration) (w : World) : World :=
  {| customInterpreters := delete (registeredExtension r) (customInterpreters w);
     hasShownWorkspaceConfigurationWarning := hasShownWorkspaceConfigurationWarning w;
     hasShownReadError := hasShownReadError w;
     effects := effects w ++ [RefreshView] |}.

(** The stored entry is the one the handle registered, by command. *)
Definition stillRegistered (r : Registration) (w : World) : Prop :=
  exists current,
    customInterpreters w !! registeredExtension r = Some current
    /\ command current = registeredCommand r.

(** ** The tree provider's read-failure message *)

(** One call of [getChildren]: its argument and what the directory read
    meets. *)
Definition Call : Type := option ScriptItem * DirectoryRead.

(** A sequence of [getChildren] calls on one provider. *)
Fixpoint getChildrenAll (H : Host) (resolveDescriptor : string -> option ScriptDescriptor)
    (calls : list Call) : M unit :=
  match calls with
  | [] => ret tt
  | (element, read) :: rest =>
      getChildren H resolveDescriptor element read ;;;
      getChildrenAll H resolveDescriptor rest
  end.

Definition READ_ERROR (error : string) : Effect :=
  ShowErrorMessage ("QuickIt failed to load scripts: " ++ error).

(** A root call whose directory read succeeds. *)
Definition readSucceeds (c : Call) : bool :=
  match c with
  | (None, ReadGives _ _) => true
  | _ => false
  end.

(** The messages a sequence of calls shows: a failing root call shows its
    message unless a failing root call already showed one since the last
    successful read. *)
Fixpoint readErrorsShown (shown : bool) (calls : list Call) : list Effect :=
  match calls with
  | [] => []
  | (Some _, _) :: rest => readErrorsShown shown rest
  | (None, ReadGives _ _) :: rest => readErrorsShown false rest
  | (None, ReadFails error) :: rest =>
      (if shown then [] else [READ_ERROR error]) ++ readErrorsShown true rest
  end.

(** ** Interpreter resolution and the run command *)

(** The session with more effects logged. *)
Definition appended (l : list Effect) (w : World) : World :=
  mkWorld (customInterpreters w) (hasShownWorkspaceConfigurationWarning w)
          (hasShownReadError w) (effects w ++ l).

(** The availability test as a function of the host's answers, and the
    probe it makes. *)
Definition availableOn (H : Host) (cmd : string) : bool :=
  JS.truthy (extractCommandToken cmd) && probeAnswer H (extractCommandToken cmd).

Definition probesFor (H : Host) (cmd : string) : list Effect :=
  if JS.truthy (extractCommandToken cmd) then [probeOf H (extractCommandToken cmd)]
  else [].

(** The probes of a search through the candidates in list order that stops
    at the first available one. *)
Fixpoint probesUntilAvailable (H : Host) (candidates : list string) : list Effect :=
  match candidates with
  | [] => []
  | candidate :: rest =>
      probesFor H candidate
      ++ (if availableOn H candidate then [] else probesUntilAvailable H rest)
  end.

Definition isProbe (e : Effect) : bool :=
  match e with Stat _ | ExecFile _ _ => true | _ => false end.

Definition isLaunch (e : Effect) : bool :=
  match e with ExecuteTask _ _ _ _ => true | _ => false end.

(** The value [resolveInterpreterCommand] reads for the descriptor's
    settings key: what [getQuickItSettingValue] returns for it (the
    user-level value, trimmed, when there is a non-empty one), and none for
    a descriptor that names no key. *)
Definition configuredInterpreter (cfg : WorkspaceConfiguration) (d : ScriptDescriptor)
  : option string :=
  if JS.truthyOpt (interpreterSetting d)
  then fst (getQuickItConfigurationValue cfg (default EmptyString (interpreterSetting d)))
  else None.

(** The user-level value of the descriptor's settings key, trimmed, when
    the descriptor names a key and the user-level value of that key is not
    empty after trimming; none otherwise (no key, no user-level value, or
    a blank one). *)
Definition userLevelInterpreter (cfg : WorkspaceConfiguration) (d : ScriptDescriptor)
  : option string :=
  match interpreterSetting d with
  | Some key =>
      if JS.truthy key then
        match cfg key with
        | Some i =>
            match globalValue i with
            | Some g => if JS.truthy (JS.trim g) then Some (JS.trim g) else None
            | None => None
            end
        | None => None
        end
      else None
  | None => None
  end.

(** The descriptor's settings key, if it names one, is known to the
    configuration with a default that is empty after trimming, as every
    declared setting is. *)
Definition settingDefaultBlank (cfg : WorkspaceConfiguration) (d : ScriptDescriptor)
  : Prop :=
  forall key,
    interpreterSetting d = Some key -> JS.truthy key = true ->
    exists i dv,
      cfg key = Some i /\ defaultValue i = Some dv /\ JS.trim dv = EmptyString.

(** The session after that read. *)
Definition afterSettingRead (cfg : WorkspaceConfiguration) (d : ScriptDescriptor)
    (w : World) : World :=
  if JS.truthyOpt (interpreterSetting d)
  then snd (getQuickItSettingValue cfg (default EmptyString (interpreterSetting d)) w)
  else w.

(** The notification for a settled run. *)
Definition outcomeNotification (scriptName : string) (o : Settlement) : Effect :=
  match o with
  | Resolve None =>
      ShowInformationMessage ("QuickIt: Finished " ++ quoted scriptName ++ ".")
  | Resolve (Some code) =>
      if code =? 0
      then ShowInformationMessage ("QuickIt: Finished " ++ quoted scriptName ++ ".")
      else ShowWarningMessage
             ("QuickIt: Finished " ++ quoted scriptName ++ " (exit code "
              ++ JS.ofInt code ++ ").")
  | Reject error =>
      ShowErrorMessage ("QuickIt failed to run the selected script: " ++ error)
  end.

(** ** Concrete hosts and sessions *)

(** The text after the last slash. *)
Fixpoint afterLastSlash (s : string) : string :=
  match s with
  | EmptyString => EmptyString
  | String c r =>
      if JS.testClass (Ascii.eqb "/") r then afterLastSlash r
      else if Ascii.eqb c "/" then r else s
  end.

(** A POSIX machine on which [python] is on the PATH and nothing else. *)
Definition posixHost : Host :=
  {| platform := "linux";
     pathIsAbsolute := fun p => JS.startsWith p "/";
     pathBasename := afterLastSlash;
     statSucceeds := fun _ => false;
     execFileSucceeds := fun tool arg => String.eqb tool "which" && String.eqb arg "python";
     uriJoinPath := fun dir name => dir ++ "/" ++ name;
     sortByBasename := fun items => items |}.

(** A Windows machine with [pwsh] on the PATH. *)
Definition windowsHost : Host :=
  {| platform := "win32";
     pathIsAbsolute := fun p => JS.startsWith (JS.sliceFrom p 1) ":\";
     pathBasename := fun p => p;
     statSucceeds := fun _ => false;
     execFileSucceeds := fun tool arg => String.eqb tool "where.exe" && String.eqb arg "pwsh";
     uriJoinPath := fun dir name => dir ++ "\" ++ name;
     sortByBasename := fun items => items |}.

(** Every key at its declared default, the empty string. *)
Definition defaultConfiguration : WorkspaceConfiguration :=
  fun _ => Some (mkInspect (Some EmptyString) None None None).

(** The user set [interpreters.python]; a workspace tries to override it. *)
Definition userConfiguration (workspace : option string) : WorkspaceConfiguration :=
  fun key =>
    if String.eqb key "interpreters.python"
    then Some (mkInspect (Some EmptyString) (Some "  /usr/bin/python3 -u ") workspace None)
    else Some (mkInspect (Some EmptyString) None None None).

Definition pythonDescriptor (H : Host) : ScriptDescriptor :=
  default (powershellDescriptor H) (BUILTIN_BY_EXTENSION H !! ".py").

Definition helloItem : ScriptItem :=
  {| fsPath := "/home/u/scripts/hello.py"; descriptor := pythonDescriptor posixHost |}.

Definition ownDefinition (runId : string) : option TaskDefinition :=
  Some {| defType := Some "quick-it"; defRunId := Some runId |}.

(** A session in which [.rb] was registered for [ruby] and then
    re-registered for [jruby]. *)
Definition reRegistered : World :=
  registered ".rb" "jruby" None (registered ".rb" "ruby" None initialWorld).

(** * The rest of [extension.ts]

    The functions around the ones above: directory resolution, the
    add and remove commands, the safety notice, and sequences of calls of
    the registration API. *)

(** ** Directories *)

(** The functions of Node's [os] and [path] that directory resolution
    calls. *)
Record NodePaths : Type := mkNodePaths {
  osHomedir : string;                          (* os.homedir() *)
  pathJoin : string -> string -> string;       (* path.join(a, b) *)
  pathResolve : string -> string;              (* path.resolve(p) *)
  pathResolveFrom : string -> string -> string; (* path.resolve(a, b) *)
  pathSep : string                             (* path.sep *)
}.

(** [vscode.Uri]: the two properties the extension reads. *)
Record Uri : Type := mkUri {
  uriScheme : string;
  uriFsPath : string
}.

(** [resolveDirectoryPath] *)
Definition resolveDirectoryPath (H : Host) (P : NodePaths) (inputPath : string) : string :=
  let expandedPath :=
    if String.eqb inputPath "~" then osHomedir P
    else if JS.startsWith inputPath "~/" || JS.startsWith inputPath "~\"
         then pathJoin P (osHomedir P) (JS.sliceFrom inputPath 2)
         else inputPath in
  if pathIsAbsolute H expandedPath then expandedPath
  else pathResolveFrom P (osHomedir P) expandedPath.

(** [resolveScriptsDirectory]; [globalStorageUri] is the context's. *)
Definition resolveScriptsDirectory (H : Host) (P : NodePaths)
    (cfg : WorkspaceConfiguration) (globalStorageUri : Uri) : M Uri :=
  configuredDirectory <- getQuickItSettingValue cfg "scriptDirectory" ;;
  if JS.truthyOpt configuredDirectory
  then ret (mkUri "file"
              (resolveDirectoryPath H P (default EmptyString configuredDirectory)))
  else ret (mkUri (uriScheme globalStorageUri)
              (uriJoinPath H (uriFsPath globalStorageUri) "scripts")).

(** [isPathInside] *)
Definition isPathInside (H : Host) (P : NodePaths) (directoryPath filePath : string)
  : bool :=
  let resolvedDirectory := pathResolve P directoryPath in
  let resolvedFile := pathResolve P filePath in
  let normalizedDirectory :=
    if String.eqb (platform H) "win32" then JS.toLowerCase resolvedDirectory
    else resolvedDirectory in
  let normalizedFile :=
    if String.eqb (platform H) "win32" then JS.toLowerCase resolvedFile
    else resolvedFile in
  if String.eqb normalizedFile normalizedDirectory then true
  else JS.startsWith normalizedFile (normalizedDirectory ++ pathSep P).

(** [isInScriptsDirectory], on the directory [getScriptsDirectory]
    returned. *)
Definition isInScriptsDirectory (H : Host) (P : NodePaths) (uri scriptsDirectory : Uri)
  : bool :=
  if negb (String.eqb (uriScheme uri) "file") then false
  else if negb (String.eqb (uriScheme scriptsDirectory) "file") then false
  else isPathInside H P (uriFsPath scriptsDirectory) (uriFsPath uri).

(** ** The safety notice *)

Definition SAFETY_NOTICE_STATE_KEY : string := "quickIt.safetyNoticeShown".

Definition SAFETY_NOTICE : string :=
  "QuickIt runs local scripts. Only run scripts and interpreters you trust.".

(** [showSafetyNoticeOnce] on the extension's global state (the booleans
    stored in the [Memento]); [updateSucceeds] tells whether the host
    stores the update.  The result is the global state afterwards and what
    was shown. *)
Definition showSafetyNoticeOnce (globalState : gmap string bool) (updateSucceeds : bool)
  : gmap string bool * list Effect :=
  let hasShownNotice := default false (globalState !! SAFETY_NOTICE_STATE_KEY) in
  if hasShownNotice then (globalState, [])
  else
    (if updateSucceeds then <[SAFETY_NOTICE_STATE_KEY := true]> globalState
     else globalState,
     [ShowWarningMessage SAFETY_NOTICE]).

(** One activation after the other, each with the fate of its update. *)
Fixpoint activations (globalState : gmap string bool) (updates : list bool)
  : gmap string bool * list Effect :=
  match updates with
  | [] => (globalState, [])
  | updateSucceeds :: rest =>
      let '(state1, shown1) := showSafetyNoticeOnce globalState updateSucceeds in
      let '(state2, shown2) := activations state1 rest in
      (state2, (shown1 ++ shown2)%list)
  end.

(** ** The add and remove commands *)

(** What a command handler does, in order: notifications and refreshes
    (an [Effect]), questions to the user, and file operations. *)
Inductive Action : Type :=
| Notify (e : Effect)
| AskQuickPick (title : string)
| AskInputBox (title prompt placeHolder : string)
| AskModal (message button : string)
| CreateDirectory (dir : string)
| StatUri (uri : string)
| WriteFile (uri content : string)
| DeleteFile (uri : string) (useTrash : bool)
| OpenTextDocument (uri : string)
| ShowTextDocument (uri : string).

(** What the user and the host answer during one run of
    [quick-it.addScript].  [scriptsDirectory] is the outcome of
    [getScriptsDirectory] ([inl] its error); an [option string] error is
    the message of the rejection of that call, if it rejects. *)
Record AddScriptRun : Type := mkAddScriptRun {
  pickedType : option ScriptDescriptor;
  scriptNameInput : option string;
  scriptsDirectory : string + string;
  createDirectoryError : option string;
  scriptExists : bool;
  overwriteSelection : option string;
  writeFileError : option string;
  openDocumentError : option string;
  showDocumentError : option string
}.

Definition ADD_FAILED : string := "QuickIt failed to create the script".

(** The [catch] clause of a handler. *)
Definition caught (prefix error : string) : list Action :=
  [Notify (ShowErrorMessage (prefix ++ ": " ++ error))].

(** A call that may reject: on rejection the rest is skipped and the
    [catch] clause runs. *)
Definition awaiting (prefix : string) (error : option string) (rest : list Action)
  : list Action :=
  match error with
  | Some message => caught prefix message
  | None => rest
  end.

(** The handler of [quick-it.addScript]. *)
Definition addScriptCommand (H : Host) (run : AddScriptRun) : list Action :=
  AskQuickPick "Select a script type to create" ::
  match pickedType run with
  | None => []
  | Some selected =>
      AskInputBox "QuickIt: Script Name"
        ("Enter a name for your " ++ label selected ++ " script")
        ("my-script" ++ extension selected) ::
      match scriptNameInput run with
      | None => []
      | Some input =>
          match scriptsDirectory run with
          | inl error => caught ADD_FAILED error
          | inr directory =>
              CreateDirectory directory ::
              awaiting ADD_FAILED (createDirectoryError run)
                (let scriptFileName := normalizeScriptFileName input (extension selected) in
                 let scriptUri := uriJoinPath H directory scriptFileName in
                 let write :=
                   WriteFile scriptUri (getInitialTemplateForExtension (extension selected)) ::
                   awaiting ADD_FAILED (writeFileError run)
                     (Notify RefreshView ::
                      OpenTextDocument scriptUri ::
                      awaiting ADD_FAILED (openDocumentError run)
                        (ShowTextDocument scriptUri ::
                         awaiting ADD_FAILED (showDocumentError run)
                           [Notify (ShowInformationMessage
                                      ("Created " ++ quoted scriptFileName
                                       ++ " in QuickIt."))])) in
                 StatUri scriptUri ::
                 if scriptExists run then
                   AskModal ("A script named " ++ quoted scriptFileName
                             ++ " already exists. Overwrite it?") "Overwrite" ::
                   if bool_decide (overwriteSelection run = Some "Overwrite")
                   then write else []
                 else write)
          end
      end
  end.

(** What the user and the host answer during one run of
    [quick-it.removeScript]. *)
Record RemoveScriptRun : Type := mkRemoveScriptRun {
  confirmation : option string;
  stillExists : bool;
  deleteError : option string
}.

Definition REMOVE_FAILED : string := "QuickIt failed to remove the selected script".

(** The handler of [quick-it.removeScript]. *)
Definition removeScriptCommand (H : Host) (item : option ScriptItem)
    (run : RemoveScriptRun) : list Action :=
  match item with
  | None => [Notify (ShowErrorMessage "No QuickIt script selected.")]
  | Some item =>
      let scriptName := pathBasename H (fsPath item) in
      AskModal ("Remove " ++ quoted scriptName ++ " from QuickIt?") "Remove" ::
      if negb (bool_decide (confirmation run = Some "Remove")) then []
      else
        StatUri (fsPath item) ::
        if negb (stillExists run)
        then [ Notify (ShowWarningMessage (quoted scriptName ++ " was already removed."));
               Notify RefreshView ]
        else
          DeleteFile (fsPath item) true ::
          awaiting REMOVE_FAILED (deleteError run) [Notify RefreshView]
  end.

Definition isWrite (a : Action) : bool :=
  match a with WriteFile _ _ => true | _ => false end.

Definition isDelete (a : Action) : bool :=
  match a with DeleteFile _ _ => true | _ => false end.

(** ** Sequences of calls of the registration API *)

Inductive ApiCall : Type :=
| CallRegister (ext cmd : string) (lbl : option string)
| CallDispose (r : Registration).

Fixpoint runApi (H : Host) (calls : list ApiCall) : M unit :=
  match calls with
  | [] => ret tt
  | CallRegister ext cmd lbl :: rest =>
      registerInterpreter H ext cmd lbl ;;; runApi H rest
  | CallDispose r :: rest =>
      disposeRegistration r ;;; runApi H rest
  end.

(** Every key of the registry is a normalized extension that no built-in
    descriptor handles, and every command is non-empty and trimmed. *)
Definition registryWellFormed (H : Host) (customs : gmap string CustomInterpreter)
  : Prop :=
  forall ext entry,
    customs !! ext = Some entry ->
    normalizeExtension ext = ext
    /\ ext <> EmptyString
    /\ ~ In ext (builtinExtensions H)
    /\ JS.trim (command entry) = command entry
    /\ command entry <> EmptyString.

(** ** Decoding a quoted argument *)

(** A string without its last character. *)
Fixpoint withoutLast (s : string) : string :=
  match s with
  | EmptyString => EmptyString
  | String c EmptyString => EmptyString
  | String c r => String c (withoutLast r)
  end.

(** Every doubled [q] made single again. *)
Fixpoint singleEach (q : ascii) (s : string) : string :=
  match s with
  | EmptyString => EmptyString
  | String c r =>
      if Ascii.eqb c q then
        match r with
        | String c' r' => String q (singleEach q r')
        | EmptyString => String c EmptyString
        end
      else String c (singleEach q r)
  end.

(** What was quoted, read back from the quoted argument. *)
Definition unquoteArgument (H : Host) (quotedArgument : string) : option string :=
  if String.eqb (platform H) "win32" then
    match quotedArgument with
    | String _ r => Some (singleEach DQUOTE (withoutLast r))
    | EmptyString => None
    end
  else shellWord false quotedArgument.

(** A POSIX machine's [os] and [path], as far as the examples need them. *)
Definition posixPaths : NodePaths :=
  {| osHomedir := "/home/u";
     pathJoin := fun a b => a ++ "/" ++ b;
     pathResolve := fun p => p;
     pathResolveFrom := fun a b => if JS.startsWith b "/" then b else a ++ "/" ++ b;
     pathSep := "/" |}.

(** An extension as the built-in table has them: a period followed by a
    non-empty lower-case text without period, separator, white space or a
    character that file names exclude. *)
Definition plainExtension (ext : string) : bool :=
  match ext with
  | EmptyString => false
  | String c x =>
      Ascii.eqb c "." && JS.truthy x
      && negb (JS.testClass isPeriod x)
      && negb (JS.testClass isSeparatorChar x)
      && negb (JS.testClass isInvalidFilenameChar x)
      && negb (JS.testClass JS.isWhiteSpace x)
      && String.eqb (JS.toLowerCase x) x
  end.


(** The form of a path that [isPathInside] compares: resolved, and in
    lower case on Windows. *)
Definition comparedPath (H : Host) (P : NodePaths) (p : string) : string :=
  if String.eqb (platform H) "win32" then JS.toLowerCase (pathResolve P p)
  else pathResolve P p.

(** The label [resolveDescriptorForUri] gives a custom descriptor. *)
Definition customDescriptorLabel (ext : string) (lbl : option string) : string :=
  match lbl with
  | Some l => if JS.truthy (JS.trim l) then JS.trim l else "Custom (" ++ ext ++ ")"
  | None => "Custom (" ++ ext ++ ")"
  end.

(** An index of a name, seen as an index of a path that has [k] code
    units before the name; [-1] stays the mark of an index not yet set. *)
Definition shiftIndex (k i : Z) : Z := if i =? -1 then -1 else i + k.

(** The loop variables of a scan of a name, seen from such a path. *)
Definition shiftScan (k : Z) (st : Path.scan) : Path.scan :=
  Path.mkScan (shiftIndex k (Path.startDot st)) (Path.startPart st)
              (shiftIndex k (Path.endIdx st)) (Path.matchedSlash st)
              (Path.preDotState st).

(** The loop variables with another [startPart]. *)
Definition withStartPart (sp : Z) (st : Path.scan) : Path.scan :=
  Path.mkScan (Path.startDot st) sp (Path.endIdx st) (Path.matchedSlash st)
              (Path.preDotState st).

(** * Properties *)

(** ** The model on the inputs of the test suite *)

Example extname_examples :
  Path.extname "my-script.ps1" = ".ps1" /\ Path.extname "my-script" = EmptyString
  /\ Path.extname ".bashrc" = EmptyString /\ Path.extname ".." = EmptyString
  /\ Path.extname "a.b.c" = ".c" /\ Path.extname "dir.d/file" = EmptyString
  /\ Path.extname "name." = "." /\ Path.extname "/x/y.tar.gz/" = ".gz".
Proof. repeat split; reflexivity. Qed.

Example win32Extname_examples :
  Path.win32Extname "C:\scripts\job.PY" = ".PY"
  /\ Path.win32Extname "C:\scripts\.py" = EmptyString
  /\ Path.extname "C:\scripts\.py" = ".py"
  /\ Path.win32Extname "C:\scripts.d\job" = EmptyString
  /\ Path.win32Extname "C:a.b" = ".b"
  /\ Path.win32Extname "c:/x/y.tar.gz\" = ".gz"
  /\ Path.win32Extname "my-script.ps1" = ".ps1".
Proof. repeat split; reflexivity. Qed.

Example parseName_examples :
  Path.parseName "con.ps1" = "con" /\ Path.parseName "my-script" = "my-script"
  /\ Path.parseName ".bashrc" = ".bashrc" /\ Path.parseName "/a/b.txt" = "b"
  /\ Path.parseName "con.tar.gz" = "con.tar".
Proof. repeat split; reflexivity. Qed.

Example nameSpec_examples :
  nameSpec "con.ps1" = "con" /\ extSpec "con.ps1" = ".ps1"
  /\ nameSpec "my-script" = "my-script" /\ extSpec "my-script" = EmptyString
  /\ nameSpec ".profile" = ".profile" /\ extSpec ".profile" = EmptyString
  /\ nameSpec "a.tar.gz" = "a.tar" /\ extSpec "a.tar.gz" = ".gz".
Proof. repeat split; reflexivity. Qed.

Example validate_tests :
  validateScriptNameInput EmptyString ".ps1" <> None
  /\ validateScriptNameInput ".." ".ps1" <> None
  /\ validateScriptNameInput "path/to/script" ".ps1" <> None
  /\ validateScriptNameInput "script.sh" ".ps1" <> None
  /\ validateScriptNameInput ".ps1" ".ps1" <> None
  /\ validateScriptNameInput "name." ".ps1" <> None
  /\ validateScriptNameInput "con" ".ps1" <> None
  /\ validateScriptNameInput "my-script" ".ps1" = None
  /\ validateScriptNameInput "my-script.ps1" ".ps1" = None.
Proof. repeat split; vm_compute; congruence. Qed.

Example normalizeScriptFileName_tests :
  normalizeScriptFileName "script" ".ps1" = "script.ps1"
  /\ normalizeScriptFileName "script.ps1" ".ps1" = "script.ps1".
Proof. split; reflexivity. Qed.

Example extractCommandToken_examples :
  extractCommandToken "  python3 -u " = "python3"
  /\ extractCommandToken "'/opt/my tools/py' -u" = "/opt/my tools/py"
  /\ extractCommandToken "'unterminated arg" = "'unterminated"
  /\ extractCommandToken "''foo bar" = "''foo"
  /\ extractCommandToken "   " = EmptyString.
Proof. repeat split; reflexivity. Qed.

Example ofInt_examples :
  JS.ofInt 0 = "0" /\ JS.ofInt 137 = "137" /\ JS.ofInt (-1) = "-1".
Proof. repeat split; reflexivity. Qed.

Example builtinExtensions_are (H : Host) :
  builtinExtensions H = [".ps1"; ".sh"; ".zsh"; ".py"; ".js"; ".ts"].
Proof. reflexivity. Qed.

Example run_hello_exit_2 :
  effects (snd (runScriptCommand posixHost defaultConfiguration (Some helloItem) "r1"
                  [LaunchFulfilled; DidEndTaskProcess (ownDefinition "r1") (Some 2);
                   DidEndTask (ownDefinition "r1")]
                  initialWorld))
  = [ ExecFile "which" "python"; ExecFile "which" "python";
      ShowInformationMessage ("QuickIt: Executing " ++ quoted "hello.py" ++ "...");
      ExecuteTask "quick-it" "r1" "QuickIt: hello.py"
                  "python '/home/u/scripts/hello.py'";
      ShowWarningMessage ("QuickIt: Finished " ++ quoted "hello.py" ++ " (exit code 2).") ].
Proof. vm_compute. reflexivity. Qed.

(** ** Facts about the string primitives *)

Section StringFacts.

Lemma truthy_false_iff (s : string) : JS.truthy s = false <-> s = EmptyString.
Proof. destruct s; simpl; split; congruence. Qed.

Lemma truthy_true_iff (s : string) : JS.truthy s = true <-> s <> EmptyString.
Proof. destruct s; simpl; split; congruence. Qed.

Lemma substring_whole (s : string) : String.substring 0 (String.length s) s = s.
Proof. induction s as [|c s IH]; simpl; [reflexivity | now rewrite IH]. Qed.

Lemma slice_prefix (s : string) (k : Z) :
  0 <= k <= JS.len s -> JS.slice s 0 k = String.substring 0 (Z.to_nat k) s.
Proof.
  intros Hk. unfold JS.slice, JS.clampIndex, JS.len in *.
  replace (0 <? 0) with false by reflexivity.
  destruct (k <? 0) eqn:E; [apply Z.ltb_lt in E; lia|].
  rewrite Z.min_l by lia. rewrite (Z.min_l k) by lia.
  rewrite Z.sub_0_r, Z.max_l by lia. reflexivity.
Qed.

(** [findIndexFrom] returns [-1] or an index in range. *)
Lemma findIndexFrom_range (p : ascii -> bool) (s : string) (i : Z) :
  0 <= i ->
  JS.findIndexFrom p s i = -1
  \/ i <= JS.findIndexFrom p s i < i + JS.len s.
Proof.
  revert i. induction s as [|c s IH]; intros i Hi; simpl; [now left|].
  unfold JS.len. simpl String.length.
  destruct (p c); [right; lia|].
  destruct (IH (i + 1) ltac:(lia)) as [E | E]; [now left | right].
  unfold JS.len in E. lia.
Qed.

Lemma findIndexFrom_none (p : ascii -> bool) (s : string) (i : Z) :
  0 <= i -> (JS.findIndexFrom p s i = -1 <-> JS.testClass p s = false).
Proof.
  revert i. induction s as [|c s IH]; intros i Hi; simpl; [tauto|].
  destruct (p c); simpl.
  - split; [lia | discriminate].
  - apply IH. lia.
Qed.

Lemma findIndexFrom_head (p : ascii -> bool) (s : string) (i : Z) :
  0 <= i ->
  (JS.findIndexFrom p s i = i <->
   exists c r, s = String c r /\ p c = true).
Proof.
  intros Hi. destruct s as [|c r]; simpl.
  - split; [lia | intros (c & r & E & _); discriminate].
  - destruct (p c) eqn:Ec.
    + split; [eauto | reflexivity].
    + split.
      * intros E. destruct (findIndexFrom_range p r (i + 1) ltac:(lia)); lia.
      * intros (c' & r' & E & Hc). injection E as -> ->. congruence.
Qed.

Lemma substring_findIndex (s : string) (i : Z) :
  0 <= i -> JS.findIndexFrom JS.isWhiteSpace s i <> -1 ->
  String.substring 0 (Z.to_nat (JS.findIndexFrom JS.isWhiteSpace s i - i)) s
  = beforeWhiteSpace s.
Proof.
  revert i. induction s as [|c s IH]; intros i Hi Hne; simpl in *; [congruence|].
  destruct (JS.isWhiteSpace c).
  - now rewrite Z.sub_diag.
  - specialize (IH (i + 1) ltac:(lia) Hne).
    destruct (findIndexFrom_range JS.isWhiteSpace s (i + 1) ltac:(lia)) as [E|E];
      [congruence|].
    replace (Z.to_nat (JS.findIndexFrom JS.isWhiteSpace s (i + 1) - i))
      with (S (Z.to_nat (JS.findIndexFrom JS.isWhiteSpace s (i + 1) - (i + 1))))
      by lia.
    simpl. now rewrite IH.
Qed.

Lemma beforeWhiteSpace_all (s : string) :
  JS.testClass JS.isWhiteSpace s = false -> beforeWhiteSpace s = s.
Proof.
  induction s as [|c s IH]; simpl; [reflexivity|].
  destruct (JS.isWhiteSpace c); simpl; [discriminate|].
  intros E. now rewrite IH.
Qed.

(** The fall-back of [extractCommandToken] is the split on the first
    white space. *)
Lemma unquotedToken_spec (t : string) : unquotedToken t = beforeWhiteSpace t.
Proof.
  unfold unquotedToken, JS.searchWhiteSpace.
  destruct (Z.eqb_spec (JS.findIndexFrom JS.isWhiteSpace t 0) (-1)) as [E|E].
  - symmetry. apply beforeWhiteSpace_all. now apply (findIndexFrom_none _ _ 0).
  - destruct (findIndexFrom_range JS.isWhiteSpace t 0 ltac:(lia)) as [E'|E'];
      [congruence|].
    rewrite slice_prefix by lia.
    rewrite <- (substring_findIndex t 0) by (lia || assumption).
    now rewrite Z.sub_0_r.
Qed.

Lemma indexOfChar_after_head (q : ascii) (rest : string) :
  JS.indexOfChar (String q rest) q 1 = JS.findIndexFrom (Ascii.eqb q) rest 1.
Proof.
  unfold JS.indexOfChar. simpl. now rewrite Nat.sub_0_r, substring_whole.
Qed.

End StringFacts.

(** ** Facts about trimming *)

Section TrimFacts.

Lemma trimEnd_cons_keep (c : ascii) (r : string) :
  JS.isWhiteSpace c = false -> JS.trimEnd (String c r) = String c (JS.trimEnd r).
Proof. intros E. simpl. rewrite E. now destruct (JS.trimEnd r). Qed.

Lemma trimEnd_idempotent (s : string) : JS.trimEnd (JS.trimEnd s) = JS.trimEnd s.
Proof.
  induction s as [|c r IH]; [reflexivity|].
  simpl. destruct (JS.trimEnd r) as [|c' r'] eqn:E.
  - destruct (JS.isWhiteSpace c) eqn:Ec; [reflexivity|]. simpl. now rewrite Ec.
  - change (JS.trimEnd (String c (String c' r'))) with
      (match JS.trimEnd (String c' r') with
       | EmptyString => if JS.isWhiteSpace c then EmptyString else String c EmptyString
       | r'' => String c r''
       end).
    now rewrite IH.
Qed.

Lemma trimStart_head (s : string) :
  JS.trimStart s = EmptyString
  \/ exists c r, JS.trimStart s = String c r /\ JS.isWhiteSpace c = false.
Proof.
  induction s as [|c r IH]; simpl; [now left|].
  destruct (JS.isWhiteSpace c) eqn:E; [exact IH | right; eauto].
Qed.

(** A trimmed string is empty or starts with a character that is not
    white space. *)
Lemma trim_head (s : string) :
  JS.trim s = EmptyString
  \/ exists c r, JS.trim s = String c r /\ JS.isWhiteSpace c = false.
Proof.
  unfold JS.trim. destruct (trimStart_head s) as [E | (c & r & E & Hc)]; rewrite E.
  - now left.
  - right. rewrite trimEnd_cons_keep by assumption. eauto.
Qed.

Lemma trimStart_fixed (c : ascii) (r : string) :
  JS.isWhiteSpace c = false -> JS.trimStart (String c r) = String c r.
Proof. intros E. simpl. now rewrite E. Qed.

(** Trimming twice is trimming once. *)
Lemma trim_idempotent (s : string) : JS.trim (JS.trim s) = JS.trim s.
Proof.
  destruct (trim_head s) as [E | (c & r & E & Hc)]; rewrite E; [reflexivity|].
  unfold JS.trim at 1. rewrite trimStart_fixed by assumption.
  rewrite <- E. unfold JS.trim. apply trimEnd_idempotent.
Qed.

(** A trimmed string does not end in white space. *)
Lemma trimEnd_last (s : string) :
  JS.testClassAtEnd JS.isWhiteSpace (JS.trimEnd s) = false.
Proof.
  induction s as [|c r IH]; [reflexivity|].
  simpl. destruct (JS.trimEnd r) as [|c' r'] eqn:E.
  - destruct (JS.isWhiteSpace c) eqn:Ec; simpl; [reflexivity | exact Ec].
  - exact IH.
Qed.

Lemma trim_last (s : string) : JS.testClassAtEnd JS.isWhiteSpace (JS.trim s) = false.
Proof. apply trimEnd_last. Qed.

(** Trimming removes white space only: a class without white space is met
    in the trimmed string exactly when it is met in the string. *)
Lemma testClass_trimStart (p : ascii -> bool) (s : string) :
  (forall c, p c = true -> JS.isWhiteSpace c = false) ->
  JS.testClass p (JS.trimStart s) = JS.testClass p s.
Proof.
  intros Hp. induction s as [|c r IH]; [reflexivity|].
  simpl. destruct (JS.isWhiteSpace c) eqn:Ec; [|reflexivity].
  destruct (p c) eqn:Epc; [apply Hp in Epc; congruence | exact IH].
Qed.

Lemma testClass_trimEnd (p : ascii -> bool) (s : string) :
  (forall c, p c = true -> JS.isWhiteSpace c = false) ->
  JS.testClass p (JS.trimEnd s) = JS.testClass p s.
Proof.
  intros Hp. induction s as [|c r IH]; [reflexivity|].
  simpl. destruct (JS.trimEnd r) as [|c' r'] eqn:E.
  - rewrite <- IH. simpl. destruct (JS.isWhiteSpace c) eqn:Ec; simpl.
    + destruct (p c) eqn:Epc; [apply Hp in Epc; congruence | reflexivity].
    + reflexivity.
  - rewrite <- IH. reflexivity.
Qed.

Lemma testClass_trim (p : ascii -> bool) (s : string) :
  (forall c, p c = true -> JS.isWhiteSpace c = false) ->
  JS.testClass p (JS.trim s) = JS.testClass p s.
Proof.
  intros Hp. unfold JS.trim.
  now rewrite testClass_trimEnd, testClass_trimStart.
Qed.

Lemma testClass_or (p q : ascii -> bool) (s : string) :
  JS.testClass (fun c => p c || q c) s = JS.testClass p s || JS.testClass q s.
Proof.
  induction s as [|c r IH]; [reflexivity|].
  simpl. rewrite IH. destruct (p c), (q c), (JS.testClass p r); reflexivity.
Qed.

Lemma testClassAtEnd_or (p q : ascii -> bool) (s : string) :
  JS.testClassAtEnd (fun c => p c || q c) s
  = JS.testClassAtEnd p s || JS.testClassAtEnd q s.
Proof.
  induction s as [|c r IH]; [reflexivity|].
  destruct r as [|c' r']; [reflexivity | exact IH].
Qed.

Lemma testClassAtEnd_mono (p q : ascii -> bool) (s : string) :
  (forall c, p c = true -> q c = true) ->
  JS.testClassAtEnd p s = true -> JS.testClassAtEnd q s = true.
Proof.
  intros Hpq. induction s as [|c r IH]; [discriminate|].
  destruct r as [|c' r']; [apply Hpq | exact IH].
Qed.

Lemma testClass_ext (p q : ascii -> bool) (s : string) :
  (forall c, p c = q c) -> JS.testClass p s = JS.testClass q s.
Proof. intros E. induction s as [|c r IH]; simpl; [reflexivity | now rewrite E, IH]. Qed.

Lemma testClassAtEnd_ext (p q : ascii -> bool) (s : string) :
  (forall c, p c = q c) -> JS.testClassAtEnd p s = JS.testClassAtEnd q s.
Proof.
  intros E. induction s as [|c r IH]; [reflexivity|].
  destruct r as [|c' r']; [apply E | exact IH].
Qed.

End TrimFacts.

(** ** Node's [path] functions on names without a slash *)

Lemma scanChar_startPart (c : ascii) (i : Z) (st : Path.scan) :
  Path.startPart (Path.scanChar c i st) = Path.startPart st.
Proof.
  unfold Path.scanChar.
  repeat match goal with
         | |- context [if ?b then _ else _] => destruct b
         end; reflexivity.
Qed.

Lemma scanChar_endIdx (c : ascii) (i : Z) (st : Path.scan) :
  Path.endIdx (Path.scanChar c i st)
  = if Path.endIdx st =? -1 then i + 1 else Path.endIdx st.
Proof.
  unfold Path.scanChar.
  destruct (Path.endIdx st =? -1);
    repeat match goal with
           | |- context [if ?b then _ else _] => destruct b
           end; reflexivity.
Qed.

Lemma scanChar_startDot (c : ascii) (i : Z) (st : Path.scan) :
  Path.startDot (Path.scanChar c i st)
  = if Ascii.eqb c Path.DOT && (Path.startDot st =? -1) then i else Path.startDot st.
Proof.
  unfold Path.scanChar.
  destruct (Path.endIdx st =? -1); cbn [Path.startDot Path.preDotState];
    destruct (Ascii.eqb c Path.DOT); destruct (Path.startDot st =? -1) eqn:E;
    cbn [andb negb Path.startDot];
    repeat match goal with
           | |- context [if ?b then _ else _] => destruct b
           end; reflexivity.
Qed.

Lemma scanChar_preDotState (c : ascii) (i : Z) (st : Path.scan) :
  Path.preDotState (Path.scanChar c i st)
  = if Path.startDot st =? -1 then Path.preDotState st
    else if Ascii.eqb c Path.DOT then 1 else -1.
Proof.
  unfold Path.scanChar.
  destruct (Path.endIdx st =? -1); cbn [Path.startDot Path.preDotState];
    destruct (Ascii.eqb c Path.DOT); destruct (Path.startDot st =? -1) eqn:E;
    cbn [andb negb Path.preDotState]; try reflexivity;
    destruct (Z.eqb_spec (Path.preDotState st) 1); cbn [negb Path.preDotState];
    congruence.
Qed.

Section PathFacts.

Variable s : string.
Hypothesis no_slash : JS.testClass (Ascii.eqb Path.SLASH) s = false.

Lemma get_in_range (t : string) (i : nat) :
  (i < String.length t)%nat -> exists c, String.get i t = Some c.
Proof.
  revert i. induction t as [|c r IH]; intros i Hi; simpl in Hi; [lia|].
  destruct i as [|i]; simpl; [eauto | apply IH; lia].
Qed.

Lemma get_not_slash_in (t : string) (i : nat) (c : ascii) :
  JS.testClass (Ascii.eqb Path.SLASH) t = false ->
  String.get i t = Some c -> Ascii.eqb c Path.SLASH = false.
Proof.
  revert i. induction t as [|c' r IH]; intros i Ht Hg; [discriminate|].
  simpl in Ht. apply orb_false_iff in Ht as [Hc Hr].
  destruct i as [|i]; simpl in Hg.
  - injection Hg as <-. now rewrite Ascii.eqb_sym.
  - now apply (IH i).
Qed.

Lemma scanLoop_step (i : nat) (st : Path.scan) :
  (i < String.length s)%nat ->
  exists c, String.get i s = Some c
            /\ Path.scanLoop s 0 (S i) st
               = Path.scanLoop s 0 i (Path.scanChar c (Z.of_nat i) st).
Proof.
  intros Hi. destruct (get_in_range s i Hi) as [c Hc]. exists c. split; [exact Hc|].
  cbn [Path.scanLoop]. replace (i <? 0)%nat with false by (symmetry; apply Nat.ltb_ge; lia).
  rewrite Hc. now rewrite (get_not_slash_in s i c no_slash Hc).
Qed.

(** The loop keeps [startPart] and sets [endIdx] at the first character
    it meets. *)
Lemma scanLoop_frame (n : nat) (st : Path.scan) :
  (n <= String.length s)%nat ->
  Path.startPart (Path.scanLoop s 0 n st) = Path.startPart st
  /\ Path.endIdx (Path.scanLoop s 0 n st)
     = (if Path.endIdx st =? -1
        then match n with O => -1 | _ => Z.of_nat n end
        else Path.endIdx st).
Proof.
  revert st. induction n as [|i IH]; intros st Hn.
  - simpl. split; [reflexivity|]. destruct (Z.eqb_spec (Path.endIdx st) (-1)); congruence.
  - destruct (scanLoop_step i st ltac:(lia)) as (c & _ & ->).
    destruct (IH (Path.scanChar c (Z.of_nat i) st) ltac:(lia)) as [-> ->].
    rewrite scanChar_startPart, scanChar_endIdx. split; [reflexivity|].
    destruct (Z.eqb_spec (Path.endIdx st) (-1)) as [E|E].
    + replace (Z.of_nat i + 1 =? -1) with false by (symmetry; apply Z.eqb_neq; lia). lia.
    + now apply Z.eqb_neq in E as ->.
Qed.

(** With the dot already found, the loop only updates [preDotState]. *)
Lemma scanLoop_after_dot (n : nat) (st : Path.scan) :
  (n <= String.length s)%nat -> Path.startDot st <> -1 ->
  Path.startDot (Path.scanLoop s 0 n st) = Path.startDot st
  /\ Path.preDotState (Path.scanLoop s 0 n st)
     = match n with O => Path.preDotState st | _ => firstCharState s end.
Proof.
  revert st. induction n as [|i IH]; intros st Hn Hsd; [split; reflexivity|].
  destruct (scanLoop_step i st ltac:(lia)) as (c & Hc & ->).
  assert (Hsd' : Path.startDot (Path.scanChar c (Z.of_nat i) st) = Path.startDot st).
  { rewrite scanChar_startDot. apply Z.eqb_neq in Hsd. rewrite Hsd.
    now rewrite andb_false_r. }
  destruct (IH (Path.scanChar c (Z.of_nat i) st) ltac:(lia) ltac:(congruence))
    as [-> ->].
  split; [exact Hsd'|].
  destruct i as [|i]; [|reflexivity].
  rewrite scanChar_preDotState. apply Z.eqb_neq in Hsd. rewrite Hsd.
  destruct s as [|c0 r]; [discriminate Hc|]. simpl in Hc. now injection Hc as ->.
Qed.

(** Before any dot, the loop looks for the last one. *)
Lemma scanLoop_before_dot (n : nat) (st : Path.scan) :
  (n <= String.length s)%nat -> Path.startDot st = -1 ->
  match lastDotBelow s n with
  | None =>
      Path.startDot (Path.scanLoop s 0 n st) = -1
      /\ Path.preDotState (Path.scanLoop s 0 n st) = Path.preDotState st
  | Some k =>
      Path.startDot (Path.scanLoop s 0 n st) = Z.of_nat k
      /\ Path.preDotState (Path.scanLoop s 0 n st)
         = match k with O => Path.preDotState st | _ => firstCharState s end
  end.
Proof.
  revert st. induction n as [|i IH]; intros st Hn Hsd; [split; [exact Hsd | reflexivity]|].
  destruct (scanLoop_step i st ltac:(lia)) as (c & Hc & ->).
  cbn [lastDotBelow]. rewrite Hc.
  destruct (Ascii.eqb c Path.DOT) eqn:Edot.
  - assert (Hsd' : Path.startDot (Path.scanChar c (Z.of_nat i) st) = Z.of_nat i).
    { rewrite scanChar_startDot, Edot, Hsd. reflexivity. }
    destruct (scanLoop_after_dot i (Path.scanChar c (Z.of_nat i) st) ltac:(lia)
                ltac:(lia)) as [-> ->].
    split; [exact Hsd'|]. destruct i; [|reflexivity].
    rewrite scanChar_preDotState, Hsd. reflexivity.
  - assert (Hsd' : Path.startDot (Path.scanChar c (Z.of_nat i) st) = -1).
    { rewrite scanChar_startDot, Edot, Hsd. reflexivity. }
    assert (Hpd : Path.preDotState (Path.scanChar c (Z.of_nat i) st)
                  = Path.preDotState st).
    { rewrite scanChar_preDotState, Hsd. reflexivity. }
    specialize (IH (Path.scanChar c (Z.of_nat i) st) ltac:(lia) Hsd').
    rewrite Hpd in IH. exact IH.
Qed.

End PathFacts.

Lemma lastDotBelow_Some (t : string) (n k : nat) :
  lastDotBelow t n = Some k -> (k < n)%nat /\ String.get k t = Some Path.DOT.
Proof.
  induction n as [|i IH]; [discriminate|].
  cbn [lastDotBelow]. destruct (String.get i t) as [c|] eqn:Hc.
  - destruct (Ascii.eqb_spec c Path.DOT) as [->|].
    + intros [= <-]. split; [lia | exact Hc].
    + intros E. destruct (IH E). split; [lia | assumption].
  - intros E. destruct (IH E). split; [lia | assumption].
Qed.

Lemma slice_range (t : string) (a b : Z) :
  0 <= a <= b -> b <= JS.len t ->
  JS.slice t a b = String.substring (Z.to_nat a) (Z.to_nat (b - a)) t.
Proof.
  intros Ha Hb. unfold JS.slice, JS.clampIndex.
  destruct (Z.ltb_spec a 0); [lia|]. destruct (Z.ltb_spec b 0); [lia|].
  rewrite !Z.min_l by lia. now rewrite Z.max_l by lia.
Qed.

(** What the loop computes on a name without a slash. *)
Lemma scanLoop_no_slash (t : string) :
  JS.testClass (Ascii.eqb Path.SLASH) t = false ->
  let st := Path.scanLoop t 0 (String.length t) Path.scanInit in
  Path.startPart st = 0
  /\ Path.endIdx st = match String.length t with O => -1 | n => Z.of_nat n end
  /\ match lastDotBelow t (String.length t) with
     | None => Path.startDot st = -1 /\ Path.preDotState st = 0
     | Some k =>
         Path.startDot st = Z.of_nat k
         /\ Path.preDotState st = match k with O => 0 | _ => firstCharState t end
     end.
Proof.
  intros Hns. cbv zeta.
  destruct (scanLoop_frame t Hns (String.length t) Path.scanInit ltac:(lia)) as [-> ->].
  split; [reflexivity|]. split.
  - simpl. now destruct (String.length t).
  - apply (scanLoop_before_dot t Hns (String.length t) Path.scanInit);
      [lia | reflexivity].
Qed.

Lemma two_dots (t : string) :
  String.length t = 2%nat -> firstCharState t = 1 ->
  String.get 1 t = Some Path.DOT -> t = "..".
Proof.
  destruct t as [|c0 [|c1 [|c2 r]]]; try discriminate. intros _. simpl.
  destruct (Ascii.eqb_spec c0 Path.DOT) as [->|]; [|discriminate].
  now intros _ [= ->].
Qed.

Lemma noExtension_no_slash (t : string) :
  JS.testClass (Ascii.eqb Path.SLASH) t = false -> t <> EmptyString ->
  let st := Path.scanLoop t 0 (String.length t) Path.scanInit in
  match lastDotBelow t (String.length t) with
  | None | Some O => Path.noExtension st = true
  | Some _ => Path.noExtension st = String.eqb t ".."
  end.
Proof.
  intros Hns Hne. cbv zeta.
  destruct (scanLoop_no_slash t Hns) as (Hsp & Hend & Hdot).
  unfold Path.noExtension. rewrite Hsp, Hend.
  destruct (lastDotBelow t (String.length t)) as [[|k]|] eqn:Elast;
    destruct Hdot as [-> ->]; try reflexivity.
  apply lastDotBelow_Some in Elast as [Hlt Hget].
  replace (Z.of_nat (S k) =? -1) with false by (symmetry; apply Z.eqb_neq; lia).
  destruct (String.length t) as [|n] eqn:Elen; [lia|].
  destruct (String.eqb_spec t "..") as [->|Hnot].
  - simpl in Elen. injection Elen as <-. assert (k = 0)%nat as -> by lia. reflexivity.
  - destruct (Z.eqb_spec (firstCharState t) 0) as [E0|E0].
    { destruct t as [|c0 r]; [discriminate|]. simpl in E0.
      destruct (Ascii.eqb c0 Path.DOT); discriminate. }
    cbn [orb].
    destruct (Z.eqb_spec (firstCharState t) 1) as [E1|E1]; [|reflexivity].
    destruct (Z.eqb_spec (Z.of_nat (S k)) (Z.of_nat (S n) - 1)) as [E2|E2];
      [|reflexivity].
    destruct (Z.eqb_spec (Z.of_nat (S k)) (0 + 1)) as [E3|E3]; [|reflexivity].
    exfalso. apply Hnot. assert (k = 0)%nat as -> by lia.
    apply two_dots; [lia | assumption | assumption].
Qed.

(** On a name without a slash, [path.extname] is the text from the last
    dot on, and empty when there is no dot, when the dot opens the name,
    and for [..]. *)
Lemma extname_no_slash (t : string) :
  JS.testClass (Ascii.eqb Path.SLASH) t = false -> Path.extname t = extSpec t.
Proof.
  intros Hns. destruct t as [|c0 r] eqn:Et; [reflexivity|]. rewrite <- Et in *.
  assert (Hne : t <> EmptyString) by (rewrite Et; discriminate).
  pose proof (noExtension_no_slash t Hns Hne) as Hno. cbv zeta in Hno.
  destruct (scanLoop_no_slash t Hns) as (Hsp & Hend & Hdot).
  unfold Path.extname, extSpec. rewrite Hend.
  assert (Hlen : (0 < String.length t)%nat) by (rewrite Et; simpl; lia).
  destruct (String.length t) as [|n] eqn:Elen; [lia|].
  replace (Z.of_nat (S n) =? -1) with false by (symmetry; apply Z.eqb_neq; lia).
  cbn [orb].
  destruct (lastDotBelow t (S n)) as [[|k]|] eqn:Elast; rewrite Hno; try reflexivity.
  destruct (String.eqb t ".."); [reflexivity|].
  destruct Hdot as [-> _]. apply lastDotBelow_Some in Elast as [Hlt _].
  rewrite slice_range by (unfold JS.len; lia).
  f_equal; lia.
Qed.

(** And [path.parse(...).name] is the rest. *)
Lemma parseName_no_slash (t : string) :
  JS.testClass (Ascii.eqb Path.SLASH) t = false -> Path.parseName t = nameSpec t.
Proof.
  intros Hns. destruct t as [|c0 r] eqn:Et; [reflexivity|]. rewrite <- Et in *.
  assert (Hne : t <> EmptyString) by (rewrite Et; discriminate).
  pose proof (noExtension_no_slash t Hns Hne) as Hno. cbv zeta in Hno.
  destruct (scanLoop_no_slash t Hns) as (Hsp & Hend & Hdot).
  assert (Hc0 : Ascii.eqb c0 Path.SLASH = false).
  { rewrite Et in Hns. simpl in Hns. apply orb_false_iff in Hns as [Hc _].
    now rewrite Ascii.eqb_sym. }
  unfold Path.parseName, nameSpec. rewrite Et at 1. rewrite Hc0, Hend, Hsp.
  assert (Hlen : (0 < String.length t)%nat) by (rewrite Et; simpl; lia).
  destruct (String.length t) as [|n] eqn:Elen; [lia|].
  replace (Z.of_nat (S n) =? -1) with false by (symmetry; apply Z.eqb_neq; lia).
  cbn [andb]. rewrite andb_false_r.
  assert (Hall : JS.slice t 0 (Z.of_nat (S n)) = t).
  { rewrite slice_range by (unfold JS.len; lia).
    rewrite Z.sub_0_r, Nat2Z.id. simpl Z.to_nat. rewrite <- Elen. apply substring_whole. }
  destruct (lastDotBelow t (S n)) as [[|k]|] eqn:Elast; rewrite Hno; try exact Hall.
  destruct (String.eqb t ".."); [exact Hall|].
  destruct Hdot as [-> _]. apply lastDotBelow_Some in Elast as [Hlt _].
  rewrite slice_range by (unfold JS.len; lia).
  f_equal; lia.
Qed.

(** ** The name validator *)

Lemma separator_not_white (c : ascii) :
  isSeparatorChar c = true -> JS.isWhiteSpace c = false.
Proof.
  unfold isSeparatorChar. intros E.
  apply orb_true_iff in E as [E|E]; apply Ascii.eqb_eq in E; subst; reflexivity.
Qed.

Lemma punctuation_not_white (c : ascii) :
  isReservedPunctuation c = true -> JS.isWhiteSpace c = false.
Proof.
  unfold isReservedPunctuation. intros E.
  repeat (apply orb_true_iff in E as [E|E]);
    apply Ascii.eqb_eq in E; subst; reflexivity.
Qed.

Lemma space_is_white (c : ascii) : isSpace c = true -> JS.isWhiteSpace c = true.
Proof. unfold isSpace. intros E. apply Ascii.eqb_eq in E. now subst. Qed.

Lemma separator_free_no_slash (t : string) :
  JS.testClass isSeparatorChar t = false ->
  JS.testClass (Ascii.eqb Path.SLASH) t = false.
Proof.
  induction t as [|c r IH]; [reflexivity|].
  cbn [JS.testClass]. intros E. apply orb_false_iff in E as [Ec Er].
  unfold isSeparatorChar in Ec. apply orb_false_iff in Ec as [_ Ec].
  rewrite (Ascii.eqb_sym Path.SLASH c). unfold Path.SLASH. rewrite Ec. now apply IH.
Qed.

Lemma invalid_chars_trimmed (value : string) :
  JS.testClass isInvalidFilenameChar (JS.trim value)
  = JS.testClass isReservedPunctuation value
    || JS.testClass isControlChar (JS.trim value).
Proof.
  rewrite (testClass_ext isInvalidFilenameChar
             (fun c => isReservedPunctuation c || isControlChar c))
    by reflexivity.
  rewrite testClass_or. f_equal. apply testClass_trim, punctuation_not_white.
Qed.

Lemma period_or_space_trimmed (value : string) :
  JS.testClassAtEnd isPeriodOrSpace (JS.trim value)
  = JS.testClassAtEnd isPeriod (JS.trim value).
Proof.
  rewrite (testClassAtEnd_ext isPeriodOrSpace (fun c => isPeriod c || isSpace c))
    by reflexivity.
  rewrite testClassAtEnd_or.
  destruct (JS.testClassAtEnd isSpace (JS.trim value)) eqn:E.
  - apply (testClassAtEnd_mono _ JS.isWhiteSpace) in E; [|apply space_is_white].
    rewrite trim_last in E. discriminate.
  - apply orb_false_r.
Qed.

Lemma validateScriptNameInput_rejects_iff (value ext : string) :
  validateScriptNameInput value ext <> None <-> nameRejected value ext.
Proof.
  unfold validateScriptNameInput, nameRejected. cbv zeta.
  rewrite (testClass_trim isSeparatorChar value separator_not_white).
  rewrite invalid_chars_trimmed, period_or_space_trimmed.
  set (t := JS.trim value).
  destruct (JS.truthy t) eqn:E1; simpl negb; cbv iota;
    [|apply truthy_false_iff in E1; split; [tauto | congruence]].
  apply truthy_true_iff in E1.
  destruct (String.eqb_spec t ".") as [E2|E2];
    [split; [tauto | simpl; congruence]|].
  destruct (String.eqb_spec t "..") as [E2'|E2'];
    [split; [tauto | simpl; congruence]|].
  simpl orb at 1. cbv iota.
  destruct (JS.testClass isSeparatorChar value) eqn:E3;
    [split; [tauto | congruence]|].
  assert (Hns : JS.testClass (Ascii.eqb Path.SLASH) t = false).
  { apply separator_free_no_slash. subst t.
    now rewrite (testClass_trim isSeparatorChar value separator_not_white). }
  rewrite (parseName_no_slash t Hns), (extname_no_slash t Hns).
  destruct (JS.testClass isReservedPunctuation value) eqn:E4;
    [split; [tauto | simpl; congruence]|].
  destruct (JS.testClass isControlChar t) eqn:E4';
    [split; [tauto | simpl; congruence]|].
  simpl orb. cbv iota.
  destruct (JS.testClassAtEnd isPeriod t) eqn:E5;
    [split; [tauto | congruence]|].
  destruct (String.eqb_spec (JS.toLowerCase t) (normalizeExtension ext)) as [E6|E6];
    [split; [tauto | congruence]|].
  destruct (bool_decide_reflect
              (JS.toLowerCase (nameSpec t) ∈ WINDOWS_RESERVED_BASENAMES))
    as [E7|E7]; [split; [tauto | congruence]|].
  destruct (JS.truthy (normalizeExtension (extSpec t))) eqn:E8.
  - apply truthy_true_iff in E8.
    destruct (String.eqb_spec (normalizeExtension (extSpec t))
                (normalizeExtension ext)) as [E9|E9]; simpl.
    + split; [congruence|]. intros [?|[[?|?]|[?|[[?|?]|[?|[?|[?|[? ?]]]]]]]];
        congruence.
    + split; [tauto | congruence].
  - apply truthy_false_iff in E8. simpl.
    split; [congruence|]. intros [?|[[?|?]|[?|[[?|?]|[?|[?|[?|[? ?]]]]]]]];
      congruence.
Qed.

Lemma validateScriptNameInput_trimmed (value ext : string) :
  validateScriptNameInput (JS.trim value) ext = validateScriptNameInput value ext.
Proof. unfold validateScriptNameInput. now rewrite trim_idempotent. Qed.

(** C8 (as amended).  [validateScriptNameInput] trims the name and then
    rejects exactly: the name that is empty after trimming; [.] and [..];
    names containing a slash or a backslash; names containing one of
    the reserved punctuation characters, or a control character 00-1F
    inside the trimmed name; names whose trimmed form ends in a period;
    a bare extension equal to the expected one; names whose basename (the
    name without its last extension) is a Windows-reserved name,
    case-insensitively; and names carrying an extension other than the
    expected one.  It accepts [my-script] and [my-script.ps1] against
    [.ps1]. *)
Theorem C8_validateScriptNameInput_rejects (value ext : string) :
  (validateScriptNameInput value ext <> None <-> nameRejected value ext)
  /\ validateScriptNameInput "my-script" ".ps1" = None
  /\ validateScriptNameInput "my-script.ps1" ".ps1" = None.
Proof.
  split; [apply validateScriptNameInput_rejects_iff|].
  split; vm_compute; reflexivity.
Qed.

(** C8, as stated, fails: a name ending in a space and a name containing
    a control character (here a leading TAB) are accepted, because the
    checks run on the trimmed name. *)
Lemma C8_trailing_space_accepted :
  JS.testClassAtEnd isPeriodOrSpace "my-script " = true
  /\ validateScriptNameInput "my-script " ".ps1" = None
  /\ JS.testClass isInvalidFilenameChar (String "009"%char "my-script") = true
  /\ validateScriptNameInput (String "009"%char "my-script") ".ps1" = None.
Proof. repeat split; vm_compute; reflexivity. Qed.

(** ** The command token and the availability probe *)

Lemma isCommandAvailable_probe (H : Host) (cmd : string) (w : World) :
  extractCommandToken cmd <> EmptyString ->
  isCommandAvailable H cmd w
  = (probeAnswer H (extractCommandToken cmd),
     logged (probeOf H (extractCommandToken cmd)) w).
Proof.
  intros Hne. unfold isCommandAvailable, probeAnswer, probeOf, logged, lookupTool.
  apply truthy_true_iff in Hne. rewrite Hne. simpl negb. cbv iota.
  destruct (pathIsAbsolute H (extractCommandToken cmd)); reflexivity.
Qed.

Lemma isCommandAvailable_empty (H : Host) (cmd : string) (w : World) :
  extractCommandToken cmd = EmptyString -> isCommandAvailable H cmd w = (false, w).
Proof. intros E. unfold isCommandAvailable. now rewrite E. Qed.

Lemma quote_not_white (q : ascii) :
  q = DQUOTE \/ q = SQUOTE -> JS.isWhiteSpace q = false.
Proof. intros [->| ->]; reflexivity. Qed.

Lemma starts_with_quote (q : ascii) (rest : string) :
  q = DQUOTE \/ q = SQUOTE ->
  JS.startsWith (String q rest) (String DQUOTE EmptyString)
  || JS.startsWith (String q rest) "'" = true.
Proof. intros [->| ->]; reflexivity. Qed.

(** When the closing quote is missing or comes right after the opening
    one, the quoted branch yields nothing. *)
Lemma quotedToken_none (q : ascii) (rest : string) :
  q = DQUOTE \/ q = SQUOTE ->
  JS.testClass (Ascii.eqb q) rest = false
  \/ JS.startsWith rest (String q EmptyString) = true ->
  quotedToken (String q rest) = None.
Proof.
  intros Hq Hrest. unfold quotedToken.
  rewrite starts_with_quote by assumption.
  rewrite indexOfChar_after_head.
  destruct Hrest as [Hno | Hnext].
  - apply (findIndexFrom_none _ _ 1) in Hno; [|lia]. now rewrite Hno.
  - assert (E : JS.findIndexFrom (Ascii.eqb q) rest 1 = 1).
    { apply findIndexFrom_head; [lia|].
      destruct rest as [|c r]; [discriminate|].
      exists c, r. split; [reflexivity|].
      simpl in Hnext. now rewrite andb_true_r in Hnext. }
    now rewrite E.
Qed.

(** C10.  When the trimmed command starts with a single or double quote
    that has no later occurrence, or whose next occurrence follows it
    immediately, [extractCommandToken] returns the text before the first
    white space, leading quote included, and [isCommandAvailable] probes
    for that literal token. *)
Theorem C10_unmatched_quote_kept (H : Host) (cmd rest : string) (q : ascii)
    (w : World) :
  q = DQUOTE \/ q = SQUOTE ->
  JS.trim cmd = String q rest ->
  JS.testClass (Ascii.eqb q) rest = false
  \/ JS.startsWith rest (String q EmptyString) = true ->
  extractCommandToken cmd = beforeWhiteSpace (JS.trim cmd)
  /\ (exists tail, extractCommandToken cmd = String q tail)
  /\ isCommandAvailable H cmd w
     = (probeAnswer H (extractCommandToken cmd),
        logged (probeOf H (extractCommandToken cmd)) w).
Proof.
  intros Hq Htrim Hrest.
  assert (Etok : extractCommandToken cmd = beforeWhiteSpace (JS.trim cmd)).
  { unfold extractCommandToken. rewrite Htrim. simpl JS.truthy. simpl negb. cbv iota.
    rewrite quotedToken_none by assumption. apply unquotedToken_spec. }
  assert (Ehead : exists tail, extractCommandToken cmd = String q tail).
  { rewrite Etok, Htrim. simpl. rewrite quote_not_white by assumption. eauto. }
  repeat split; [exact Etok | exact Ehead |].
  apply isCommandAvailable_probe. destruct Ehead as [tail ->]. discriminate.
Qed.

Lemma C10_unmatched_quote_kept_witness :
  extractCommandToken " 'unterminated arg" = "'unterminated"
  /\ isCommandAvailable posixHost " 'unterminated arg" initialWorld
     = (false, logged (ExecFile "which" "'unterminated") initialWorld).
Proof.
  destruct (C10_unmatched_quote_kept posixHost " 'unterminated arg" "unterminated arg"
              SQUOTE initialWorld) as (Htok & _ & Hprobe).
  - now right.
  - reflexivity.
  - now left.
  - split; [exact Htok | exact Hprobe].
Defined.

(** ** The command builder *)

Lemma replaceCharG_double (q : ascii) (s : string) :
  JS.replaceCharG q (String q (String q EmptyString)) s = doubleEach q s.
Proof.
  induction s as [|c r IH]; [reflexivity|].
  simpl. rewrite IH. destruct (Ascii.eqb_spec c q) as [->|]; reflexivity.
Qed.

Lemma replaceCharG_escape (s : string) :
  JS.replaceCharG SQUOTE "'\''" s = escapeSingleQuotes s.
Proof.
  induction s as [|c r IH]; [reflexivity|].
  simpl. rewrite IH. destruct (Ascii.eqb c SQUOTE); reflexivity.
Qed.

Lemma BUILTIN_BY_EXTENSION_lookup (H : Host) (ext : string) :
  BUILTIN_BY_EXTENSION H !! ext
  = List.find (fun d => String.eqb (extension d) ext) (BUILTIN_SCRIPT_DESCRIPTORS H).
Proof.
  unfold BUILTIN_BY_EXTENSION, BUILTIN_SCRIPT_DESCRIPTORS.
  cbn [fold_left List.find extension powershellDescriptor].
  repeat match goal with
  | |- context [String.eqb ?k ext] =>
      destruct (String.eqb_spec k ext) as [<-|?];
        [repeat (rewrite lookup_insert_ne by discriminate);
         now rewrite lookup_insert_eq|]
  end.
  repeat (rewrite lookup_insert_ne by assumption). apply lookup_empty.
Qed.

(** C3.  [quoteForCommandArgument] wraps its argument in double quotes
    with every embedded double quote doubled on [win32], and in single
    quotes with every embedded single quote replaced by the
    close-escape-reopen sequence elsewhere; the descriptor of [.ps1] puts
    [-NoProfile -ExecutionPolicy Bypass] before [-File] and the quoted
    script path. *)
Theorem C3_quoting_rule (H : Host) (value interpreter scriptPath : string) :
  (platform H = "win32" -> quoteForCommandArgument H value = windowsQuoting value)
  /\ (platform H <> "win32" -> quoteForCommandArgument H value = posixQuoting value)
  /\ (exists d, BUILTIN_BY_EXTENSION H !! ".ps1" = Some d
        /\ buildRunCommand d interpreter scriptPath
           = interpreter ++ " -NoProfile -ExecutionPolicy Bypass -File "
               ++ quoteForCommandArgument H scriptPath).
Proof.
  unfold quoteForCommandArgument, windowsQuoting, posixQuoting, wrapIn.
  repeat split.
  - intros ->. simpl. now rewrite replaceCharG_double.
  - intros Hne. destruct (String.eqb_spec (platform H) "win32"); [contradiction|].
    now rewrite replaceCharG_escape.
  - exists (powershellDescriptor H). split; [|reflexivity].
    now rewrite BUILTIN_BY_EXTENSION_lookup.
Qed.

Lemma C3_quoting_rule_witness :
  quoteForCommandArgument windowsHost (String DQUOTE "a b")
  = String DQUOTE (String DQUOTE (String DQUOTE ("a b" ++ String DQUOTE EmptyString)))
  /\ quoteForCommandArgument posixHost "it's" = "'it'\''s'".
Proof.
  split.
  - exact (proj1 (C3_quoting_rule windowsHost (String DQUOTE "a b") "pwsh" "x") eq_refl).
  - refine (proj1 (proj2 (C3_quoting_rule posixHost "it's" "pwsh" "x")) _).
    discriminate.
Defined.

Lemma shellWord_escaped (value : string) :
  shellWord true (escapeSingleQuotes value ++ "'") = Some value.
Proof.
  induction value as [|c r IH]; [reflexivity|].
  cbn [escapeSingleQuotes]. destruct (Ascii.eqb_spec c SQUOTE) as [->|Hne].
  - change (shellWord true ((closeEscapeReopen ++ escapeSingleQuotes r) ++ "'"))
      with (String SQUOTE <$> shellWord true (escapeSingleQuotes r ++ "'")).
    now rewrite IH.
  - apply Ascii.eqb_neq in Hne.
    change (shellWord true (String c (escapeSingleQuotes r) ++ "'"))
      with (if Ascii.eqb c SQUOTE
            then shellWord false (escapeSingleQuotes r ++ "'")
            else String c <$> shellWord true (escapeSingleQuotes r ++ "'")).
    now rewrite Hne, IH.
Qed.

(** On a POSIX platform the shell reads the quoted argument back as the
    script path, whatever characters it contains. *)
Lemma posix_quoting_roundtrip (H : Host) (value : string) :
  platform H <> "win32" ->
  shellWord false (quoteForCommandArgument H value) = Some value.
Proof.
  intros Hne. unfold quoteForCommandArgument.
  destruct (String.eqb_spec (platform H) "win32"); [contradiction|].
  rewrite replaceCharG_escape. simpl. apply shellWord_escaped.
Qed.

(** ** The run supervisor *)

Lemma deliver_settlementOf (runId : string) (sig : HostSignal) (s : Supervisor) :
  deliver runId sig s
  = match settlementOf runId sig with Some o => settle o s | None => s end.
Proof.
  destruct sig as [d code | d | | e]; simpl; try reflexivity;
    destruct (isForRun runId d); reflexivity.
Qed.

Lemma settle_settled (o : Settlement) (s : Supervisor) :
  settled s = true -> settle o s = s.
Proof. intros E. unfold settle. now rewrite E. Qed.

Lemma deliver_settled (runId : string) (sig : HostSignal) (s : Supervisor) :
  settled s = true -> deliver runId sig s = s.
Proof.
  intros E. rewrite deliver_settlementOf.
  destruct (settlementOf runId sig); [now apply settle_settled | reflexivity].
Qed.

(** Once settled, the supervisor ignores whatever is delivered. *)
Lemma deliver_all_settled (runId : string) (signals : list HostSignal)
    (s : Supervisor) :
  settled s = true -> fold_left (fun s sig => deliver runId sig s) signals s = s.
Proof.
  intros E. induction signals as [|sig rest IH]; [reflexivity|].
  simpl. now rewrite deliver_settled.
Qed.

Lemma supervise_spec (runId : string) (signals : list HostSignal) :
  supervise runId signals
  = match firstSettlement runId signals with
    | Some o => settledWith o
    | None => pendingSupervisor
    end.
Proof.
  unfold supervise.
  induction signals as [|sig rest IH]; [reflexivity|].
  cbn [fold_left firstSettlement]. rewrite deliver_settlementOf.
  destruct (settlementOf runId sig) as [o|]; [|exact IH].
  change (settle o pendingSupervisor) with (settledWith o).
  now rewrite deliver_all_settled.
Qed.

Lemma firstSettlement_app (runId : string) (signals later : list HostSignal)
    (o : Settlement) :
  firstSettlement runId signals = Some o ->
  firstSettlement runId (signals ++ later) = Some o.
Proof.
  induction signals as [|sig rest IH]; [discriminate|].
  cbn [firstSettlement app]. destruct (settlementOf runId sig); [trivial | exact IH].
Qed.

(** C1 (as amended).  For every run the supervisor settles at most once:
    the first signal that is a launch rejection, or whose task definition
    has type [quick-it] and carries the run's [runId] (the process-end
    signal or the generic end-of-task signal), settles the promise; every
    later or duplicate signal is ignored; both subscriptions are disposed
    exactly once, at settlement, whatever the order of the signals; and a
    launch rejection that comes before any such signal rejects the promise
    with that failure and disposes the subscriptions the same way. *)
Theorem C1_settles_at_most_once (runId : string) (signals later : list HostSignal) :
  let s := supervise runId signals in
  promiseOutcome s = firstSettlement runId signals
  /\ (length (settlements s) <= 1)%nat
  /\ endTaskSubscriptionDisposals s = (if settled s then 1 else 0)%nat
  /\ endTaskProcessSubscriptionDisposals s = (if settled s then 1 else 0)%nat
  /\ (settled s = true -> supervise runId (signals ++ later) = s)
  /\ (forall error,
        firstSettlement runId signals = None ->
        supervise runId (signals ++ LaunchRejected error :: later)
        = settledWith (Reject error)).
Proof.
  cbv zeta. rewrite supervise_spec.
  destruct (firstSettlement runId signals) as [o|] eqn:E.
  - repeat split; try reflexivity; simpl; try lia.
    + intros _. rewrite supervise_spec. now rewrite (firstSettlement_app _ _ _ _ E).
    + discriminate.
  - repeat split; try reflexivity; simpl; try lia; try discriminate.
    intros error _. rewrite supervise_spec.
    clear -E. induction signals as [|sig rest IH]; [reflexivity|].
    cbn [firstSettlement app] in *.
    destruct (settlementOf runId sig); [discriminate | now apply IH].
Qed.

(** C1, as stated, fails: a signal whose definition carries the run's
    [runId] under another task type does not resolve the promise; a later
    signal of the run itself does. *)
Lemma C1_other_type_ignored :
  let foreign :=
    DidEndTaskProcess (Some {| defType := Some "shell"; defRunId := Some "r1" |})
                      (Some 3) in
  let own := DidEndTask (Some {| defType := Some "quick-it"; defRunId := Some "r1" |}) in
  promiseOutcome (supervise "r1" [foreign]) = None
  /\ promiseOutcome (supervise "r1" [foreign; own]) = Some (Resolve None).
Proof. split; reflexivity. Qed.

(** ** Setting resolution *)

Lemma getQuickItSettingValue_spec (cfg : WorkspaceConfiguration) (key : string)
    (w : World) :
  getQuickItSettingValue cfg key w
  = (fst (getQuickItConfigurationValue cfg key),
     if snd (getQuickItConfigurationValue cfg key)
        && negb (hasShownWorkspaceConfigurationWarning w)
     then mkWorld (customInterpreters w) true (hasShownReadError w)
                  (effects w ++ [ShowWarningMessage WORKSPACE_WARNING])
     else w).
Proof.
  unfold getQuickItSettingValue.
  destruct (getQuickItConfigurationValue cfg key) as [value override].
  unfold bind, getWorkspaceWarningFlag. simpl.
  destruct override, (hasShownWorkspaceConfigurationWarning w); reflexivity.
Qed.

Lemma userLevel_value (cfg : WorkspaceConfiguration) (key : string)
    (i : ConfigurationInspect) :
  cfg key = Some i -> is_Some (globalValue i ?? defaultValue i) ->
  fst (getQuickItConfigurationValue cfg key)
  = normalizeOptionalString (globalValue i ?? defaultValue i).
Proof.
  intros E [v Hv]. unfold getQuickItConfigurationValue, cfgInspect. rewrite E.
  cbn [fst]. f_equal. now rewrite Hv.
Qed.



(** The settings the program reads are declared ones. *)
Lemma settingsRead_declared (H : Host) (key : string) :
  In key (settingsRead H) -> In key DECLARED_SETTINGS.
Proof.
  unfold settingsRead, BUILTIN_SCRIPT_DESCRIPTORS, DECLARED_SETTINGS.
  cbn [flat_map interpreterSetting powershellDescriptor app In].
  intuition.
Qed.

(** The settings key of a descriptor that [resolveDescriptorForUri]
    returns is one of those the program reads. *)
Lemma resolved_descriptor_setting (H : Host) (customs : gmap string CustomInterpreter)
    (file : string) (d : ScriptDescriptor) (key : string) :
  resolveDescriptorForUri H customs file = Some d ->
  interpreterSetting d = Some key -> In key (settingsRead H).
Proof.
  unfold resolveDescriptorForUri. rewrite BUILTIN_BY_EXTENSION_lookup.
  destruct (List.find _ (BUILTIN_SCRIPT_DESCRIPTORS H)) as [b|] eqn:Efind.
  - intros [= <-] Hkey. apply find_some in Efind as [Hin _].
    right. apply in_flat_map. exists b. split; [exact Hin|].
    rewrite Hkey. now left.
  - destruct (customs !! _); [|discriminate].
    intros [= <-]. discriminate.
Qed.




(** The fallback of [getQuickItConfigurationValue] to the effective value
    is met only by a key with neither a user-level value nor a default,
    which none of the declared settings is: for such a key the workspace
    layers would be read. *)
Example undeclared_key_reads_effective_value :
  let cfgA : WorkspaceConfiguration :=
    fun _ => Some (mkInspect None None (Some "/evil/ruby") None) in
  let cfgB : WorkspaceConfiguration :=
    fun _ => Some (mkInspect None None None None) in
  sameUserLevel cfgA cfgB
  /\ ~ declaresSettings cfgA
  /\ fst (getQuickItSettingValue cfgA "interpreters.ruby" initialWorld)
     = Some "/evil/ruby"
  /\ fst (getQuickItSettingValue cfgB "interpreters.ruby" initialWorld) = None.
Proof.
  repeat split; try reflexivity.
  intros Hd. destruct (Hd "scriptDirectory") as (i & Ei & Edef); [now left|].
  injection Ei as <-. discriminate.
Qed.

(** ** The registration API *)

Lemma find_extension_Some (l : list ScriptDescriptor) (ext : string) :
  is_Some (List.find (fun d => String.eqb (extension d) ext) l)
  <-> In ext (map extension l).
Proof.
  induction l as [|d l IH]; simpl.
  - split; [intros [? ?]; discriminate | contradiction].
  - destruct (String.eqb_spec (extension d) ext) as [E|E].
    + split; [now left | eauto].
    + rewrite IH. split; [now right | intros [?|?]; [contradiction | assumption]].
Qed.

Lemma builtin_has_iff (H : Host) (ext : string) :
  is_Some (BUILTIN_BY_EXTENSION H !! ext) <-> In ext (builtinExtensions H).
Proof. rewrite BUILTIN_BY_EXTENSION_lookup. apply find_extension_Some. Qed.

(** C6.  [registerInterpreter] throws exactly when the extension is empty
    after normalization, or the command is empty after trimming, or the
    normalized extension is a built-in one (whatever the command and
    label); when it throws, the session (registry and effect log) is
    unchanged; otherwise the entry is stored under the normalized
    extension and one view refresh is fired. *)
Theorem C6_registerInterpreter_validates (H : Host) (ext cmd : string)
    (lbl : option string) (w : World) :
  (invalidRegistration H ext cmd ->
   exists message, registerInterpreter H ext cmd lbl w = (inl message, w))
  /\ (~ invalidRegistration H ext cmd ->
      registerInterpreter H ext cmd lbl w
      = (inr (mkRegistration (normalizeExtension ext) (JS.trim cmd)),
         registered ext cmd lbl w)
      /\ customInterpreters (registered ext cmd lbl w) !! normalizeExtension ext
         = Some (mkCustom (JS.trim cmd) lbl)).
Proof.
  unfold invalidRegistration, registerInterpreter.
  destruct (JS.truthy (normalizeExtension ext)) eqn:E1; simpl negb; cbv iota.
  2:{ apply truthy_false_iff in E1. split; [eauto | tauto]. }
  apply truthy_true_iff in E1.
  destruct (JS.truthy (JS.trim cmd)) eqn:E2; simpl negb; cbv iota.
  2:{ apply truthy_false_iff in E2. split; [eauto | tauto]. }
  apply truthy_true_iff in E2.
  destruct (bool_decide_reflect
              (is_Some (BUILTIN_BY_EXTENSION H !! normalizeExtension ext))) as [E3|E3];
    rewrite builtin_has_iff in E3.
  - split; [eauto | tauto].
  - split; [intros [?|[?|?]]; contradiction|].
    intros _. split; [reflexivity|]. apply lookup_insert_eq.
Qed.

Lemma C6_registerInterpreter_validates_witness :
  (exists message,
     registerInterpreter posixHost " .PY" "python3" None initialWorld
     = (inl message, initialWorld))
  /\ customInterpreters (registered "Rb" " ruby " (Some "Ruby") initialWorld) !! ".rb"
     = Some (mkCustom "ruby" (Some "Ruby")).
Proof.
  split.
  - refine (proj1 (C6_registerInterpreter_validates posixHost " .PY" "python3" None
                     initialWorld) _).
    right. right. vm_compute. tauto.
  - refine (proj2 (proj2 (C6_registerInterpreter_validates posixHost "Rb" " ruby "
                            (Some "Ruby") initialWorld) _)).
    intros [E|[E|E]]; vm_compute in E; intuition discriminate.
Defined.

Lemma disposeRegistration_spec (r : Registration) (w : World) :
  (stillRegistered r w -> disposeRegistration r w = (tt, unregistered r w))
  /\ (~ stillRegistered r w -> disposeRegistration r w = (tt, w)).
Proof.
  unfold stillRegistered, disposeRegistration, bind, getCustomInterpreters.
  destruct (customInterpreters w !! registeredExtension r) as [current|] eqn:E.
  - destruct (String.eqb_spec (command current) (registeredCommand r)) as [Ec|Ec];
      simpl negb; cbv iota.
    + split; [reflexivity|]. intros Hn. exfalso. apply Hn. eauto.
    + split; [|reflexivity]. intros (c & Hc & Hcmd). congruence.
  - split; [|reflexivity]. intros (c & Hc & _). discriminate.
Qed.

Lemma unregistered_not_registered (r : Registration) (w : World) :
  ~ stillRegistered r (unregistered r w).
Proof.
  intros (c & Hc & _). simpl in Hc. rewrite lookup_delete_eq in Hc. discriminate.
Qed.

Lemma stillRegistered_dec (r : Registration) (w : World) :
  stillRegistered r w \/ ~ stillRegistered r w.
Proof.
  unfold stillRegistered.
  destruct (customInterpreters w !! registeredExtension r) as [current|].
  - destruct (String.eqb_spec (command current) (registeredCommand r)) as [Ec|Ec].
    + left. eauto.
    + right. intros (c & Hc & Hcmd). congruence.
  - right. intros (c & Hc & _). discriminate.
Qed.

(** C7.  Disposing a registration removes the entry of its extension
    exactly when the stored entry's command is the one registered through
    the handle, and then fires one refresh; when the entry is absent or
    carries another command, disposal changes nothing and fires nothing,
    so a newer entry survives; a second disposal changes nothing. *)
Theorem C7_disposal_guarded (r : Registration) (w : World) :
  (stillRegistered r w ->
   disposeRegistration r w = (tt, unregistered r w)
   /\ customInterpreters (unregistered r w) !! registeredExtension r = None)
  /\ (~ stillRegistered r w -> disposeRegistration r w = (tt, w))
  /\ disposeRegistration r (snd (disposeRegistration r w))
     = (tt, snd (disposeRegistration r w)).
Proof.
  destruct (disposeRegistration_spec r w) as [Hyes Hno].
  split; [|split]; [| exact Hno |].
  - intros Hs. split; [now apply Hyes | apply lookup_delete_eq].
  - destruct (stillRegistered_dec r w) as [Hs|Hs].
    + rewrite (Hyes Hs). cbn [snd].
      apply disposeRegistration_spec, unregistered_not_registered.
    + rewrite (Hno Hs). cbn [snd]. now apply Hno.
Qed.

Lemma C7_disposal_guarded_witness :
  disposeRegistration (mkRegistration ".rb" "ruby") reRegistered = (tt, reRegistered)
  /\ disposeRegistration (mkRegistration ".rb" "jruby") reRegistered
     = (tt, unregistered (mkRegistration ".rb" "jruby") reRegistered).
Proof.
  split.
  - refine (proj1 (proj2 (C7_disposal_guarded (mkRegistration ".rb" "ruby")
                            reRegistered)) _).
    intros (current & Hc & Hcmd). vm_compute in Hc. injection Hc as <-. discriminate.
  - refine (proj1 (proj1 (C7_disposal_guarded (mkRegistration ".rb" "jruby")
                            reRegistered) _)).
    exists (mkCustom "jruby" None). split; reflexivity.
Defined.

(** ** The tree provider's read-failure message *)

Lemma getChildren_world (H : Host) (resolveDescriptor : string -> option ScriptDescriptor)
    (element : option ScriptItem) (read : DirectoryRead) (w : World) :
  snd (getChildren H resolveDescriptor element read w)
  = match element, read with
    | Some _, _ => w
    | None, ReadGives _ _ =>
        mkWorld (customInterpreters w) (hasShownWorkspaceConfigurationWarning w)
                false (effects w)
    | None, ReadFails error =>
        if hasShownReadError w then w
        else mkWorld (customInterpreters w) (hasShownWorkspaceConfigurationWarning w)
                     true (effects w ++ [READ_ERROR error])
    end.
Proof.
  destruct element as [item|]; [reflexivity|].
  destruct read as [error | dir entries]; [|reflexivity].
  unfold getChildren, bind, getReadErrorFlag. simpl.
  destruct (hasShownReadError w); reflexivity.
Qed.

Lemma getChildrenAll_cons (H : Host) (resolveDescriptor : string -> option ScriptDescriptor)
    (element : option ScriptItem) (read : DirectoryRead) (rest : list Call)
    (w : World) :
  snd (getChildrenAll H resolveDescriptor ((element, read) :: rest) w)
  = snd (getChildrenAll H resolveDescriptor rest
           (snd (getChildren H resolveDescriptor element read w))).
Proof.
  cbn [getChildrenAll]. unfold bind.
  now destruct (getChildren H resolveDescriptor element read w).
Qed.

Lemma getChildrenAll_effects (H : Host)
    (resolveDescriptor : string -> option ScriptDescriptor) (calls : list Call)
    (w : World) :
  effects (snd (getChildrenAll H resolveDescriptor calls w))
  = (effects w ++ readErrorsShown (hasShownReadError w) calls)%list
  /\ hasShownReadError (snd (getChildrenAll H resolveDescriptor calls w))
     = fold_left (fun shown c =>
                    match c with
                    | (Some _, _) => shown
                    | (None, ReadGives _ _) => false
                    | (None, ReadFails _) => true
                    end) calls (hasShownReadError w).
Proof.
  revert w. induction calls as [|[element read] rest IH]; intros w.
  - simpl. now rewrite app_nil_r.
  - rewrite getChildrenAll_cons, getChildren_world.
    destruct element as [item|]; [apply IH|].
    destruct read as [error | dir entries].
    + destruct (hasShownReadError w) eqn:Ew.
      * destruct (IH w) as [-> ->]. cbn [readErrorsShown fold_left].
        rewrite Ew. split; reflexivity.
      * match goal with |- context [getChildrenAll _ _ rest ?w0] =>
          destruct (IH w0) as [-> ->] end.
        cbn [readErrorsShown fold_left effects hasShownReadError].
        rewrite <- app_assoc. split; reflexivity.
    + match goal with |- context [getChildrenAll _ _ rest ?w0] =>
        destruct (IH w0) as [-> ->] end.
      split; reflexivity.
Qed.

Lemma readErrorsShown_quiet (calls : list Call) :
  existsb readSucceeds calls = false -> readErrorsShown true calls = [].
Proof.
  induction calls as [|[[item|] [error | dir entries]] rest IH]; simpl; auto.
  discriminate.
Qed.

(** C9 (as amended).  The read-failure message is guarded by a flag that
    a failing root call sets and every successful read clears: over any
    sequence of [getChildren] calls on one provider, a failing call shows
    the message only if no failing call has shown it since the last
    successful read.  So once the message has been shown, later failing
    calls do not show it again as long as no read succeeds in between. *)
Theorem C9_read_error_once_per_failure_run (H : Host)
    (resolveDescriptor : string -> option ScriptDescriptor) (calls : list Call)
    (w : World) :
  effects (snd (getChildrenAll H resolveDescriptor calls w))
  = (effects w ++ readErrorsShown (hasShownReadError w) calls)%list
  /\ (hasShownReadError w = true -> existsb readSucceeds calls = false ->
      effects (snd (getChildrenAll H resolveDescriptor calls w)) = effects w).
Proof.
  destruct (getChildrenAll_effects H resolveDescriptor calls w) as [He _].
  split; [exact He|].
  intros Hw Hquiet. rewrite He, Hw, readErrorsShown_quiet by assumption.
  apply app_nil_r.
Qed.

Lemma C9_read_error_once_per_failure_run_witness :
  effects (snd (getChildrenAll posixHost (fun _ => None)
                  [(None, ReadFails "EACCES"); (None, ReadFails "EACCES")]
                  (snd (getChildren posixHost (fun _ => None) None (ReadFails "EACCES")
                          initialWorld))))
  = [READ_ERROR "EACCES"].
Proof.
  refine (proj2 (C9_read_error_once_per_failure_run posixHost (fun _ => None)
                   [(None, ReadFails "EACCES"); (None, ReadFails "EACCES")]
                   (snd (getChildren posixHost (fun _ => None) None (ReadFails "EACCES")
                           initialWorld))) _ _); reflexivity.
Defined.

(** C9, as stated, fails: after a successful read the next failure shows
    the message again, on the same provider. *)
Lemma C9_message_shown_again_after_success :
  effects (snd (getChildrenAll posixHost (fun _ => None)
                  [(None, ReadFails "EACCES"); (None, ReadGives "/scripts" []);
                   (None, ReadFails "EACCES")]
                  initialWorld))
  = [READ_ERROR "EACCES"; READ_ERROR "EACCES"].
Proof. reflexivity. Qed.

(** ** Interpreter resolution and the run command *)

Lemma appended_nil (w : World) : appended [] w = w.
Proof. destruct w. unfold appended. simpl. now rewrite app_nil_r. Qed.

Lemma appended_app (l1 l2 : list Effect) (w : World) :
  appended l2 (appended l1 w) = appended (l1 ++ l2) w.
Proof. unfold appended. simpl. now rewrite app_assoc. Qed.

Lemma isCommandAvailable_spec (H : Host) (cmd : string) (w : World) :
  isCommandAvailable H cmd w = (availableOn H cmd, appended (probesFor H cmd) w).
Proof.
  unfold availableOn, probesFor.
  destruct (JS.truthy (extractCommandToken cmd)) eqn:E.
  - apply truthy_true_iff in E. rewrite isCommandAvailable_probe by assumption.
    reflexivity.
  - apply truthy_false_iff in E. rewrite isCommandAvailable_empty by assumption.
    now rewrite appended_nil.
Qed.

Lemma firstAvailable_spec (H : Host) (candidates : list string) (w : World) :
  firstAvailable H candidates w
  = (List.find (availableOn H) candidates,
     appended (probesUntilAvailable H candidates) w).
Proof.
  revert w. induction candidates as [|c rest IH]; intros w.
  - simpl. now rewrite appended_nil.
  - cbn [firstAvailable List.find probesUntilAvailable]. unfold bind.
    rewrite isCommandAvailable_spec.
    destruct (availableOn H c).
    + now rewrite app_nil_r.
    + now rewrite IH, appended_app.
Qed.

Lemma normalizeOptionalString_truthy (value : option string) (v : string) :
  normalizeOptionalString value = Some v -> JS.truthy v = true.
Proof.
  unfold normalizeOptionalString.
  destruct (JS.truthyOpt (JS.trim <$> value)) eqn:E; [|discriminate].
  intros Ev. rewrite Ev in E. exact E.
Qed.

Lemma configured_truthy (cfg : WorkspaceConfiguration) (key v : string) :
  fst (getQuickItConfigurationValue cfg key) = Some v -> JS.truthy v = true.
Proof.
  unfold getQuickItConfigurationValue.
  destruct (cfgInspect cfg key); cbn [fst]; apply normalizeOptionalString_truthy.
Qed.

Lemma resolveInterpreterCommand_spec (H : Host) (cfg : WorkspaceConfiguration)
    (d : ScriptDescriptor) (w : World) :
  resolveInterpreterCommand H cfg d w
  = match configuredInterpreter cfg d with
    | Some v => (Some v, afterSettingRead cfg d w)
    | None =>
        (List.find (availableOn H) (getDefaultInterpreters d),
         appended (probesUntilAvailable H (getDefaultInterpreters d))
                  (afterSettingRead cfg d w))
    end.
Proof.
  unfold resolveInterpreterCommand, configuredInterpreter, afterSettingRead, bind.
  destruct (JS.truthyOpt (interpreterSetting d)).
  - rewrite getQuickItSettingValue_spec. cbn [fst snd].
    destruct (fst (getQuickItConfigurationValue cfg
                     (default EmptyString (interpreterSetting d)))) as [v|] eqn:E.
    + apply configured_truthy in E. cbn [JS.truthyOpt]. now rewrite E.
    + cbn [JS.truthyOpt]. apply firstAvailable_spec.
  - unfold ret. cbn [JS.truthyOpt]. apply firstAvailable_spec.
Qed.

Lemma afterSettingRead_effects (cfg : WorkspaceConfiguration) (d : ScriptDescriptor)
    (w : World) :
  effects (afterSettingRead cfg d w) = effects w
  \/ effects (afterSettingRead cfg d w)
     = (effects w ++ [ShowWarningMessage WORKSPACE_WARNING])%list.
Proof.
  unfold afterSettingRead. destruct (JS.truthyOpt (interpreterSetting d)); [|now left].
  rewrite getQuickItSettingValue_spec. cbn [snd].
  destruct (_ && _); [now right | now left].
Qed.

Lemma probesUntilAvailable_probes (H : Host) (candidates : list string) :
  List.filter isLaunch (probesUntilAvailable H candidates) = []
  /\ List.filter isProbe (probesUntilAvailable H candidates)
     = probesUntilAvailable H candidates.
Proof.
  induction candidates as [|c rest [IHl IHp]]; [split; reflexivity|].
  cbn [probesUntilAvailable]. rewrite !List.filter_app.
  assert (Hc : List.filter isLaunch (probesFor H c) = []
               /\ List.filter isProbe (probesFor H c) = probesFor H c).
  { unfold probesFor, probeOf.
    destruct (JS.truthy _); [|split; reflexivity].
    destruct (pathIsAbsolute H _); split; reflexivity. }
  destruct Hc as [-> ->].
  destruct (availableOn H c); [split; reflexivity|].
  now rewrite IHl, IHp.
Qed.

Lemma afterSettingRead_filters (cfg : WorkspaceConfiguration) (d : ScriptDescriptor)
    (w : World) :
  List.filter isProbe (effects (afterSettingRead cfg d w)) = List.filter isProbe (effects w)
  /\ List.filter isLaunch (effects (afterSettingRead cfg d w))
     = List.filter isLaunch (effects w).
Proof.
  destruct (afterSettingRead_effects cfg d w) as [-> | ->]; [split; reflexivity|].
  rewrite !List.filter_app. simpl. now rewrite !app_nil_r.
Qed.

Lemma configuredInterpreter_user_level (cfg : WorkspaceConfiguration)
    (d : ScriptDescriptor) (key g : string) (i : ConfigurationInspect) :
  interpreterSetting d = Some key -> key <> EmptyString ->
  cfg key = Some i -> globalValue i = Some g -> JS.trim g <> EmptyString ->
  configuredInterpreter cfg d = Some (JS.trim g).
Proof.
  intros Hkey Hne Hi Hg Hg'. unfold configuredInterpreter. rewrite Hkey.
  cbn [JS.truthyOpt default]. apply truthy_true_iff in Hne. rewrite Hne.
  cbn [from_option id].
  unfold getQuickItConfigurationValue, cfgInspect. rewrite Hi. cbn [fst].
  rewrite Hg. cbn [nullish]. unfold normalizeOptionalString. cbn [fmap option_fmap option_map].
  cbn [JS.truthyOpt]. apply truthy_true_iff in Hg'. now rewrite Hg'.
Qed.

(** With a default that is empty after trimming, the value read for the
    descriptor's key is the user-level one. *)
Lemma configuredInterpreter_blank_default (cfg : WorkspaceConfiguration)
    (d : ScriptDescriptor) :
  settingDefaultBlank cfg d -> configuredInterpreter cfg d = userLevelInterpreter cfg d.
Proof.
  intros Hblank. unfold configuredInterpreter, userLevelInterpreter.
  destruct (interpreterSetting d) as [key|] eqn:Ekey; [|reflexivity].
  cbn [JS.truthyOpt default from_option id].
  destruct (JS.truthy key) eqn:Et; [|reflexivity].
  destruct (Hblank key Ekey Et) as (i & dv & Ei & Edef & Edv).
  unfold getQuickItConfigurationValue, cfgInspect. rewrite Ei. cbn [fst].
  destruct (globalValue i) as [g|]; cbn [nullish].
  - unfold normalizeOptionalString. cbn [fmap option_fmap option_map JS.truthyOpt].
    reflexivity.
  - rewrite Edef. cbn [nullish]. unfold normalizeOptionalString.
    cbn [fmap option_fmap option_map JS.truthyOpt]. now rewrite Edv.
Qed.

(** C2.  [resolveInterpreterCommand] follows the specified order, for
    every descriptor whose settings key (if it names one) has a default
    that is empty after trimming, as the declared settings have: when the
    descriptor names a settings key whose user-level value is non-empty
    after trimming, that value is returned at once and no candidate is
    probed; otherwise (no key, no user-level value, or a blank one) the
    default candidates are probed in list order and the first one that
    passes the availability test is returned, or none; and when the result
    is none, [runScriptCommand] reports that no interpreter was found and
    launches nothing. *)
Theorem C2_resolution_order (H : Host) (cfg : WorkspaceConfiguration)
    (item : ScriptItem) (runId : string) (signals : list HostSignal) (w : World) :
  let d := descriptor item in
  let w1 := afterSettingRead cfg d w in
  settingDefaultBlank cfg d ->
  resolveInterpreterCommand H cfg d w
  = match userLevelInterpreter cfg d with
    | Some v => (Some v, w1)
    | None =>
        (List.find (availableOn H) (getDefaultInterpreters d),
         appended (probesUntilAvailable H (getDefaultInterpreters d)) w1)
    end
  /\ List.filter isProbe (effects w1) = List.filter isProbe (effects w)
  /\ (forall v, userLevelInterpreter cfg d = Some v -> v <> EmptyString)
  /\ (forall key i g,
        interpreterSetting d = Some key -> key <> EmptyString ->
        cfg key = Some i -> globalValue i = Some g -> JS.trim g <> EmptyString ->
        userLevelInterpreter cfg d = Some (JS.trim g))
  /\ (userLevelInterpreter cfg d = None
      <-> forall key i g,
            interpreterSetting d = Some key -> key <> EmptyString ->
            cfg key = Some i -> globalValue i = Some g -> JS.trim g = EmptyString)
  /\ (fst (resolveInterpreterCommand H cfg d w) = None ->
      effects (snd (runScriptCommand H cfg (Some item) runId signals w))
      = (effects (snd (resolveInterpreterCommand H cfg d w))
         ++ [ShowErrorMessage
               ("No interpreter found for " ++ label d
                ++ ". Configure one in QuickIt settings.")])%list
      /\ List.filter isLaunch
           (effects (snd (runScriptCommand H cfg (Some item) runId signals w)))
         = List.filter isLaunch (effects w)).
Proof.
  cbv zeta. intros Hblank. split; [|split; [|split; [|split; [|split]]]].
  - rewrite resolveInterpreterCommand_spec.
    now rewrite (configuredInterpreter_blank_default cfg (descriptor item) Hblank).
  - apply afterSettingRead_filters.
  - intros v Hv ->. unfold userLevelInterpreter in Hv.
    destruct (interpreterSetting (descriptor item)) as [key|]; [|discriminate].
    destruct (JS.truthy key); [|discriminate].
    destruct (cfg key) as [i|]; [|discriminate].
    destruct (globalValue i) as [g|]; [|discriminate].
    destruct (JS.truthy (JS.trim g)) eqn:Et; [|discriminate].
    injection Hv as Hv. rewrite Hv in Et. discriminate.
  - intros key i g Hkey Hne Hi Hg Hg'. unfold userLevelInterpreter.
    rewrite Hkey. apply truthy_true_iff in Hne. rewrite Hne, Hi, Hg.
    apply truthy_true_iff in Hg'. now rewrite Hg'.
  - unfold userLevelInterpreter. split.
    + intros Hnone key i g Hkey Hne Hi Hg. rewrite Hkey in Hnone.
      apply truthy_true_iff in Hne. rewrite Hne, Hi, Hg in Hnone.
      destruct (JS.trim g); [reflexivity | discriminate].
    + intros Hall.
      destruct (interpreterSetting (descriptor item)) as [key|]; [|reflexivity].
      destruct (JS.truthy key) eqn:Et; [|reflexivity].
      destruct (cfg key) as [i|] eqn:Ei; [|reflexivity].
      destruct (globalValue i) as [g|] eqn:Eg; [|reflexivity].
      apply truthy_true_iff in Et.
      now rewrite (Hall key i g eq_refl Et Ei Eg).
  - intros Hnone. split.
    + unfold runScriptCommand, bind.
      destruct (resolveInterpreterCommand H cfg (descriptor item) w) as [r w2].
      cbn [fst snd] in *. subst r. reflexivity.
    + unfold runScriptCommand, bind.
      rewrite resolveInterpreterCommand_spec in *.
      destruct (configuredInterpreter cfg (descriptor item)); [discriminate|].
      cbn [fst snd] in *. rewrite Hnone. cbn [JS.truthyOpt negb].
      cbn [emit snd effects appended].
      rewrite !List.filter_app.
      rewrite (proj1 (probesUntilAvailable_probes H _)).
      rewrite (proj2 (afterSettingRead_filters cfg (descriptor item) w)).
      simpl. now rewrite !app_nil_r.
Qed.

(** Under the declared settings, every descriptor the program resolves
    meets the condition on the default. *)
Lemma resolved_descriptor_default_blank (H : Host) (cfg : WorkspaceConfiguration)
    (customs : gmap string CustomInterpreter) (file : string) (d : ScriptDescriptor) :
  declaresSettings cfg -> resolveDescriptorForUri H customs file = Some d ->
  settingDefaultBlank cfg d.
Proof.
  intros Hdecl Hres key Hkey _.
  pose proof (resolved_descriptor_setting H customs file d key Hres Hkey) as Hin.
  destruct (Hdecl key (settingsRead_declared H key Hin)) as (i & Ei & Edef).
  exists i, EmptyString. repeat split; assumption.
Qed.

Lemma C2_resolution_order_witness :
  resolveInterpreterCommand posixHost (userConfiguration None)
    (pythonDescriptor posixHost) initialWorld
  = (Some "/usr/bin/python3 -u", initialWorld)
  /\ resolveInterpreterCommand posixHost defaultConfiguration
       (pythonDescriptor posixHost) initialWorld
     = (Some "python", appended [ExecFile "which" "python"] initialWorld).
Proof.
  split.
  - refine (proj1 (C2_resolution_order posixHost (userConfiguration None) helloItem
                     "r1" [] initialWorld _)).
    apply (resolved_descriptor_default_blank posixHost _ ∅ "/home/u/scripts/hello.py").
    + intros key _. unfold userConfiguration.
      destruct (String.eqb key "interpreters.python"); eexists; split; reflexivity.
    + reflexivity.
  - refine (proj1 (C2_resolution_order posixHost defaultConfiguration helloItem
                     "r1" [] initialWorld _)).
    apply (resolved_descriptor_default_blank posixHost _ ∅ "/home/u/scripts/hello.py").
    + intros key _. eexists. split; reflexivity.
    + reflexivity.
Defined.

Lemma runScriptCommand_launched (H : Host) (cfg : WorkspaceConfiguration)
    (item : ScriptItem) (runId : string) (signals : list HostSignal) (w : World)
    (interpreter : string) :
  fst (resolveInterpreterCommand H cfg (descriptor item) w) = Some interpreter ->
  availableOn H interpreter = true ->
  let scriptName := pathBasename H (fsPath item) in
  let launch :=
    [ ShowInformationMessage ("QuickIt: Executing " ++ quoted scriptName ++ "...");
      ExecuteTask "quick-it" runId ("QuickIt: " ++ scriptName)
        (buildRunCommand (descriptor item) interpreter (fsPath item)) ] in
  effects (snd (runScriptCommand H cfg (Some item) runId signals w))
  = (effects (snd (resolveInterpreterCommand H cfg (descriptor item) w))
     ++ probesFor H interpreter ++ launch
     ++ match promiseOutcome (supervise runId signals) with
        | Some o => [outcomeNotification scriptName o]
        | None => []
        end)%list.
Proof.
  intros Hres Hav. cbv zeta. unfold runScriptCommand, bind.
  destruct (resolveInterpreterCommand H cfg (descriptor item) w) as [r w1].
  cbn [fst snd] in *. subst r.
  assert (Ht : JS.truthy interpreter = true).
  { destruct interpreter; [discriminate Hav | reflexivity]. }
  cbn [JS.truthyOpt default from_option id]. rewrite Ht. cbn [negb].
  rewrite isCommandAvailable_spec, Hav. cbn [negb].
  unfold executeQuickItTask, bind, ret, emit, appended. cbn [fst snd effects].
  destruct (promiseOutcome (supervise runId signals)) as [[[code|] | error]|];
    cbn [outcomeNotification notifyQuickItError].
  - destruct (Z.eqb_spec code 0) as [->|Hne].
    + rewrite (bool_decide_eq_true_2 (Some 0 = Some 0)) by reflexivity.
      rewrite orb_true_r. cbn [snd effects]. rewrite <- !app_assoc; reflexivity.
    + rewrite (bool_decide_eq_false_2 (Some code = None)) by discriminate.
      rewrite (bool_decide_eq_false_2 (Some code = Some 0)) by congruence.
      cbn [orb snd effects default from_option id]. rewrite <- !app_assoc; reflexivity.
  - rewrite (bool_decide_eq_true_2 (None = None)) by reflexivity.
    cbn [orb snd effects]. rewrite <- !app_assoc; reflexivity.
  - unfold notifyQuickItError, emit. cbn [snd effects].
    rewrite <- !app_assoc; reflexivity.
  - cbn [snd effects]. rewrite <- !app_assoc, app_nil_r; reflexivity.
Qed.

(** The first signal that gets past its guard while the promise is
    pending settles it. *)
Lemma supervise_pending_then (runId : string) (before later : list HostSignal)
    (sig : HostSignal) (o : Settlement) :
  settled (supervise runId before) = false ->
  settlementOf runId sig = Some o ->
  promiseOutcome (supervise runId (before ++ sig :: later)) = Some o.
Proof.
  intros Hpending Hsig. rewrite supervise_spec in Hpending. rewrite supervise_spec.
  destruct (firstSettlement runId before) as [o'|] eqn:Ebefore; [discriminate|].
  clear Hpending.
  assert (E : firstSettlement runId (before ++ sig :: later) = Some o).
  { induction before as [|s0 rest IH].
    - cbn [app firstSettlement]. now rewrite Hsig.
    - cbn [app firstSettlement] in *.
      destruct (settlementOf runId s0); [discriminate | now apply IH]. }
  now rewrite E.
Qed.

(** C4.  For every run that was launched, the notification that ends the
    command follows the signal that completes the run, that is the first
    one the supervisor does not ignore ([before] leaves the promise
    pending): the process-end signal of the run with exit code 0 or
    without exit code, and the generic end-of-task signal of the run, which
    carries no code, give the success message; the process-end signal with
    a nonzero code gives the warning that names the code; a rejected launch
    gives the error message with the failure. *)
Theorem C4_outcome_notification (H : Host) (cfg : WorkspaceConfiguration)
    (item : ScriptItem) (runId : string) (before later : list HostSignal) (w : World)
    (interpreter : string) :
  fst (resolveInterpreterCommand H cfg (descriptor item) w) = Some interpreter ->
  availableOn H interpreter = true ->
  settled (supervise runId before) = false ->
  let scriptName := pathBasename H (fsPath item) in
  let notification completing :=
    last (effects (snd (runScriptCommand H cfg (Some item) runId
                          (before ++ completing :: later) w))) in
  let success :=
    ShowInformationMessage ("QuickIt: Finished " ++ quoted scriptName ++ ".") in
  (forall definition,
     isForRun runId definition = true ->
     notification (DidEndTaskProcess definition (Some 0)) = Some success
     /\ notification (DidEndTaskProcess definition None) = Some success
     /\ notification (DidEndTask definition) = Some success
     /\ (forall code,
           code <> 0 ->
           notification (DidEndTaskProcess definition (Some code))
           = Some (ShowWarningMessage
                     ("QuickIt: Finished " ++ quoted scriptName ++ " (exit code "
                      ++ JS.ofInt code ++ ")."))))
  /\ (forall error,
        notification (LaunchRejected error)
        = Some (ShowErrorMessage
                  ("QuickIt failed to run the selected script: " ++ error))).
Proof.
  intros Hres Hav Hpending. cbv zeta.
  assert (Hlast : forall completing o,
            settlementOf runId completing = Some o ->
            last (effects (snd (runScriptCommand H cfg (Some item) runId
                                  (before ++ completing :: later) w)))
            = Some (outcomeNotification (pathBasename H (fsPath item)) o)).
  { intros completing o Hsig.
    rewrite (runScriptCommand_launched H cfg item runId _ w interpreter Hres Hav).
    rewrite (supervise_pending_then runId before later completing o Hpending Hsig).
    rewrite !app_assoc. apply last_snoc. }
  split.
  - intros definition Hfor.
    assert (Hprocess : forall exitCode,
              settlementOf runId (DidEndTaskProcess definition exitCode)
              = Some (Resolve exitCode))
      by (intros exitCode; cbn [settlementOf]; now rewrite Hfor).
    assert (Hend : settlementOf runId (DidEndTask definition) = Some (Resolve None))
      by (cbn [settlementOf]; now rewrite Hfor).
    split; [|split; [|split]].
    + now rewrite (Hlast _ _ (Hprocess (Some 0))).
    + now rewrite (Hlast _ _ (Hprocess None)).
    + now rewrite (Hlast _ _ Hend).
    + intros code Hne. rewrite (Hlast _ _ (Hprocess (Some code))).
      cbn [outcomeNotification]. now destruct (Z.eqb_spec code 0).
  - intros error. now rewrite (Hlast (LaunchRejected error) (Reject error) eq_refl).
Qed.

Lemma C4_outcome_notification_witness :
  last (effects (snd (runScriptCommand posixHost defaultConfiguration (Some helloItem)
                        "r1"
                        [LaunchFulfilled;
                         DidEndTaskProcess (ownDefinition "r0") (Some 1);
                         DidEndTaskProcess (ownDefinition "r1") (Some 2);
                         DidEndTask (ownDefinition "r1")]
                        initialWorld)))
  = Some (ShowWarningMessage
            ("QuickIt: Finished " ++ quoted "hello.py" ++ " (exit code 2)."))
  /\ last (effects (snd (runScriptCommand posixHost defaultConfiguration
                           (Some helloItem) "r1"
                           [LaunchRejected "spawn ENOENT";
                            DidEndTask (ownDefinition "r1")]
                           initialWorld)))
     = Some (ShowErrorMessage
               "QuickIt failed to run the selected script: spawn ENOENT").
Proof.
  split.
  - destruct (C4_outcome_notification posixHost defaultConfiguration helloItem "r1"
                [LaunchFulfilled; DidEndTaskProcess (ownDefinition "r0") (Some 1)]
                [DidEndTask (ownDefinition "r1")] initialWorld "python")
      as [Hended _]; [vm_compute; reflexivity | vm_compute; reflexivity | reflexivity |].
    destruct (Hended (ownDefinition "r1") eq_refl) as (_ & _ & _ & Hcode).
    exact (Hcode 2 ltac:(discriminate)).
  - destruct (C4_outcome_notification posixHost defaultConfiguration helloItem "r1"
                [] [DidEndTask (ownDefinition "r1")] initialWorld "python")
      as [_ Hrejected]; [vm_compute; reflexivity | vm_compute; reflexivity | reflexivity |].
    exact (Hrejected "spawn ENOENT").
Defined.

(** * The rest of [extension.ts]: properties *)

(** ** Extension normalization *)

Lemma lowerChar_idempotent (c : ascii) : JS.lowerChar (JS.lowerChar c) = JS.lowerChar c.
Proof. destruct c as [[] [] [] [] [] [] [] []]; reflexivity. Qed.

Lemma lowerChar_white (c : ascii) : JS.isWhiteSpace (JS.lowerChar c) = JS.isWhiteSpace c.
Proof. destruct c as [[] [] [] [] [] [] [] []]; reflexivity. Qed.

Lemma lowerChar_dot (c : ascii) : Ascii.eqb (JS.lowerChar c) "." = Ascii.eqb c ".".
Proof. destruct c as [[] [] [] [] [] [] [] []]; reflexivity. Qed.

Lemma toLowerCase_idempotent (s : string) :
  JS.toLowerCase (JS.toLowerCase s) = JS.toLowerCase s.
Proof.
  induction s as [|c r IH]; [reflexivity|].
  simpl. now rewrite lowerChar_idempotent, IH.
Qed.

Lemma toLowerCase_empty (s : string) :
  JS.toLowerCase s = EmptyString <-> s = EmptyString.
Proof. destruct s; simpl; split; congruence. Qed.

Lemma toLowerCase_trimStart (s : string) :
  JS.trimStart (JS.toLowerCase s) = JS.toLowerCase (JS.trimStart s).
Proof.
  induction s as [|c r IH]; [reflexivity|].
  simpl. rewrite lowerChar_white. now destruct (JS.isWhiteSpace c).
Qed.

Lemma toLowerCase_trimEnd (s : string) :
  JS.trimEnd (JS.toLowerCase s) = JS.toLowerCase (JS.trimEnd s).
Proof.
  induction s as [|c r IH]; [reflexivity|].
  simpl. rewrite IH, lowerChar_white.
  destruct (JS.trimEnd r); simpl; [now destruct (JS.isWhiteSpace c) | reflexivity].
Qed.

(** Trimming and lower-casing commute. *)
Lemma toLowerCase_trim (s : string) :
  JS.trim (JS.toLowerCase s) = JS.toLowerCase (JS.trim s).
Proof. unfold JS.trim. now rewrite toLowerCase_trimStart, toLowerCase_trimEnd. Qed.

Lemma trim_cons_period (v : string) :
  JS.trim v = v -> JS.trim (String "." v) = String "." v.
Proof.
  intros Hv. unfold JS.trim. rewrite trimStart_fixed by reflexivity.
  rewrite trimEnd_cons_keep by reflexivity. f_equal.
  rewrite <- Hv at 2. unfold JS.trim.
  destruct (trimStart_head v) as [E | (c & r & E & Hc)].
  - rewrite E. unfold JS.trim in Hv. rewrite E in Hv. simpl in Hv. now subst v.
  - assert (Hvv : JS.trimStart v = v).
    { unfold JS.trim in Hv. rewrite E in Hv.
      rewrite trimEnd_cons_keep in Hv by assumption.
      rewrite <- Hv. now apply trimStart_fixed. }
    now rewrite Hvv.
Qed.

(** The shape of a normalized extension. *)
Lemma normalizeExtension_shape (ext : string) :
  (JS.trim ext = EmptyString /\ normalizeExtension ext = EmptyString)
  \/ (JS.trim ext <> EmptyString
      /\ exists v, normalizeExtension ext = String "." v
                   /\ JS.trim (String "." v) = String "." v
                   /\ JS.toLowerCase (String "." v) = String "." v).
Proof.
  unfold normalizeExtension.
  destruct (JS.trim ext) as [|c r] eqn:E; [now left|]. right.
  split; [discriminate|].
  set (v := JS.toLowerCase (String c r)).
  assert (Hne : JS.truthy v = true) by reflexivity.
  assert (Htrim : JS.trim v = v).
  { unfold v. rewrite toLowerCase_trim, <- E. now rewrite trim_idempotent. }
  assert (Hlow : JS.toLowerCase v = v) by apply toLowerCase_idempotent.
  rewrite Hne. cbn [negb]. clearbody v.
  destruct (JS.startsWith v ".") eqn:Hdot.
  - destruct v as [|c0 v0]; [discriminate|]. cbn [JS.startsWith] in Hdot.
    rewrite andb_true_r in Hdot. apply Ascii.eqb_eq in Hdot. subst c0.
    exists v0. auto.
  - exists v. split; [reflexivity|]. split.
    + now apply trim_cons_period.
    + cbn [JS.toLowerCase]. now rewrite Hlow.
Qed.

Lemma normalizeExtension_idempotent (ext : string) :
  normalizeExtension (normalizeExtension ext) = normalizeExtension ext.
Proof.
  destruct (normalizeExtension_shape ext) as [[_ ->] | (_ & v & -> & Ht & Hl)];
    [reflexivity|].
  unfold normalizeExtension. rewrite Ht, Hl. reflexivity.
Qed.

(** X1.  [normalizeExtension] yields a canonical form: it is idempotent,
    it does not see surrounding white space or letter case, and its result
    is empty exactly for a blank argument and starts with a period
    otherwise. *)
Theorem normalizeExtension_canonical (ext : string) :
  normalizeExtension (normalizeExtension ext) = normalizeExtension ext
  /\ normalizeExtension (JS.trim ext) = normalizeExtension ext
  /\ normalizeExtension (JS.toLowerCase ext) = normalizeExtension ext
  /\ (normalizeExtension ext = EmptyString <-> JS.trim ext = EmptyString)
  /\ (JS.trim ext <> EmptyString -> JS.startsWith (normalizeExtension ext) "." = true).
Proof.
  split; [apply normalizeExtension_idempotent|]. split; [|split; [|split]].
  - unfold normalizeExtension. now rewrite trim_idempotent.
  - unfold normalizeExtension. now rewrite toLowerCase_trim, toLowerCase_idempotent.
  - destruct (normalizeExtension_shape ext) as [[Ht ->] | (Hne & v & -> & _)].
    + tauto.
    + split; [discriminate | contradiction].
  - intros Hne.
    destruct (normalizeExtension_shape ext) as [[Ht _] | (_ & v & -> & _)];
      [contradiction | reflexivity].
Qed.

(** ** The command token *)

Lemma findIndexFrom_app (p : ascii -> bool) (body rest : string) (c : ascii) (i : Z) :
  JS.testClass p body = false -> p c = true ->
  JS.findIndexFrom p (body ++ String c rest) i = i + JS.len body.
Proof.
  revert i. induction body as [|b body IH]; intros i Hbody Hc.
  - simpl. rewrite Hc. unfold JS.len. simpl. lia.
  - simpl in Hbody. apply orb_false_iff in Hbody as [Hb Hbody].
    simpl. rewrite Hb, IH by assumption. unfold JS.len. simpl String.length. lia.
Qed.

Lemma length_append (a b : string) :
  String.length (a ++ b) = (String.length a + String.length b)%nat.
Proof. induction a as [|c a IH]; simpl; [reflexivity | now rewrite IH]. Qed.

Lemma substring_prefix_app (body rest : string) :
  String.substring 0 (String.length body) (body ++ rest) = body.
Proof.
  induction body as [|b body IH]; simpl.
  - now destruct rest.
  - now rewrite IH.
Qed.

Lemma slice_after_head (q : ascii) (rest : string) (k : Z) :
  1 <= k <= 1 + JS.len rest ->
  JS.slice (String q rest) 1 k = String.substring 0 (Z.to_nat (k - 1)) rest.
Proof.
  intros Hk. rewrite slice_range by (unfold JS.len in *; simpl String.length; lia).
  reflexivity.
Qed.

Lemma quotedToken_nonempty (trimmed token : string) :
  quotedToken trimmed = Some token -> token <> EmptyString.
Proof.
  unfold quotedToken.
  destruct (_ || _); [|discriminate].
  destruct trimmed as [|q rest]; [discriminate|].
  rewrite indexOfChar_after_head.
  destruct (Z.gtb_spec (JS.findIndexFrom (Ascii.eqb q) rest 1) 1) as [Hgt|];
    [|discriminate].
  intros [= <-].
  destruct (findIndexFrom_range (Ascii.eqb q) rest 1 ltac:(lia)) as [E|E]; [lia|].
  rewrite slice_after_head by lia.
  destruct rest as [|c r]; [unfold JS.len in E; simpl in E; lia|].
  destruct (Z.to_nat (JS.findIndexFrom (Ascii.eqb q) (String c r) 1 - 1)) eqn:En;
    [lia | discriminate].
Qed.

Lemma extractCommandToken_nonblank (cmd : string) :
  JS.trim cmd <> EmptyString -> extractCommandToken cmd <> EmptyString.
Proof.
  intros Hne. unfold extractCommandToken.
  destruct (trim_head cmd) as [E | (c & r & E & Hc)]; [contradiction|].
  rewrite E. cbn [JS.truthy negb].
  destruct (quotedToken (String c r)) as [token|] eqn:Eq.
  - now apply quotedToken_nonempty in Eq.
  - rewrite unquotedToken_spec. simpl. rewrite Hc. discriminate.
Qed.

(** X2.  The token of a command is empty exactly when the command is
    blank; [isCommandAvailable] then answers no without asking the host,
    and it asks the host exactly once, about the token, for every other
    command. *)
Theorem extractCommandToken_blank (H : Host) (cmd : string) (w : World) :
  (extractCommandToken cmd = EmptyString <-> JS.trim cmd = EmptyString)
  /\ (JS.trim cmd = EmptyString -> isCommandAvailable H cmd w = (false, w))
  /\ (JS.trim cmd <> EmptyString ->
      effects (snd (isCommandAvailable H cmd w))
      = (effects w ++ [probeOf H (extractCommandToken cmd)])%list).
Proof.
  assert (Hblank : JS.trim cmd = EmptyString -> extractCommandToken cmd = EmptyString).
  { intros E. unfold extractCommandToken. now rewrite E. }
  split; [|split].
  - split; [|exact Hblank].
    intros E. destruct (JS.trim cmd) eqn:Et; [reflexivity|].
    exfalso. apply (extractCommandToken_nonblank cmd); [rewrite Et; discriminate | exact E].
  - intros E. apply isCommandAvailable_empty. now apply Hblank.
  - intros Hne. rewrite isCommandAvailable_probe by now apply extractCommandToken_nonblank.
    reflexivity.
Qed.

(** X3.  When the trimmed command opens with a quote and that quote
    closes after a non-empty text, the token is that text, white space
    included. *)
Theorem extractCommandToken_quoted (cmd body rest : string) (q : ascii) :
  q = DQUOTE \/ q = SQUOTE ->
  JS.trim cmd = String q (body ++ String q rest) ->
  body <> EmptyString ->
  JS.testClass (Ascii.eqb q) body = false ->
  extractCommandToken cmd = body.
Proof.
  intros Hq Htrim Hbody Hfree. unfold extractCommandToken. rewrite Htrim.
  cbn [JS.truthy negb]. unfold quotedToken.
  rewrite starts_with_quote by assumption.
  rewrite indexOfChar_after_head.
  rewrite findIndexFrom_app by (assumption || apply Ascii.eqb_refl).
  assert (Hlen : 0 < JS.len body).
  { destruct body; [contradiction | unfold JS.len; simpl; lia]. }
  destruct (Z.gtb_spec (1 + JS.len body) 1); [|lia].
  rewrite slice_after_head.
  - replace (Z.to_nat (1 + JS.len body - 1)) with (String.length body)
      by (unfold JS.len; lia).
    apply substring_prefix_app.
  - unfold JS.len in *. rewrite length_append. simpl String.length. lia.
Qed.

Lemma extractCommandToken_quoted_witness :
  extractCommandToken "  '/opt/my tools/python3' -u " = "/opt/my tools/python3".
Proof.
  apply (extractCommandToken_quoted _ "/opt/my tools/python3" " -u" SQUOTE).
  - now right.
  - reflexivity.
  - discriminate.
  - reflexivity.
Defined.

(** ** Quoting is reversible *)

Lemma withoutLast_snoc (s : string) (q : ascii) :
  withoutLast (s ++ String q EmptyString) = s.
Proof.
  induction s as [|c r IH]; [reflexivity|].
  change (withoutLast (String c (r ++ String q EmptyString)) = String c r).
  cbn [withoutLast]. destruct (r ++ String q EmptyString) eqn:E.
  - destruct r; discriminate.
  - now rewrite IH.
Qed.

Lemma singleEach_doubleEach (q : ascii) (s : string) :
  singleEach q (doubleEach q s) = s.
Proof.
  induction s as [|c r IH]; [reflexivity|].
  cbn [doubleEach]. destruct (Ascii.eqb_spec c q) as [->|Hne].
  - cbn [singleEach]. rewrite Ascii.eqb_refl. now rewrite IH.
  - cbn [singleEach]. apply Ascii.eqb_neq in Hne. now rewrite Hne, IH.
Qed.

Lemma unquoteArgument_quote (H : Host) (value : string) :
  unquoteArgument H (quoteForCommandArgument H value) = Some value.
Proof.
  unfold unquoteArgument.
  destruct (String.eqb_spec (platform H) "win32") as [E|E].
  - unfold quoteForCommandArgument. rewrite E. cbn [String.eqb Ascii.eqb Bool.eqb].
    rewrite replaceCharG_double, withoutLast_snoc, singleEach_doubleEach. reflexivity.
  - now apply posix_quoting_roundtrip.
Qed.

(** X4.  On every platform [quoteForCommandArgument] loses nothing: two
    script paths with the same quoted form are the same path. *)
Theorem quoteForCommandArgument_injective (H : Host) (a b : string) :
  quoteForCommandArgument H a = quoteForCommandArgument H b -> a = b.
Proof.
  intros E. apply (f_equal (unquoteArgument H)) in E.
  rewrite !unquoteArgument_quote in E. congruence.
Qed.

Lemma quoteForCommandArgument_injective_witness :
  "it's here.sh" = "it's here.sh".
Proof.
  exact (quoteForCommandArgument_injective posixHost "it's here.sh" "it's here.sh"
           eq_refl).
Defined.

(** X5.  On a POSIX platform, a shell that reads the quoted argument (a
    word of single-quoted stretches and backslash escapes) gets the
    script path back, whatever characters the path contains. *)
Theorem posix_shell_reads_path_back (H : Host) (scriptPath : string) :
  platform H <> "win32" ->
  shellWord false (quoteForCommandArgument H scriptPath) = Some scriptPath.
Proof. apply posix_quoting_roundtrip. Qed.

Lemma posix_shell_reads_path_back_witness :
  shellWord false (quoteForCommandArgument posixHost "/home/u/it's $HOME; rm -rf x.sh")
  = Some "/home/u/it's $HOME; rm -rf x.sh".
Proof.
  apply (posix_shell_reads_path_back posixHost). discriminate.
Defined.

(** ** The registry: round trips and invariant *)

Lemma registerInterpreter_valid (H : Host) (ext cmd : string) (lbl : option string)
    (w : World) :
  ~ invalidRegistration H ext cmd ->
  registerInterpreter H ext cmd lbl w
  = (inr (mkRegistration (normalizeExtension ext) (JS.trim cmd)),
     registered ext cmd lbl w).
Proof.
  intros Hvalid. unfold invalidRegistration in Hvalid. unfold registerInterpreter.
  destruct (JS.truthy (normalizeExtension ext)) eqn:E1;
    [|apply truthy_false_iff in E1; tauto].
  destruct (JS.truthy (JS.trim cmd)) eqn:E2; [|apply truthy_false_iff in E2; tauto].
  cbn [negb].
  destruct (bool_decide_reflect
              (is_Some (BUILTIN_BY_EXTENSION H !! normalizeExtension ext))) as [E3|E3];
    [rewrite builtin_has_iff in E3; tauto | reflexivity].
Qed.

Lemma registerInterpreter_invalid (H : Host) (ext cmd : string) (lbl : option string)
    (w : World) :
  invalidRegistration H ext cmd -> snd (registerInterpreter H ext cmd lbl w) = w.
Proof.
  intros Hinv. unfold invalidRegistration in Hinv. unfold registerInterpreter.
  destruct (JS.truthy (normalizeExtension ext)) eqn:E1; [|reflexivity].
  destruct (JS.truthy (JS.trim cmd)) eqn:E2; [|reflexivity].
  apply truthy_true_iff in E1, E2. cbn [negb].
  destruct (bool_decide_reflect
              (is_Some (BUILTIN_BY_EXTENSION H !! normalizeExtension ext))) as [E3|E3];
    [reflexivity|].
  rewrite builtin_has_iff in E3. tauto.
Qed.

Lemma invalidRegistration_dec (H : Host) (ext cmd : string) :
  invalidRegistration H ext cmd \/ ~ invalidRegistration H ext cmd.
Proof.
  unfold invalidRegistration.
  destruct (string_dec (normalizeExtension ext) EmptyString); [tauto|].
  destruct (string_dec (JS.trim cmd) EmptyString); [tauto|].
  destruct (in_dec string_dec (normalizeExtension ext) (builtinExtensions H)); tauto.
Qed.

(** X6.  After a successful [registerInterpreter], every file whose
    extension (the [path.extname] of the platform, normalized) is the
    registered one resolves to a descriptor
    that carries the normalized extension, the given label (or
    [Custom (ext)] when the label is blank or absent), the trimmed command
    as its only candidate and no settings key, builds
    [interpreter quoted-path], and for which interpreter resolution
    returns the registered command exactly when it is available. *)
Theorem register_then_resolve (H : Host) (ext cmd : string) (lbl : option string)
    (w w2 : World) (file : string) (cfg : WorkspaceConfiguration) :
  ~ invalidRegistration H ext cmd ->
  normalizeExtension (pathExtname H file) = normalizeExtension ext ->
  exists d,
    resolveDescriptorForUri H
      (customInterpreters (snd (registerInterpreter H ext cmd lbl w))) file = Some d
    /\ extension d = normalizeExtension ext
    /\ label d = customDescriptorLabel (normalizeExtension ext) lbl
    /\ getDefaultInterpreters d = [JS.trim cmd]
    /\ interpreterSetting d = None
    /\ (forall interpreter scriptPath,
          buildRunCommand d interpreter scriptPath
          = interpreter ++ " " ++ quoteForCommandArgument H scriptPath)
    /\ fst (resolveInterpreterCommand H cfg d w2)
       = (if availableOn H (JS.trim cmd) then Some (JS.trim cmd) else None).
Proof.
  intros Hvalid Hext.
  rewrite registerInterpreter_valid by assumption. cbn [snd].
  unfold resolveDescriptorForUri. rewrite Hext.
  assert (Hnot : BUILTIN_BY_EXTENSION H !! normalizeExtension ext = None).
  { apply eq_None_not_Some. rewrite builtin_has_iff.
    unfold invalidRegistration in Hvalid. tauto. }
  rewrite Hnot. unfold registered. cbn [customInterpreters].
  rewrite lookup_insert_eq. eexists. split; [reflexivity|].
  cbn [extension label getDefaultInterpreters interpreterSetting buildRunCommand
       command customLabel].
  repeat split.
  - unfold customDescriptorLabel. destruct lbl as [l|]; [|reflexivity].
    cbn [fmap option_fmap option_map JS.truthyOpt default from_option id].
    reflexivity.
  - rewrite resolveInterpreterCommand_spec. unfold configuredInterpreter.
    cbn [interpreterSetting JS.truthyOpt getDefaultInterpreters List.find fst].
    reflexivity.
Qed.

Lemma register_then_resolve_witness :
  exists d,
    resolveDescriptorForUri posixHost
      (customInterpreters
         (snd (registerInterpreter posixHost "RB" " ruby -w " None initialWorld)))
      "/home/u/scripts/Hello.Rb" = Some d
    /\ label d = "Custom (.rb)"
    /\ buildRunCommand d "ruby -w" "/home/u/scripts/Hello.Rb"
       = "ruby -w '/home/u/scripts/Hello.Rb'".
Proof.
  destruct (register_then_resolve posixHost "RB" " ruby -w " None initialWorld
              initialWorld "/home/u/scripts/Hello.Rb" defaultConfiguration)
    as (d & Hd & _ & Hl & _ & _ & Hb & _).
  - intros [E|[E|E]]; vm_compute in E; intuition discriminate.
  - reflexivity.
  - exists d. split; [exact Hd|]. split; [exact Hl|]. apply Hb.
Defined.

(** X7.  Registering and then disposing the returned handle leaves no
    entry for the extension and every other entry as it was: the registry
    is the former one without that extension (an entry the registration
    replaced does not come back), and two refreshes were fired. *)
Theorem register_then_dispose (H : Host) (ext cmd : string) (lbl : option string)
    (w : World) :
  ~ invalidRegistration H ext cmd ->
  let handle := mkRegistration (normalizeExtension ext) (JS.trim cmd) in
  let w' := snd (disposeRegistration handle
                   (snd (registerInterpreter H ext cmd lbl w))) in
  customInterpreters w' = delete (normalizeExtension ext) (customInterpreters w)
  /\ effects w' = (effects w ++ [RefreshView; RefreshView])%list.
Proof.
  intros Hvalid. cbv zeta. rewrite registerInterpreter_valid by assumption. cbn [snd].
  rewrite (proj1 (disposeRegistration_spec _ _)).
  - cbn [snd unregistered registered customInterpreters effects registeredExtension].
    split; [apply delete_insert_eq | now rewrite <- app_assoc].
  - eexists. split; [apply lookup_insert_eq | reflexivity].
Qed.

Lemma register_then_dispose_witness :
  customInterpreters
    (snd (disposeRegistration (mkRegistration ".rb" "jruby")
            (snd (registerInterpreter posixHost ".rb" "jruby" None
                    (registered ".rb" "ruby" None initialWorld)))))
  !! ".rb" = None.
Proof.
  destruct (register_then_dispose posixHost ".rb" "jruby" None
              (registered ".rb" "ruby" None initialWorld)) as [Hc _].
  - intros [E|[E|E]]; vm_compute in E; intuition discriminate.
  - cbv zeta in Hc. change (normalizeExtension ".rb") with ".rb" in Hc.
    change (JS.trim "jruby") with "jruby" in Hc.
    rewrite Hc. apply lookup_delete_eq.
Defined.

Lemma registryWellFormed_register (H : Host) (ext cmd : string) (lbl : option string)
    (w : World) :
  registryWellFormed H (customInterpreters w) ->
  registryWellFormed H (customInterpreters (snd (registerInterpreter H ext cmd lbl w))).
Proof.
  intros Hwf.
  destruct (invalidRegistration_dec H ext cmd) as [Hinv|Hvalid].
  - now rewrite registerInterpreter_invalid.
  - rewrite registerInterpreter_valid by assumption. cbn [snd registered customInterpreters].
    intros k entry Hk. unfold invalidRegistration in Hvalid.
    destruct (string_dec (normalizeExtension ext) k) as [<-|Hne].
    + rewrite lookup_insert_eq in Hk. injection Hk as <-. cbn [command].
      repeat split; try tauto.
      * apply normalizeExtension_idempotent.
      * apply trim_idempotent.
    + rewrite lookup_insert_ne in Hk by assumption. now apply Hwf.
Qed.

Lemma registryWellFormed_dispose (H : Host) (r : Registration) (w : World) :
  registryWellFormed H (customInterpreters w) ->
  registryWellFormed H (customInterpreters (snd (disposeRegistration r w))).
Proof.
  intros Hwf. destruct (stillRegistered_dec r w) as [Hs|Hs].
  - rewrite (proj1 (disposeRegistration_spec r w) Hs). cbn [snd unregistered customInterpreters].
    intros k entry Hk. apply lookup_delete_Some in Hk as [_ Hk]. now apply Hwf.
  - now rewrite (proj2 (disposeRegistration_spec r w) Hs).
Qed.

Lemma runApi_cons_register (H : Host) (ext cmd : string) (lbl : option string)
    (rest : list ApiCall) (w : World) :
  snd (runApi H (CallRegister ext cmd lbl :: rest) w)
  = snd (runApi H rest (snd (registerInterpreter H ext cmd lbl w))).
Proof.
  cbn [runApi]. unfold bind. now destruct (registerInterpreter H ext cmd lbl w).
Qed.

Lemma runApi_cons_dispose (H : Host) (r : Registration) (rest : list ApiCall)
    (w : World) :
  snd (runApi H (CallDispose r :: rest) w)
  = snd (runApi H rest (snd (disposeRegistration r w))).
Proof.
  cbn [runApi]. unfold bind. now destruct (disposeRegistration r w).
Qed.

(** X8.  The registry stays well formed under every sequence of
    registrations and disposals, of any handles in any order: its keys are
    normalized extensions that no built-in descriptor handles, and its
    commands are non-empty and trimmed. *)
Theorem registry_stays_well_formed (H : Host) (calls : list ApiCall) (w : World) :
  registryWellFormed H (customInterpreters w) ->
  registryWellFormed H (customInterpreters (snd (runApi H calls w))).
Proof.
  revert w. induction calls as [|[ext cmd lbl | r] rest IH]; intros w Hwf.
  - exact Hwf.
  - rewrite runApi_cons_register. now apply IH, registryWellFormed_register.
  - rewrite runApi_cons_dispose. now apply IH, registryWellFormed_dispose.
Qed.

Lemma registry_stays_well_formed_witness :
  registryWellFormed posixHost
    (customInterpreters
       (snd (runApi posixHost
               [ CallRegister " RB " " ruby " None; CallRegister ".py" "python2" None;
                 CallDispose (mkRegistration ".rb" "jruby");
                 CallRegister "rb" "jruby" (Some "JRuby") ]
               initialWorld))).
Proof.
  apply registry_stays_well_formed.
  intros k entry Hk. vm_compute in Hk. discriminate.
Defined.

(** X9.  A built-in descriptor cannot be shadowed: a file whose
    extension (the [path.extname] of the platform, normalized) is the
    extension of a descriptor of the built-in table resolves to that
    descriptor, whatever the custom registry holds. *)
Theorem builtin_descriptor_wins (H : Host) (customs : gmap string CustomInterpreter)
    (file : string) (d : ScriptDescriptor) :
  In d (BUILTIN_SCRIPT_DESCRIPTORS H) ->
  normalizeExtension (pathExtname H file) = extension d ->
  resolveDescriptorForUri H customs file = Some d.
Proof.
  intros Hin Hext. unfold resolveDescriptorForUri. rewrite Hext.
  rewrite BUILTIN_BY_EXTENSION_lookup.
  unfold BUILTIN_SCRIPT_DESCRIPTORS in *.
  repeat (destruct Hin as [<-|Hin]; [reflexivity|]). contradiction.
Qed.

Lemma builtin_descriptor_wins_witness :
  resolveDescriptorForUri windowsHost
    (<[".py" := mkCustom "evil" None]> ∅) "C:\Users\u\scripts\Job.PY"
  = Some (pythonDescriptor windowsHost).
Proof.
  apply builtin_descriptor_wins; [|reflexivity].
  do 3 right. left. reflexivity.
Defined.

(** ** From a validated name to the file that is created *)

Lemma testClass_app (p : ascii -> bool) (a b : string) :
  JS.testClass p (a ++ b) = JS.testClass p a || JS.testClass p b.
Proof.
  induction a as [|c a IH]; [reflexivity|].
  simpl. rewrite IH. now rewrite orb_assoc.
Qed.

Lemma testClassAtEnd_app (p : ascii -> bool) (a b : string) :
  b <> EmptyString -> JS.testClassAtEnd p (a ++ b) = JS.testClassAtEnd p b.
Proof.
  intros Hb. induction a as [|c a IH]; [reflexivity|].
  change (JS.testClassAtEnd p (String c (a ++ b)) = JS.testClassAtEnd p b).
  cbn [JS.testClassAtEnd]. destruct (a ++ b) eqn:E; [|exact IH].
  destruct a; [simpl in E; contradiction | discriminate].
Qed.

Lemma toLowerCase_length (s : string) :
  String.length (JS.toLowerCase s) = String.length s.
Proof. induction s as [|c r IH]; simpl; [reflexivity | now rewrite IH]. Qed.

Lemma trimEnd_no_white (s : string) :
  JS.testClass JS.isWhiteSpace s = false -> JS.trimEnd s = s.
Proof.
  induction s as [|c r IH]; [reflexivity|].
  cbn [JS.testClass]. intros E. apply orb_false_iff in E as [Hc Hr].
  rewrite trimEnd_cons_keep by assumption. now rewrite IH.
Qed.

Lemma trim_no_white (s : string) :
  JS.testClass JS.isWhiteSpace s = false -> JS.trim s = s.
Proof.
  intros E. unfold JS.trim. destruct s as [|c r]; [reflexivity|].
  cbn [JS.testClass] in E. apply orb_false_iff in E as [Hc Hr].
  rewrite trimStart_fixed by assumption.
  apply trimEnd_no_white. cbn [JS.testClass]. now rewrite Hc, Hr.
Qed.

Lemma trimEnd_app (a b : string) :
  JS.trimEnd b <> EmptyString -> JS.trimEnd (a ++ b) = a ++ JS.trimEnd b.
Proof.
  intros Hb. induction a as [|c a IH]; [reflexivity|].
  change (JS.trimEnd (String c (a ++ b)) = String c (a ++ JS.trimEnd b)).
  cbn [JS.trimEnd]. rewrite IH.
  destruct (a ++ JS.trimEnd b) eqn:E; [|reflexivity].
  destruct a; [simpl in E; contradiction | discriminate].
Qed.

(** A trimmed non-empty name followed by a text without white space is
    trimmed. *)
Lemma trim_app (t e : string) :
  JS.trim t = t -> t <> EmptyString ->
  JS.testClass JS.isWhiteSpace e = false -> e <> EmptyString ->
  JS.trim (t ++ e) = t ++ e.
Proof.
  intros Ht Hne He Hene.
  destruct (trim_head t) as [E | (c & r & E & Hc)]; [congruence|].
  rewrite Ht in E. subst t. unfold JS.trim.
  change (String c r ++ e) with (String c (r ++ e)).
  rewrite trimStart_fixed by assumption.
  change (String c (r ++ e)) with (String c r ++ e).
  rewrite trimEnd_app; rewrite trimEnd_no_white by assumption; [reflexivity | assumption].
Qed.

Lemma get_class_false (p : ascii -> bool) (t : string) (i : nat) (c : ascii) :
  JS.testClass p t = false -> String.get i t = Some c -> p c = false.
Proof.
  revert i. induction t as [|c' r IH]; intros i Ht Hg; [discriminate|].
  cbn [JS.testClass] in Ht. apply orb_false_iff in Ht as [Hc Hr].
  destruct i as [|i]; simpl in Hg; [now injection Hg as <- | now apply (IH i)].
Qed.

Lemma get_app_left (a b : string) (i : nat) :
  (i < String.length a)%nat -> String.get i (a ++ b) = String.get i a.
Proof. intros Hi. symmetry. now apply String.append_correct1. Qed.

Lemma get_app_right (a b : string) (i : nat) :
  String.get (String.length a + i) (a ++ b) = String.get i b.
Proof. rewrite Nat.add_comm. symmetry. apply String.append_correct2. Qed.

(** The last dot of [t.x], for [x] without a dot, is the one before
    [x]. *)
Lemma lastDotBelow_app (t x : string) (m : nat) :
  JS.testClass isPeriod x = false -> (m <= String.length x)%nat ->
  lastDotBelow (t ++ String "." x) (String.length t + S m) = Some (String.length t).
Proof.
  intros Hx. induction m as [|m IH]; intros Hm.
  - replace (String.length t + 1)%nat with (S (String.length t)) by lia.
    cbn [lastDotBelow].
    replace (String.length t) with (String.length t + 0)%nat at 1 by lia.
    rewrite get_app_right. reflexivity.
  - replace (String.length t + S (S m))%nat with (S (String.length t + S m)) by lia.
    cbn [lastDotBelow]. rewrite get_app_right.
    destruct (get_in_range x m ltac:(lia)) as [c Hc].
    cbn [String.get]. rewrite Hc.
    pose proof (get_class_false isPeriod x m c Hx Hc) as Hdot.
    unfold isPeriod in Hdot. unfold Path.DOT. rewrite Hdot. apply IH. lia.
Qed.

Lemma substring_suffix_app (a b : string) :
  String.substring (String.length a) (String.length b) (a ++ b) = b.
Proof.
  induction a as [|c a IH]; [apply substring_whole | exact IH].
Qed.

(** The extension and the name of [t.x]. *)
Lemma extSpec_app (t x : string) :
  t <> EmptyString -> x <> EmptyString -> JS.testClass isPeriod x = false ->
  extSpec (t ++ String "." x) = String "." x
  /\ nameSpec (t ++ String "." x) = t.
Proof.
  intros Ht Hx Hdot. unfold extSpec, nameSpec.
  rewrite length_append. cbn [String.length].
  rewrite (lastDotBelow_app t x (String.length x) Hdot (le_n _)).
  assert (Hnot : String.eqb (t ++ String "." x) ".." = false).
  { apply String.eqb_neq. intros E.
    apply (f_equal String.length) in E. rewrite length_append in E.
    destruct t; [contradiction|]. destruct x; [contradiction|].
    simpl in E. lia. }
  destruct (String.length t) as [|k] eqn:Ek; [destruct t; [contradiction | discriminate]|].
  rewrite Hnot. rewrite <- Ek. split.
  - replace (String.length t + S (String.length x) - String.length t)%nat
      with (String.length (String "." x)) by (simpl; lia).
    apply substring_suffix_app.
  - apply substring_prefix_app.
Qed.

Lemma substring_at_get (t : string) (k : nat) (c : ascii) :
  String.get k t = Some c ->
  exists r, String.substring k (String.length t - k) t = String c r.
Proof.
  revert k. induction t as [|c' r IH]; intros k Hg; [discriminate|].
  destruct k as [|k]; simpl in Hg.
  - injection Hg as <-. simpl. eauto.
  - simpl. now apply IH.
Qed.

(** A name whose extension normalizes to nothing has no extension, and is
    its own base name. *)
Lemma extSpec_blank (t : string) :
  normalizeExtension (extSpec t) = EmptyString ->
  extSpec t = EmptyString /\ nameSpec t = t.
Proof.
  unfold extSpec, nameSpec.
  destruct (lastDotBelow t (String.length t)) as [[|k]|] eqn:E; try (split; reflexivity).
  destruct (String.eqb t ".."); [split; reflexivity|].
  intros Hn. exfalso.
  apply lastDotBelow_Some in E as [_ Hg].
  destruct (substring_at_get t (S k) _ Hg) as [r Hr]. rewrite Hr in Hn.
  destruct (normalizeExtension_shape (String Path.DOT r)) as [[Hb _] | (Hnb & v & Hv & _)].
  - unfold JS.trim in Hb. rewrite trimStart_fixed in Hb by reflexivity.
    rewrite trimEnd_cons_keep in Hb by reflexivity. discriminate.
  - rewrite Hv in Hn. discriminate.
Qed.

Lemma plainExtension_facts (e : string) :
  plainExtension e = true ->
  exists x, e = String "." x /\ x <> EmptyString
            /\ JS.testClass isPeriod x = false
            /\ JS.testClass isSeparatorChar e = false
            /\ JS.testClass isInvalidFilenameChar e = false
            /\ JS.testClass JS.isWhiteSpace e = false
            /\ JS.testClassAtEnd isPeriodOrSpace e = false
            /\ normalizeExtension e = e.
Proof.
  destruct e as [|c x]; [discriminate|]. cbn [plainExtension].
  rewrite !andb_true_iff, !negb_true_iff.
  intros ((((((Hc & Hx) & Hdot) & Hsep) & Hinv) & Hws) & Hlow).
  apply Ascii.eqb_eq in Hc. subst c. apply truthy_true_iff in Hx.
  apply String.eqb_eq in Hlow.
  exists x. split; [reflexivity|]. split; [assumption|]. split; [assumption|].
  split; [cbn [JS.testClass]; now rewrite Hsep|].
  split; [cbn [JS.testClass]; now rewrite Hinv|].
  split; [cbn [JS.testClass]; now rewrite Hws|].
  split.
  - change (String "." x) with (String "." EmptyString ++ x).
    rewrite testClassAtEnd_app by assumption.
    rewrite (testClassAtEnd_ext isPeriodOrSpace (fun c => isPeriod c || isSpace c))
      by reflexivity.
    rewrite testClassAtEnd_or.
    destruct (JS.testClassAtEnd isPeriod x) eqn:E1.
    { clear -E1 Hdot. exfalso. induction x as [|c r IH]; [discriminate|].
      cbn [JS.testClass] in Hdot. apply orb_false_iff in Hdot as [Hc Hr].
      destruct r; [simpl in E1; congruence | now apply IH]. }
    destruct (JS.testClassAtEnd isSpace x) eqn:E2; [|reflexivity].
    apply (testClassAtEnd_mono _ JS.isWhiteSpace) in E2; [|apply space_is_white].
    clear -E2 Hws. exfalso. induction x as [|c r IH]; [discriminate|].
    cbn [JS.testClass] in Hws. apply orb_false_iff in Hws as [Hc Hr].
    destruct r; [simpl in E2; congruence | now apply IH].
  - unfold normalizeExtension.
    rewrite trim_no_white by (cbn [JS.testClass]; now rewrite Hws).
    cbn [JS.toLowerCase]. rewrite Hlow. reflexivity.
Qed.

Lemma builtin_extensions_plain (H : Host) (d : ScriptDescriptor) :
  In d (BUILTIN_SCRIPT_DESCRIPTORS H) -> plainExtension (extension d) = true.
Proof.
  unfold BUILTIN_SCRIPT_DESCRIPTORS. intros Hin.
  repeat (destruct Hin as [<-|Hin]; [reflexivity|]). contradiction.
Qed.

Lemma normalizeScriptFileName_fixed (name ext : string) :
  JS.trim name = name -> ext <> EmptyString -> normalizeExtension ext = ext ->
  normalizeExtension (Path.extname name) = ext ->
  normalizeScriptFileName name ext = name.
Proof.
  intros Ht Hne Hnorm Hext. unfold normalizeScriptFileName.
  rewrite Ht, Hext, Hnorm. apply truthy_true_iff in Hne. rewrite Hne.
  now rewrite String.eqb_refl.
Qed.

(** What the validator guarantees about an accepted name. *)
Lemma accepted_name_facts (value ext : string) :
  validateScriptNameInput value ext = None ->
  let t := JS.trim value in
  t <> EmptyString
  /\ JS.testClass isSeparatorChar t = false
  /\ JS.testClass isInvalidFilenameChar t = false
  /\ (JS.toLowerCase (nameSpec t) ∉ WINDOWS_RESERVED_BASENAMES)
  /\ (normalizeExtension (extSpec t) = EmptyString
      \/ normalizeExtension (extSpec t) = normalizeExtension ext).
Proof.
  intros Hok. cbv zeta.
  assert (Hrej : ~ nameRejected value ext).
  { intros Hr. apply validateScriptNameInput_rejects_iff in Hr. contradiction. }
  unfold nameRejected in Hrej. cbv zeta in Hrej.
  split; [tauto|]. split.
  { rewrite (testClass_trim isSeparatorChar value separator_not_white).
    destruct (JS.testClass isSeparatorChar value); [tauto | reflexivity]. }
  split.
  { rewrite invalid_chars_trimmed.
    destruct (JS.testClass isReservedPunctuation value); [tauto|].
    destruct (JS.testClass isControlChar (JS.trim value)); [tauto | reflexivity]. }
  split; [tauto|].
  destruct (string_dec (normalizeExtension (extSpec (JS.trim value))) EmptyString);
    [tauto|].
  destruct (string_dec (normalizeExtension (extSpec (JS.trim value)))
              (normalizeExtension ext)); tauto.
Qed.

(** The file name made of an accepted name. *)
Lemma normalizeScriptFileName_validated (value ext : string) :
  plainExtension ext = true ->
  validateScriptNameInput value ext = None ->
  let f := normalizeScriptFileName value ext in
  (f = JS.trim value \/ f = JS.trim value ++ ext)
  /\ normalizeExtension (Path.extname f) = ext
  /\ JS.testClass isSeparatorChar f = false
  /\ normalizeScriptFileName f ext = f
  /\ validateScriptNameInput f ext = None.
Proof.
  intros Hplain Hok. cbv zeta.
  destruct (plainExtension_facts ext Hplain)
    as (x & He & Hx & Hxdot & Hesep & Heinv & Hews & Heend & Henorm).
  destruct (accepted_name_facts value ext Hok) as (Ht & Htsep & Htinv & Htres & Htext).
  cbv zeta in *. rewrite Henorm in Htext.
  set (t := JS.trim value) in *.
  assert (Htt : JS.trim t = t) by apply trim_idempotent.
  assert (Hns : JS.testClass (Ascii.eqb Path.SLASH) t = false)
    by now apply separator_free_no_slash.
  assert (Hene : ext <> EmptyString) by (rewrite He; discriminate).
  destruct Htext as [Hnone | Hsame].
  - (* no extension typed: it is appended *)
    assert (Hf : normalizeScriptFileName value ext = t ++ ext).
    { unfold normalizeScriptFileName. fold t.
      rewrite (extname_no_slash t Hns), Hnone, Henorm. reflexivity. }
    rewrite Hf.
    assert (Hfsep : JS.testClass isSeparatorChar (t ++ ext) = false)
      by (rewrite testClass_app, Htsep, Hesep; reflexivity).
    assert (Hfns : JS.testClass (Ascii.eqb Path.SLASH) (t ++ ext) = false)
      by now apply separator_free_no_slash.
    destruct (extSpec_app t x Ht Hx Hxdot) as [Hfext Hfname].
    rewrite <- He in Hfext, Hfname.
    assert (Hfe : normalizeExtension (Path.extname (t ++ ext)) = ext)
      by (rewrite (extname_no_slash _ Hfns), Hfext; exact Henorm).
    assert (Hft : JS.trim (t ++ ext) = t ++ ext) by now apply trim_app.
    split; [now right|]. split; [exact Hfe|]. split; [exact Hfsep|].
    split; [now apply normalizeScriptFileName_fixed|].
    destruct (validateScriptNameInput (t ++ ext) ext) eqn:Ev; [|reflexivity].
    exfalso.
    assert (Hr : nameRejected (t ++ ext) ext).
    { apply validateScriptNameInput_rejects_iff. congruence. }
    unfold nameRejected in Hr. cbv zeta in Hr. rewrite Hft, Hfext, Hfname, Henorm in Hr.
    destruct (extSpec_blank t Hnone) as [_ Htname]. rewrite Htname in Htres.
    assert (Hlen : String.length (t ++ ext) = (String.length t + String.length ext)%nat)
      by apply length_append.
    assert (Htlen : (0 < String.length t)%nat) by (destruct t; [contradiction | simpl; lia]).
    assert (Helen : (2 <= String.length ext)%nat)
      by (rewrite He; destruct x; [contradiction | simpl; lia]).
    destruct Hr as [E|[[E|E]|[E|[[E|E]|[E|[E|[E|[E1 E2]]]]]]]].
    + apply (f_equal String.length) in E. simpl in E. lia.
    + apply (f_equal String.length) in E. simpl in E. lia.
    + apply (f_equal String.length) in E. simpl in E. lia.
    + congruence.
    + assert (Hall : JS.testClass isInvalidFilenameChar (t ++ ext) = false)
        by (rewrite testClass_app, Htinv, Heinv; reflexivity).
      rewrite (testClass_ext isInvalidFilenameChar
                 (fun c => isReservedPunctuation c || isControlChar c)) in Hall
        by reflexivity.
      rewrite testClass_or in Hall. apply orb_false_iff in Hall as [Hall _]. congruence.
    + assert (Hall : JS.testClass isInvalidFilenameChar (t ++ ext) = false)
        by (rewrite testClass_app, Htinv, Heinv; reflexivity).
      rewrite (testClass_ext isInvalidFilenameChar
                 (fun c => isReservedPunctuation c || isControlChar c)) in Hall
        by reflexivity.
      rewrite testClass_or in Hall. apply orb_false_iff in Hall as [_ Hall]. congruence.
    + rewrite testClassAtEnd_app in E by assumption.
      rewrite (testClassAtEnd_ext isPeriodOrSpace (fun c => isPeriod c || isSpace c)) in Heend
        by reflexivity.
      rewrite testClassAtEnd_or in Heend. apply orb_false_iff in Heend as [Heend _].
      congruence.
    + apply (f_equal String.length) in E. rewrite toLowerCase_length in E. lia.
    + contradiction.
    + contradiction.
  - (* the name carries the extension: it is kept *)
    assert (Hte : normalizeExtension (Path.extname t) = ext)
      by now rewrite (extname_no_slash t Hns).
    assert (Hf : normalizeScriptFileName value ext = t).
    { unfold normalizeScriptFileName. fold t. rewrite Hte, Henorm.
      apply truthy_true_iff in Hene. rewrite Hene. now rewrite String.eqb_refl. }
    rewrite Hf. split; [now left|]. split; [exact Hte|]. split; [exact Htsep|].
    split; [now apply normalizeScriptFileName_fixed|].
    unfold t. now rewrite validateScriptNameInput_trimmed.
Qed.



(** ** The add and remove commands *)

Lemma awaiting_In (prefix : string) (error : option string) (rest : list Action)
    (a : Action) :
  In a (awaiting prefix error rest)
  <-> match error with
      | Some message => a = Notify (ShowErrorMessage (prefix ++ ": " ++ message))
      | None => In a rest
      end.
Proof.
  destruct error as [message|]; simpl; [|tauto].
  split; [intros [E|[]]; now symmetry | intros ->; now left].
Qed.

Lemma awaiting_no_write (prefix : string) (error : option string) (rest : list Action) :
  List.filter isWrite rest = [] -> List.filter isWrite (awaiting prefix error rest) = [].
Proof. destruct error; [reflexivity | trivial]. Qed.

Lemma awaiting_no_delete (prefix : string) (error : option string) (rest : list Action) :
  List.filter isDelete rest = [] -> List.filter isDelete (awaiting prefix error rest) = [].
Proof. destruct error; [reflexivity | trivial]. Qed.

(** X11.  [quick-it.addScript] writes a file exactly when a type was
    picked, a name was entered, the scripts directory was resolved and
    created, and the file is new or the user answered Overwrite; the file
    written is then the normalized name inside the scripts directory with
    the template of the picked type.  It writes at most one file and never
    deletes one. *)
Theorem addScriptCommand_writes (H : Host) (run : AddScriptRun) :
  (forall uri content,
     In (WriteFile uri content) (addScriptCommand H run)
     <-> exists selected input directory,
           pickedType run = Some selected
           /\ scriptNameInput run = Some input
           /\ scriptsDirectory run = inr directory
           /\ createDirectoryError run = None
           /\ (scriptExists run = false \/ overwriteSelection run = Some "Overwrite")
           /\ uri = uriJoinPath H directory
                      (normalizeScriptFileName input (extension selected))
           /\ content = getInitialTemplateForExtension (extension selected))
  /\ (length (List.filter isWrite (addScriptCommand H run)) <= 1)%nat
  /\ List.filter isDelete (addScriptCommand H run) = [].
Proof.
  destruct run as [picked input dir cerr ex ow werr oerr serr].
  unfold addScriptCommand. cbn [pickedType scriptNameInput scriptsDirectory
    createDirectoryError scriptExists overwriteSelection writeFileError
    openDocumentError showDocumentError].
  assert (Hdec : forall o : option string,
            bool_decide (o = Some "Overwrite") = true <-> o = Some "Overwrite").
  { intros o. apply bool_decide_eq_true. }
  destruct picked as [selected|].
  { destruct input as [input|].
    { destruct dir as [error|directory].
      { split; [|split; [simpl; lia | reflexivity]].
        intros uri content. split.
        - intros [E|[E|[E|[]]]]; discriminate.
        - intros (? & ? & ? & _ & _ & E & _). discriminate. }
      destruct cerr as [message|].
      { split; [|split; [simpl; lia | reflexivity]].
        intros uri content. split.
        - intros [E|[E|[E|[E|[]]]]]; discriminate.
        - intros (? & ? & ? & _ & _ & _ & E & _). discriminate. }
      cbn [awaiting].
      set (f := normalizeScriptFileName input (extension selected)).
      set (u := uriJoinPath H directory f).
      set (tail := awaiting ADD_FAILED werr _).
      assert (Htail_w : forall uri content, ~ In (WriteFile uri content) tail).
      { intros uri content. unfold tail. rewrite awaiting_In.
        destruct werr; [discriminate|].
        intros [E|[E|Hin]]; try discriminate.
        rewrite awaiting_In in Hin. destruct oerr; [discriminate|].
        destruct Hin as [E|Hin]; [discriminate|].
        rewrite awaiting_In in Hin. destruct serr; [discriminate|].
        destruct Hin as [E|[]]; discriminate. }
      assert (Htail_fw : List.filter isWrite tail = []).
      { unfold tail. apply awaiting_no_write. cbn [List.filter isWrite isDelete].
        apply awaiting_no_write. cbn [List.filter isWrite isDelete].
        now apply awaiting_no_write. }
      assert (Htail_fd : List.filter isDelete tail = []).
      { unfold tail. apply awaiting_no_delete. cbn [List.filter isWrite isDelete].
        apply awaiting_no_delete. cbn [List.filter isWrite isDelete].
        now apply awaiting_no_delete. }
      clearbody tail.
      destruct ex.
      - destruct (bool_decide (ow = Some "Overwrite")) eqn:Eow.
        + apply Hdec in Eow. split; [|split].
          * intros uri content. split.
            -- intros [E|[E|[E|[E|[E|[E|Hin]]]]]]; try discriminate.
               ++ injection E as <- <-. exists selected, input, directory.
                  repeat split; auto.
               ++ now apply Htail_w in Hin.
            -- intros (s & i & d & Es & Ei & Ed & _ & _ & -> & ->).
               injection Es as <-. injection Ei as <-. injection Ed as <-.
               do 5 right. now left.
          * cbn [List.filter isWrite isDelete]. rewrite Htail_fw. simpl. lia.
          * cbn [List.filter isWrite isDelete]. exact Htail_fd.
        + assert (Hno : ow <> Some "Overwrite").
          { intros E. apply Hdec in E. congruence. }
          split; [|split; [simpl; lia | reflexivity]].
          intros uri content. split.
          * intros [E|[E|[E|[E|[E|[]]]]]]; discriminate.
          * intros (s & i & d & _ & _ & _ & _ & [E|E] & _); [discriminate | contradiction].
      - split; [|split].
        + intros uri content. split.
          * intros [E|[E|[E|[E|[E|Hin]]]]]; try discriminate.
            -- injection E as <- <-. exists selected, input, directory.
               repeat split; auto.
            -- now apply Htail_w in Hin.
          * intros (s & i & d & Es & Ei & Ed & _ & _ & -> & ->).
            injection Es as <-. injection Ei as <-. injection Ed as <-.
            do 4 right. now left.
        + cbn [List.filter isWrite isDelete]. rewrite Htail_fw. simpl. lia.
        + cbn [List.filter isWrite isDelete]. exact Htail_fd. }
    split; [|split; [simpl; lia | reflexivity]].
    intros uri content. split.
    - intros [E|[E|[]]]; discriminate.
    - intros (? & ? & ? & _ & E & _). discriminate. }
  split; [|split; [simpl; lia | reflexivity]].
  intros uri content. split.
  - intros [E|[]]; discriminate.
  - intros (? & ? & ? & E & _). discriminate.
Qed.

(** X12.  [quick-it.removeScript] deletes a file exactly when an item was
    selected, the user answered Remove and the file still exists; what it
    deletes is then the item's file, to the trash.  It deletes at most one
    file and never writes one. *)
Theorem removeScriptCommand_deletes (H : Host) (item : option ScriptItem)
    (run : RemoveScriptRun) :
  (forall uri useTrash,
     In (DeleteFile uri useTrash) (removeScriptCommand H item run)
     <-> exists selected,
           item = Some selected
           /\ confirmation run = Some "Remove"
           /\ stillExists run = true
           /\ uri = fsPath selected
           /\ useTrash = true)
  /\ (length (List.filter isDelete (removeScriptCommand H item run)) <= 1)%nat
  /\ List.filter isWrite (removeScriptCommand H item run) = [].
Proof.
  destruct run as [conf ex derr]. unfold removeScriptCommand.
  cbn [confirmation stillExists deleteError].
  destruct item as [selected|].
  2:{ split; [|split; [simpl; lia | reflexivity]].
      intros uri t. split.
      - intros [E|[]]; discriminate.
      - intros (? & E & _). discriminate. }
  destruct (bool_decide (conf = Some "Remove")) eqn:Ec.
  - apply bool_decide_eq_true in Ec. cbn [negb].
    destruct ex; cbn [negb].
    + split; [|split].
      * intros uri t. split.
        -- intros [E|[E|[E|Hin]]]; try discriminate.
           ++ injection E as <- <-. exists selected. repeat split; auto.
           ++ apply awaiting_In in Hin. destruct derr; [discriminate|].
              destruct Hin as [E|[]]; discriminate.
        -- intros (s & Es & _ & _ & -> & ->). injection Es as <-.
           do 2 right. now left.
      * cbn [List.filter isWrite isDelete]. rewrite awaiting_no_delete by reflexivity. simpl. lia.
      * cbn [List.filter isWrite isDelete]. now apply awaiting_no_write.
    + split; [|split; [simpl; lia | reflexivity]].
      intros uri t. split.
      * intros [E|[E|[E|[E|[]]]]]; discriminate.
      * intros (? & _ & _ & E & _). discriminate.
  - apply bool_decide_eq_false in Ec. cbn [negb].
    split; [|split; [simpl; lia | reflexivity]].
    intros uri t. split.
    + intros [E|[]]; discriminate.
    + intros (? & _ & E & _). contradiction.
Qed.

(** ** The safety notice *)

Lemma activations_shown (globalState : gmap string bool) (updates : list bool) :
  globalState !! SAFETY_NOTICE_STATE_KEY = Some true ->
  activations globalState updates = (globalState, []).
Proof.
  intros Hs. induction updates as [|u rest IH]; [reflexivity|].
  cbn [activations]. unfold showSafetyNoticeOnce. rewrite Hs.
  cbn [default from_option id]. now rewrite IH.
Qed.

(** X13.  As long as the host fails to store the flag, every activation
    shows the safety notice again; the first activation whose update is
    stored is the last one to show it, whatever happens afterwards. *)
Theorem safety_notice_until_stored (globalState : gmap string bool)
    (failed later : list bool) :
  default false (globalState !! SAFETY_NOTICE_STATE_KEY) = false ->
  Forall (fun updateSucceeds => updateSucceeds = false) failed ->
  activations globalState (failed ++ true :: later)%list
  = (<[SAFETY_NOTICE_STATE_KEY := true]> globalState,
     repeat (ShowWarningMessage SAFETY_NOTICE) (S (length failed))).
Proof.
  intros Hfresh Hfailed. induction Hfailed as [|u failed -> _ IH].
  - cbn [app activations length repeat]. unfold showSafetyNoticeOnce at 1.
    rewrite Hfresh. rewrite activations_shown by apply lookup_insert_eq.
    reflexivity.
  - cbn [app activations length]. unfold showSafetyNoticeOnce at 1.
    rewrite Hfresh, IH. reflexivity.
Qed.

Lemma safety_notice_until_stored_witness :
  snd (activations ∅ [false; false; true; true; false])
  = [ShowWarningMessage SAFETY_NOTICE; ShowWarningMessage SAFETY_NOTICE;
     ShowWarningMessage SAFETY_NOTICE].
Proof.
  rewrite (safety_notice_until_stored ∅ [false; false] [true; false]).
  - reflexivity.
  - reflexivity.
  - repeat constructor.
Defined.

(** ** The tree view *)

Lemma collectScriptItems_In (H : Host) (resolveDescriptor : string -> option ScriptDescriptor)
    (scriptsDirectory : string) (entries : list (string * Z)) (item : ScriptItem) :
  In item (collectScriptItems H resolveDescriptor scriptsDirectory entries)
  <-> exists entryName,
        In (entryName, FileType_File) entries
        /\ fsPath item = uriJoinPath H scriptsDirectory entryName
        /\ resolveDescriptor (fsPath item) = Some (descriptor item).
Proof.
  induction entries as [|[entryName fileType] rest IH].
  - simpl. split; [contradiction | intros (? & [] & _)].
  - cbn [collectScriptItems].
    assert (Hrest : (exists n, In (n, FileType_File) rest
                       /\ fsPath item = uriJoinPath H scriptsDirectory n
                       /\ resolveDescriptor (fsPath item) = Some (descriptor item))
                    -> exists n, In (n, FileType_File) ((entryName, fileType) :: rest)
                       /\ fsPath item = uriJoinPath H scriptsDirectory n
                       /\ resolveDescriptor (fsPath item) = Some (descriptor item)).
    { intros (n & Hin & Hrest). exists n. split; [now right | exact Hrest]. }
    destruct (Z.eqb_spec fileType FileType_File) as [->|Hne]; cbn [negb].
    + destruct (resolveDescriptor (uriJoinPath H scriptsDirectory entryName)) as [d|] eqn:Er.
      * split.
        -- intros [<-|Hin]; [|apply Hrest, IH, Hin].
           exists entryName. cbn [fsPath descriptor]. split; [now left | now split].
        -- intros (n & [E|Hin] & Hp & Hd).
           ++ injection E as <-. left. destruct item as [p d']. cbn in Hp, Hd.
              subst p. rewrite Er in Hd. now injection Hd as <-.
           ++ right. apply IH. now exists n.
      * split.
        -- intros Hin. apply Hrest, IH, Hin.
        -- intros (n & [E|Hin] & Hp & Hd).
           ++ injection E as <-. rewrite Hp, Er in Hd. discriminate.
           ++ apply IH. now exists n.
    + split.
      * intros Hin. apply Hrest, IH, Hin.
      * intros (n & [E|Hin] & Hp & Hd).
        -- injection E as _ E. contradiction.
        -- apply IH. now exists n.
Qed.

Lemma collectScriptItems_length (H : Host)
    (resolveDescriptor : string -> option ScriptDescriptor)
    (scriptsDirectory : string) (entries : list (string * Z)) :
  (length (collectScriptItems H resolveDescriptor scriptsDirectory entries)
   <= length entries)%nat.
Proof.
  induction entries as [|[entryName fileType] rest IH]; [simpl; lia|].
  cbn [collectScriptItems length].
  destruct (negb (fileType =? FileType_File)); [lia|].
  destruct (resolveDescriptor _); cbn [length]; lia.
Qed.

(** X14.  When the sort of the host only reorders, the items that
    [getChildren] returns for a directory that was read are exactly the
    entries of type File whose uri has a descriptor, each with the
    descriptor of its uri; there are no more items than entries. *)
Theorem getChildren_lists_supported_files (H : Host)
    (resolveDescriptor : string -> option ScriptDescriptor)
    (scriptsDirectory : string) (entries : list (string * Z)) (w : World) :
  (forall items, Permutation (sortByBasename H items) items) ->
  let listed :=
    fst (getChildren H resolveDescriptor None (ReadGives scriptsDirectory entries) w) in
  (forall item,
     In item listed
     <-> exists entryName,
           In (entryName, FileType_File) entries
           /\ fsPath item = uriJoinPath H scriptsDirectory entryName
           /\ resolveDescriptor (fsPath item) = Some (descriptor item))
  /\ (length listed <= length entries)%nat.
Proof.
  intros Hsort. cbv zeta.
  assert (E : fst (getChildren H resolveDescriptor None
                     (ReadGives scriptsDirectory entries) w)
              = sortByBasename H
                  (collectScriptItems H resolveDescriptor scriptsDirectory entries))
    by reflexivity.
  rewrite E. split.
  - intros item. rewrite <- collectScriptItems_In. split.
    + apply Permutation_in, Hsort.
    + apply Permutation_in. symmetry. apply Hsort.
  - rewrite (Permutation_length (Hsort _)). apply collectScriptItems_length.
Qed.

Lemma getChildren_lists_supported_files_witness :
  map fsPath
    (fst (getChildren posixHost (resolveDescriptorForUri posixHost ∅) None
            (ReadGives "/s" [("A.sh", 1); ("b.ps1", 1); ("c.txt", 1); ("d.py", 2)])
            initialWorld))
  = ["/s/A.sh"; "/s/b.ps1"]
  /\ (forall item,
        In item
          (fst (getChildren posixHost (resolveDescriptorForUri posixHost ∅) None
                  (ReadGives "/s" [("A.sh", 1); ("b.ps1", 1); ("c.txt", 1); ("d.py", 2)])
                  initialWorld))
        -> resolveDescriptorForUri posixHost ∅ (fsPath item) = Some (descriptor item)).
Proof.
  split; [vm_compute; reflexivity|].
  intros item Hin.
  destruct (getChildren_lists_supported_files posixHost
              (resolveDescriptorForUri posixHost ∅) "/s"
              [("A.sh", 1); ("b.ps1", 1); ("c.txt", 1); ("d.py", 2)] initialWorld)
    as [Hiff _].
  - intros items. reflexivity.
  - apply Hiff in Hin as (_ & _ & _ & Hd). exact Hd.
Defined.

(** ** Templates *)

(** X15.  The template table and the built-in descriptor table have the
    same keys: an extension has a non-empty initial template exactly when
    it is the extension of a built-in descriptor, and every template that
    is not empty ends in a line feed. *)
Theorem template_iff_builtin (H : Host) (ext : string) :
  (getInitialTemplateForExtension ext <> EmptyString <-> In ext (builtinExtensions H))
  /\ (getInitialTemplateForExtension ext <> EmptyString ->
      exists line, getInitialTemplateForExtension ext = line ++ LF).
Proof.
  unfold getInitialTemplateForExtension, builtinExtensions, BUILTIN_SCRIPT_DESCRIPTORS.
  cbn [map extension powershellDescriptor In].
  repeat match goal with
  | |- context [String.eqb ext ?k] =>
      destruct (String.eqb_spec ext k) as [->|?];
      [split; [split; [tauto | discriminate] | intros _; eexists; reflexivity]|]
  end.
  split; [|intros N; now contradiction N].
  split; [intros N; now contradiction N|].
  intros [E|[E|[E|[E|[E|[E|[]]]]]]]; congruence.
Qed.

(** ** Launching *)

Lemma probesFor_no_launch (H : Host) (cmd : string) :
  List.filter isLaunch (probesFor H cmd) = [].
Proof.
  unfold probesFor, probeOf.
  destruct (JS.truthy (extractCommandToken cmd)); [|reflexivity].
  now destruct (pathIsAbsolute H (extractCommandToken cmd)).
Qed.

Lemma resolveInterpreterCommand_no_launch (H : Host) (cfg : WorkspaceConfiguration)
    (d : ScriptDescriptor) (w : World) :
  List.filter isLaunch (effects (snd (resolveInterpreterCommand H cfg d w)))
  = List.filter isLaunch (effects w).
Proof.
  rewrite resolveInterpreterCommand_spec.
  destruct (afterSettingRead_filters cfg d w) as [_ Hl].
  destruct (configuredInterpreter cfg d); cbn [snd]; [exact Hl|].
  unfold appended. cbn [effects]. rewrite List.filter_app, Hl.
  destruct (probesUntilAvailable_probes H (getDefaultInterpreters d)) as [-> _].
  apply app_nil_r.
Qed.

(** X16.  [quick-it.runScript] asks the host to execute a task at most
    once, and exactly when an item is selected, an interpreter was resolved
    for it and that interpreter is available: the task then runs the
    descriptor's command line for that interpreter and the item's file.
    With an interpreter that is resolved but not available, the command
    ends with the error that names it. *)
Theorem runScriptCommand_launch_guard (H : Host) (cfg : WorkspaceConfiguration)
    (item : option ScriptItem) (runId : string) (signals : list HostSignal)
    (w : World) :
  let after := effects (snd (runScriptCommand H cfg item runId signals w)) in
  List.filter isLaunch after
  = (List.filter isLaunch (effects w)
     ++ match item with
        | None => []
        | Some selected =>
            match fst (resolveInterpreterCommand H cfg (descriptor selected) w) with
            | None => []
            | Some interpreter =>
                if availableOn H interpreter
                then [ExecuteTask "quick-it" runId
                        ("QuickIt: " ++ pathBasename H (fsPath selected))
                        (buildRunCommand (descriptor selected) interpreter
                           (fsPath selected))]
                else []
            end
        end)%list
  /\ (forall selected interpreter,
        item = Some selected ->
        fst (resolveInterpreterCommand H cfg (descriptor selected) w) = Some interpreter ->
        JS.truthy interpreter = true ->
        availableOn H interpreter = false ->
        after
        = (effects (snd (resolveInterpreterCommand H cfg (descriptor selected) w))
           ++ probesFor H interpreter
           ++ [ShowErrorMessage
                 ("Interpreter " ++ quoted interpreter ++ " was not found on PATH.")])%list).
Proof.
  cbv zeta. destruct item as [selected|].
  2:{ split; [|intros ? ? E; discriminate].
      unfold runScriptCommand, emit. cbn [snd effects].
      rewrite List.filter_app. reflexivity. }
  pose proof (resolveInterpreterCommand_no_launch H cfg (descriptor selected) w) as Hres.
  destruct (fst (resolveInterpreterCommand H cfg (descriptor selected) w))
    as [interpreter|] eqn:Er.
  - destruct (availableOn H interpreter) eqn:Ea.
    + split.
      * rewrite (runScriptCommand_launched H cfg selected runId signals w interpreter Er Ea).
        rewrite !List.filter_app, Hres, probesFor_no_launch.
        cbn [List.filter isLaunch app].
        destruct (promiseOutcome (supervise runId signals)) as [[[code|]|error]|];
          cbn [outcomeNotification List.filter isLaunch]; try reflexivity.
        destruct (code =? 0); reflexivity.
      * intros s i E1 E2 _ E3. injection E1 as <-. rewrite Er in E2.
        injection E2 as <-. congruence.
    + assert (Hrun : JS.truthy interpreter = true ->
                effects (snd (runScriptCommand H cfg (Some selected) runId signals w))
                = (effects (snd (resolveInterpreterCommand H cfg (descriptor selected) w))
                   ++ probesFor H interpreter
                   ++ [ShowErrorMessage
                         ("Interpreter " ++ quoted interpreter
                          ++ " was not found on PATH.")])%list).
      { intros Ht. unfold runScriptCommand, bind.
        destruct (resolveInterpreterCommand H cfg (descriptor selected) w) as [r w1].
        cbn [fst snd] in *. subst r.
        cbn [JS.truthyOpt default from_option id]. rewrite Ht. cbn [negb].
        rewrite isCommandAvailable_spec, Ea. cbn [negb].
        unfold emit, appended. cbn [snd effects]. now rewrite <- app_assoc. }
      split.
      * destruct (JS.truthy interpreter) eqn:Et.
        -- rewrite Hrun by reflexivity.
           rewrite !List.filter_app, Hres, probesFor_no_launch. reflexivity.
        -- unfold runScriptCommand, bind.
           destruct (resolveInterpreterCommand H cfg (descriptor selected) w) as [r w1].
           cbn [fst snd] in *. subst r.
           cbn [JS.truthyOpt default from_option id]. rewrite Et. cbn [negb].
           unfold emit. cbn [snd effects]. rewrite List.filter_app, Hres. reflexivity.
      * intros s i E1 E2 Ht _. injection E1 as <-. rewrite Er in E2.
        injection E2 as <-. now apply Hrun.
  - split; [|intros s i E1 E2; injection E1 as <-; rewrite Er in E2; discriminate].
    unfold runScriptCommand, bind.
    destruct (resolveInterpreterCommand H cfg (descriptor selected) w) as [r w1].
    cbn [fst snd] in *. subst r. cbn [JS.truthyOpt negb].
    unfold emit. cbn [snd effects]. rewrite List.filter_app, Hres. reflexivity.
Qed.

(** ** Directories *)

Lemma startsWith_spec (s p : string) :
  JS.startsWith s p = true <-> exists rest, s = p ++ rest.
Proof.
  revert s. induction p as [|a p IH]; intros s; cbn [JS.startsWith].
  - split; [intros _; now exists s | reflexivity].
  - destruct s as [|b s].
    + split; [discriminate | intros (rest & E); discriminate].
    + rewrite andb_true_iff, IH. split.
      * intros [Hab (rest & ->)]. apply Ascii.eqb_eq in Hab as ->. now exists rest.
      * intros (rest & E). simpl in E. injection E as -> ->.
        split; [apply Ascii.eqb_refl | now exists rest].
Qed.

Lemma append_assoc (a b c : string) : (a ++ b) ++ c = a ++ (b ++ c).
Proof.
  induction a as [|x a IH]; [reflexivity|].
  change (String x ((a ++ b) ++ c) = String x (a ++ (b ++ c))). now rewrite IH.
Qed.

Lemma sliceFrom_two (a b : ascii) (rest : string) :
  JS.sliceFrom (String a (String b rest)) 2 = rest.
Proof.
  unfold JS.sliceFrom.
  rewrite slice_range by (unfold JS.len; simpl String.length; lia).
  replace (Z.to_nat (JS.len (String a (String b rest)) - 2)) with (String.length rest)
    by (unfold JS.len; simpl String.length; lia).
  change (Z.to_nat 2) with 2%nat. simpl. apply substring_whole.
Qed.

(** The path [isPathInside] compares: resolved, and in lower case on
    Windows. *)
Lemma isPathInside_iff (H : Host) (P : NodePaths) (directoryPath filePath : string) :
  isPathInside H P directoryPath filePath = true
  <-> comparedPath H P filePath = comparedPath H P directoryPath
      \/ exists rest,
           comparedPath H P filePath
           = comparedPath H P directoryPath ++ pathSep P ++ rest.
Proof.
  change (isPathInside H P directoryPath filePath)
    with (if String.eqb (comparedPath H P filePath) (comparedPath H P directoryPath)
          then true
          else JS.startsWith (comparedPath H P filePath)
                 (comparedPath H P directoryPath ++ pathSep P)).
  destruct (String.eqb_spec (comparedPath H P filePath)
              (comparedPath H P directoryPath)) as [E|E].
  - split; [now left | reflexivity].
  - rewrite startsWith_spec. split.
    + intros (rest & ->). right. exists rest. apply append_assoc.
    + intros [E'|(rest & ->)]; [contradiction|]. exists rest.
      symmetry. apply append_assoc.
Qed.

(** X17.  [isPathInside] holds exactly when the compared form of the file
    path is that of the directory, or that of the directory followed by the
    separator and some rest; so a path is inside itself, and a path inside
    a directory that is inside another is inside that one.
    [isInScriptsDirectory] adds that both uris have the scheme [file]. *)
Theorem isPathInside_preorder (H : Host) (P : NodePaths) (a b c : string)
    (uri scriptsDirectory : Uri) :
  (isPathInside H P a b = true
   <-> comparedPath H P b = comparedPath H P a
       \/ exists rest,
            comparedPath H P b = comparedPath H P a ++ pathSep P ++ rest)
  /\ isPathInside H P a a = true
  /\ (isPathInside H P a b = true -> isPathInside H P b c = true ->
      isPathInside H P a c = true)
  /\ (isInScriptsDirectory H P uri scriptsDirectory = true
      <-> uriScheme uri = "file"
          /\ uriScheme scriptsDirectory = "file"
          /\ isPathInside H P (uriFsPath scriptsDirectory) (uriFsPath uri) = true).
Proof.
  split; [apply isPathInside_iff|]. split; [|split].
  3:{ unfold isInScriptsDirectory.
      destruct (String.eqb_spec (uriScheme uri) "file") as [Eu|Eu]; cbn [negb].
      - destruct (String.eqb_spec (uriScheme scriptsDirectory) "file") as [Ed|Ed];
          cbn [negb].
        + split; [intros E; repeat split; assumption | now intros (_ & _ & E)].
        + split; [discriminate | now intros (_ & E & _)].
      - split; [discriminate | now intros (E & _)]. }
  - apply isPathInside_iff. now left.
  - rewrite !isPathInside_iff. intros [Eab|(r1 & Eab)] [Ebc|(r2 & Ebc)].
    + left. congruence.
    + right. exists r2. congruence.
    + right. exists r1. congruence.
    + right. exists (r1 ++ pathSep P ++ r2). rewrite Ebc, Eab.
      now rewrite !append_assoc.
Qed.

(** X18.  [resolveDirectoryPath] treats [~/rest] and [~\rest] alike,
    returns an absolute path that does not start with a tilde as it is,
    and, when [path.resolve] from the home directory gives absolute paths,
    always returns an absolute path. *)
Theorem resolveDirectoryPath_absolute (H : Host) (P : NodePaths)
    (inputPath rest : string) :
  (forall relative,
     pathIsAbsolute H (pathResolveFrom P (osHomedir P) relative) = true) ->
  pathIsAbsolute H (resolveDirectoryPath H P inputPath) = true
  /\ resolveDirectoryPath H P ("~/" ++ rest) = resolveDirectoryPath H P ("~\" ++ rest)
  /\ (JS.startsWith inputPath "~" = false -> pathIsAbsolute H inputPath = true ->
      resolveDirectoryPath H P inputPath = inputPath).
Proof.
  intros Hresolve. split; [|split].
  - unfold resolveDirectoryPath. cbv zeta.
    match goal with
    | |- context [pathIsAbsolute H ?e] =>
        destruct (pathIsAbsolute H e) eqn:Eabs; [exact Eabs | apply Hresolve]
    end.
  - unfold resolveDirectoryPath. cbv zeta.
    assert (E1 : String.eqb ("~/" ++ rest) "~" = false) by reflexivity.
    assert (E2 : String.eqb ("~\" ++ rest) "~" = false) by reflexivity.
    rewrite E1, E2.
    assert (S1 : JS.startsWith ("~/" ++ rest) "~/" = true) by reflexivity.
    assert (S2 : JS.startsWith ("~\" ++ rest) "~\" = true) by reflexivity.
    rewrite S1, S2, orb_true_r. cbn [orb].
    change ("~/" ++ rest) with (String "~" (String "/" rest)).
    change ("~\" ++ rest) with (String "~" (String "\" rest)).
    now rewrite !sliceFrom_two.
  - intros Htilde Habs. unfold resolveDirectoryPath. cbv zeta.
    assert (E1 : String.eqb inputPath "~" = false).
    { destruct (String.eqb_spec inputPath "~") as [->|]; [discriminate | reflexivity]. }
    assert (S1 : JS.startsWith inputPath "~/" = false).
    { destruct inputPath as [|c r]; [reflexivity|]. cbn [JS.startsWith] in *.
      destruct (Ascii.eqb "~" c); [discriminate | reflexivity]. }
    assert (S2 : JS.startsWith inputPath "~\" = false).
    { destruct inputPath as [|c r]; [reflexivity|]. cbn [JS.startsWith] in *.
      destruct (Ascii.eqb "~" c); [discriminate | reflexivity]. }
    rewrite E1, S1, S2. cbn [orb]. now rewrite Habs.
Qed.

Lemma resolveDirectoryPath_absolute_witness :
  resolveDirectoryPath posixHost posixPaths "~\quick-it" = "/home/u/quick-it"
  /\ pathIsAbsolute posixHost (resolveDirectoryPath posixHost posixPaths "scripts") = true.
Proof.
  split; [reflexivity|].
  apply (resolveDirectoryPath_absolute posixHost posixPaths "scripts" "").
  intros relative. cbn [pathIsAbsolute pathResolveFrom osHomedir posixHost posixPaths].
  destruct (JS.startsWith relative "/") eqn:E; [exact E | reflexivity].
Defined.

(** X19.  The scripts directory depends on the user-level value of
    [scriptDirectory] alone (or on the default when there is none): a value
    that is empty after trimming gives the [scripts] folder of the global
    storage, any other the resolved trimmed value as a file uri; values set
    by a workspace or a workspace folder play no part. *)
Theorem scripts_directory_user_level (H : Host) (P : NodePaths)
    (cfg : WorkspaceConfiguration) (globalStorageUri : Uri) (w : World)
    (inspected : ConfigurationInspect) (userValue : string) :
  cfg "scriptDirectory" = Some inspected ->
  globalValue inspected ?? defaultValue inspected = Some userValue ->
  fst (resolveScriptsDirectory H P cfg globalStorageUri w)
  = if JS.truthy (JS.trim userValue)
    then mkUri "file" (resolveDirectoryPath H P (JS.trim userValue))
    else mkUri (uriScheme globalStorageUri)
               (uriJoinPath H (uriFsPath globalStorageUri) "scripts").
Proof.
  intros Ecfg Euser. unfold resolveScriptsDirectory, bind.
  rewrite getQuickItSettingValue_spec. cbn [fst snd].
  rewrite (userLevel_value cfg "scriptDirectory" inspected Ecfg)
    by (rewrite Euser; eauto).
  rewrite Euser. unfold normalizeOptionalString. cbn [fmap option_fmap option_map JS.truthyOpt].
  destruct (JS.truthy (JS.trim userValue)) eqn:Et.
  - cbn [JS.truthyOpt default from_option id]. rewrite Et. reflexivity.
  - reflexivity.
Qed.

Lemma scripts_directory_user_level_witness :
  fst (resolveScriptsDirectory posixHost posixPaths
         (fun _ => Some (mkInspect (Some EmptyString) (Some "  ") (Some "/tmp/evil") None))
         (mkUri "file" "/home/u/.config/storage") initialWorld)
  = mkUri "file" "/home/u/.config/storage/scripts".
Proof.
  rewrite (scripts_directory_user_level posixHost posixPaths _ _ _
             (mkInspect (Some EmptyString) (Some "  ") (Some "/tmp/evil") None) "  ").
  - reflexivity.
  - reflexivity.
  - reflexivity.
Defined.

(** ** From the created file to its descriptor *)

Lemma scanChar_matchedSlash (c : ascii) (i : Z) (st : Path.scan) :
  Path.matchedSlash (Path.scanChar c i st)
  = if Path.endIdx st =? -1 then false else Path.matchedSlash st.
Proof.
  unfold Path.scanChar.
  destruct (Path.endIdx st =? -1);
    cbn [Path.startDot Path.preDotState Path.matchedSlash];
    destruct (Ascii.eqb c Path.DOT); destruct (Path.startDot st =? -1);
    cbn [negb Path.matchedSlash]; try reflexivity;
    destruct (Path.preDotState st =? 1); reflexivity.
Qed.

Lemma scan_eq (a b : Path.scan) :
  Path.startDot a = Path.startDot b -> Path.startPart a = Path.startPart b ->
  Path.endIdx a = Path.endIdx b -> Path.matchedSlash a = Path.matchedSlash b ->
  Path.preDotState a = Path.preDotState b -> a = b.
Proof. destruct a, b. cbn. now intros -> -> -> -> ->. Qed.

(** One iteration on the path is the iteration on the name, shifted. *)
Lemma scanChar_shift (c : ascii) (i k : Z) (st : Path.scan) :
  0 <= i -> 0 <= k -> -1 <= Path.startDot st -> -1 <= Path.endIdx st ->
  Path.scanChar c (i + k) (shiftScan k st) = shiftScan k (Path.scanChar c i st).
Proof.
  intros Hi Hk Hsd He.
  assert (Hsd' : (shiftIndex k (Path.startDot st) =? -1) = (Path.startDot st =? -1)).
  { unfold shiftIndex. destruct (Z.eqb_spec (Path.startDot st) (-1)); [reflexivity|].
    apply Z.eqb_neq. lia. }
  assert (He' : (shiftIndex k (Path.endIdx st) =? -1) = (Path.endIdx st =? -1)).
  { unfold shiftIndex. destruct (Z.eqb_spec (Path.endIdx st) (-1)); [reflexivity|].
    apply Z.eqb_neq. lia. }
  apply scan_eq.
  - rewrite scanChar_startDot. cbn [shiftScan Path.startDot].
    rewrite scanChar_startDot, Hsd'.
    destruct (Ascii.eqb c Path.DOT && (Path.startDot st =? -1)); [|reflexivity].
    unfold shiftIndex. destruct (Z.eqb_spec i (-1)); [lia | reflexivity].
  - rewrite scanChar_startPart. cbn [shiftScan Path.startPart].
    now rewrite scanChar_startPart.
  - rewrite scanChar_endIdx. cbn [shiftScan Path.endIdx].
    rewrite scanChar_endIdx, He'.
    destruct (Path.endIdx st =? -1); [|reflexivity].
    unfold shiftIndex. destruct (Z.eqb_spec (i + 1) (-1)); lia.
  - rewrite scanChar_matchedSlash. cbn [shiftScan Path.endIdx Path.matchedSlash].
    now rewrite scanChar_matchedSlash, He'.
  - rewrite scanChar_preDotState. cbn [shiftScan Path.startDot Path.preDotState].
    now rewrite scanChar_preDotState, Hsd'.
Qed.

Lemma scanChar_bounds (c : ascii) (i : Z) (st : Path.scan) :
  0 <= i -> -1 <= Path.startDot st -> -1 <= Path.endIdx st ->
  -1 <= Path.startDot (Path.scanChar c i st)
  /\ -1 <= Path.endIdx (Path.scanChar c i st).
Proof.
  intros Hi Hsd He. rewrite scanChar_startDot, scanChar_endIdx.
  destruct (Ascii.eqb c Path.DOT && (Path.startDot st =? -1));
    destruct (Path.endIdx st =? -1); lia.
Qed.

(** The iterations over the name at the end of a path are those over the
    name alone, shifted. *)
Lemma scanLoop_shift (pre b : string) (m : nat) (st : Path.scan) :
  JS.testClass (Ascii.eqb Path.SLASH) b = false ->
  (m <= String.length b)%nat ->
  -1 <= Path.startDot st -> -1 <= Path.endIdx st ->
  Path.scanLoop (pre ++ b) 0 (String.length pre + m) (shiftScan (JS.len pre) st)
  = Path.scanLoop (pre ++ b) 0 (String.length pre)
      (shiftScan (JS.len pre) (Path.scanLoop b 0 m st)).
Proof.
  intros Hns. revert st. induction m as [|m IH]; intros st Hm Hsd He.
  - now rewrite Nat.add_0_r.
  - destruct (scanLoop_step b Hns m st ltac:(lia)) as (c & Hc & ->).
    rewrite Nat.add_succ_r. cbn [Path.scanLoop].
    replace (String.length pre + m <? 0)%nat with false
      by (symmetry; apply Nat.ltb_ge; lia).
    rewrite get_app_right, Hc, (get_not_slash_in b m c Hns Hc).
    replace (Z.of_nat (String.length pre + m)) with (Z.of_nat m + JS.len pre)
      by (unfold JS.len; lia).
    rewrite scanChar_shift by (unfold JS.len; lia).
    destruct (scanChar_bounds c (Z.of_nat m) st ltac:(lia) Hsd He) as [Hsd' He'].
    apply IH; [lia | exact Hsd' | exact He'].
Qed.

Lemma scanLoop_matchedSlash (b : string) (n : nat) (st : Path.scan) :
  JS.testClass (Ascii.eqb Path.SLASH) b = false ->
  (n <= String.length b)%nat -> (0 < n)%nat ->
  Path.endIdx st = -1 \/ Path.matchedSlash st = false ->
  Path.matchedSlash (Path.scanLoop b 0 n st) = false.
Proof.
  intros Hns. revert st. induction n as [|i IH]; intros st Hn Hpos Hinv; [lia|].
  destruct (scanLoop_step b Hns i st ltac:(lia)) as (c & Hc & ->).
  assert (Hm : Path.matchedSlash (Path.scanChar c (Z.of_nat i) st) = false).
  { rewrite scanChar_matchedSlash. destruct Hinv as [-> | ->]; [reflexivity|].
    now destruct (Path.endIdx st =? -1). }
  destruct i as [|i]; [exact Hm|].
  apply IH; [lia | lia | now right].
Qed.

Lemma substring_app_right (pre b : string) (j n : nat) :
  String.substring (String.length pre + j) n (pre ++ b) = String.substring j n b.
Proof. induction pre as [|c pre IH]; [reflexivity | exact IH]. Qed.

(** What [extname] returns from the loop variables reached when the scan
    of [pre name] stops at the separator that ends [pre]. *)
Lemma extname_of_shifted (pre name : string) :
  JS.testClass (Ascii.eqb Path.SLASH) name = false -> name <> EmptyString ->
  let stF := Path.scanLoop name 0 (String.length name) Path.scanInit in
  let st := Path.mkScan (shiftIndex (JS.len pre) (Path.startDot stF)) (JS.len pre)
              (shiftIndex (JS.len pre) (Path.endIdx stF)) false
              (Path.preDotState stF) in
  (if (Path.endIdx st =? -1) || Path.noExtension st then EmptyString
   else JS.slice (pre ++ name) (Path.startDot st) (Path.endIdx st))
  = Path.extname name.
Proof.
  intros Hns Hne. cbv zeta.
  assert (Hlen : (0 < String.length name)%nat)
    by (destruct name; [contradiction | simpl; lia]).
  set (stF := Path.scanLoop name 0 (String.length name) Path.scanInit).
  destruct (scanLoop_no_slash name Hns) as (Hsp & Hend & Hdot). fold stF in Hsp, Hend, Hdot.
  assert (Hend' : Path.endIdx stF = Z.of_nat (String.length name)).
  { rewrite Hend. destruct (String.length name); [lia | reflexivity]. }
  unfold Path.extname. fold stF.
  cbn [Path.endIdx Path.startDot]. rewrite Hend'.
  assert (Hk : 0 <= JS.len pre) by (unfold JS.len; lia).
  assert (Ee : shiftIndex (JS.len pre) (Z.of_nat (String.length name))
               = Z.of_nat (String.length name) + JS.len pre).
  { unfold shiftIndex. destruct (Z.eqb_spec (Z.of_nat (String.length name)) (-1)); lia. }
  rewrite Ee.
  replace (Z.of_nat (String.length name) + JS.len pre =? -1) with false
    by (symmetry; apply Z.eqb_neq; lia).
  replace (Z.of_nat (String.length name) =? -1) with false
    by (symmetry; apply Z.eqb_neq; lia).
  cbn [orb].
  destruct (lastDotBelow name (String.length name)) as [j|] eqn:Elast.
  - destruct Hdot as [Hsd Hpd]. apply lastDotBelow_Some in Elast as [Hj _].
    assert (Es : shiftIndex (JS.len pre) (Path.startDot stF) = Z.of_nat j + JS.len pre).
    { rewrite Hsd. unfold shiftIndex. destruct (Z.eqb_spec (Z.of_nat j) (-1)); lia. }
    rewrite Es.
    assert (Hno : Path.noExtension
                    (Path.mkScan (Z.of_nat j + JS.len pre) (JS.len pre)
                       (Z.of_nat (String.length name) + JS.len pre) false
                       (Path.preDotState stF))
                  = Path.noExtension stF).
    { unfold Path.noExtension.
      cbn [Path.startDot Path.preDotState Path.endIdx Path.startPart].
      rewrite Hsd, Hsp, Hend'.
      replace (Z.of_nat j + JS.len pre =? -1) with false
        by (symmetry; apply Z.eqb_neq; lia).
      replace (Z.of_nat j =? -1) with false by (symmetry; apply Z.eqb_neq; lia).
      replace (Z.of_nat j + JS.len pre
               =? Z.of_nat (String.length name) + JS.len pre - 1)
        with (Z.of_nat j =? Z.of_nat (String.length name) - 1)
        by (destruct (Z.eqb_spec (Z.of_nat j) (Z.of_nat (String.length name) - 1));
            symmetry; [apply Z.eqb_eq | apply Z.eqb_neq]; lia).
      replace (Z.of_nat j + JS.len pre =? JS.len pre + 1)
        with (Z.of_nat j =? 0 + 1)
        by (destruct (Z.eqb_spec (Z.of_nat j) (0 + 1));
            symmetry; [apply Z.eqb_eq | apply Z.eqb_neq]; lia).
      reflexivity. }
    rewrite Hno. destruct (Path.noExtension stF); [reflexivity|].
    rewrite Hsd.
    rewrite !slice_range by (unfold JS.len in *; rewrite ?length_append; lia).
    replace (Z.to_nat (Z.of_nat j + JS.len pre)) with (String.length pre + j)%nat
      by (unfold JS.len; lia).
    rewrite substring_app_right. f_equal; lia.
  - destruct Hdot as [Hsd Hpd].
    unfold Path.noExtension. cbn [Path.startDot]. rewrite Hsd.
    reflexivity.
Qed.

(** [path.posix.extname] of a name inside a directory is that of the
    name. *)
Lemma extname_joined (directory name : string) :
  JS.testClass (Ascii.eqb Path.SLASH) name = false -> name <> EmptyString ->
  Path.extname (directory ++ "/" ++ name) = Path.extname name.
Proof.
  intros Hns Hne.
  set (pre := directory ++ "/").
  assert (Epath : directory ++ "/" ++ name = pre ++ name)
    by (unfold pre; symmetry; apply append_assoc).
  rewrite Epath.
  assert (Hpre : String.length pre = S (String.length directory)).
  { unfold pre. rewrite length_append. simpl. lia. }
  assert (Hlen : (0 < String.length name)%nat)
    by (destruct name; [contradiction | simpl; lia]).
  rewrite <- (extname_of_shifted pre name Hns Hne). cbv zeta.
  set (stF := Path.scanLoop name 0 (String.length name) Path.scanInit).
  assert (Hms : Path.matchedSlash stF = false).
  { unfold stF. apply scanLoop_matchedSlash; [exact Hns | lia | exact Hlen | now left]. }
  assert (Hloop : Path.scanLoop (pre ++ name) 0 (String.length (pre ++ name)) Path.scanInit
                  = Path.mkScan (shiftIndex (JS.len pre) (Path.startDot stF))
                      (JS.len pre)
                      (shiftIndex (JS.len pre) (Path.endIdx stF))
                      false (Path.preDotState stF)).
  { rewrite length_append.
    change Path.scanInit with (shiftScan (JS.len pre) Path.scanInit) at 1.
    rewrite scanLoop_shift by (try assumption; cbn; lia).
    fold stF. rewrite Hpre. cbn [Path.scanLoop].
    replace (String.length directory <? 0)%nat with false
      by (symmetry; apply Nat.ltb_ge; lia).
    assert (Hget : String.get (String.length directory) (pre ++ name) = Some Path.SLASH).
    { rewrite get_app_left by lia. unfold pre.
      replace (String.length directory) with (String.length directory + 0)%nat by lia.
      now rewrite get_app_right. }
    rewrite Hget, Ascii.eqb_refl. cbn [shiftScan Path.matchedSlash].
    rewrite Hms. cbn [negb Path.startDot Path.endIdx Path.preDotState Path.matchedSlash].
    f_equal. unfold JS.len. lia. }
  unfold Path.extname. now rewrite Hloop.
Qed.

(** *** The same on Windows *)

Lemma no_separator_no_slash (c : ascii) :
  Path.isPathSeparator c = false -> Ascii.eqb c Path.SLASH = false.
Proof. unfold Path.isPathSeparator. now intros [E _]%orb_false_iff. Qed.

Lemma isPathSeparator_isSeparatorChar (c : ascii) :
  Path.isPathSeparator c = isSeparatorChar c.
Proof. unfold Path.isPathSeparator, isSeparatorChar. apply orb_comm. Qed.

Lemma scanChar_withStartPart (c : ascii) (i sp : Z) (st : Path.scan) :
  Path.scanChar c i (withStartPart sp st) = withStartPart sp (Path.scanChar c i st).
Proof.
  apply scan_eq.
  - rewrite scanChar_startDot. cbn [withStartPart Path.startDot].
    now rewrite scanChar_startDot.
  - rewrite scanChar_startPart. reflexivity.
  - rewrite scanChar_endIdx. cbn [withStartPart Path.endIdx].
    now rewrite scanChar_endIdx.
  - rewrite scanChar_matchedSlash. cbn [withStartPart Path.endIdx Path.matchedSlash].
    now rewrite scanChar_matchedSlash.
  - rewrite scanChar_preDotState. cbn [withStartPart Path.startDot Path.preDotState].
    now rewrite scanChar_preDotState.
Qed.

Lemma scanLoop_withStartPart (b : string) (n : nat) (sp : Z) (st : Path.scan) :
  JS.testClass (Ascii.eqb Path.SLASH) b = false -> (n <= String.length b)%nat ->
  Path.scanLoop b 0 n (withStartPart sp st) = withStartPart sp (Path.scanLoop b 0 n st).
Proof.
  intros Hns. revert st. induction n as [|i IH]; intros st Hn; [reflexivity|].
  destruct (scanLoop_step b Hns i st ltac:(lia)) as (c & Hc & ->).
  destruct (scanLoop_step b Hns i (withStartPart sp st) ltac:(lia)) as (c' & Hc' & ->).
  rewrite Hc in Hc'. injection Hc' as <-.
  rewrite scanChar_withStartPart. apply IH. lia.
Qed.

(** The iterations of the Windows loop over a name at the end of a path
    are those of the POSIX loop over the name alone, shifted. *)
Lemma win32ScanLoop_shift (pre b : string) (start m : nat) (st : Path.scan) :
  JS.testClass isSeparatorChar b = false ->
  (m <= String.length b)%nat -> (start <= String.length pre)%nat ->
  -1 <= Path.startDot st -> -1 <= Path.endIdx st ->
  Path.win32ScanLoop (pre ++ b) start (String.length pre + m)
    (shiftScan (JS.len pre) st)
  = Path.win32ScanLoop (pre ++ b) start (String.length pre)
      (shiftScan (JS.len pre) (Path.scanLoop b 0 m st)).
Proof.
  intros Hsep. pose proof (separator_free_no_slash b Hsep) as Hns.
  revert st. induction m as [|m IH]; intros st Hm Hstart Hsd He.
  - now rewrite Nat.add_0_r.
  - destruct (scanLoop_step b Hns m st ltac:(lia)) as (c & Hc & ->).
    rewrite Nat.add_succ_r. cbn [Path.win32ScanLoop].
    replace (String.length pre + m <? start)%nat with false
      by (symmetry; apply Nat.ltb_ge; lia).
    rewrite get_app_right, Hc.
    assert (Hc' : Path.isPathSeparator c = false).
    { rewrite isPathSeparator_isSeparatorChar.
      exact (get_class_false isSeparatorChar b m c Hsep Hc). }
    rewrite Hc'.
    replace (Z.of_nat (String.length pre + m)) with (Z.of_nat m + JS.len pre)
      by (unfold JS.len; lia).
    rewrite scanChar_shift by (unfold JS.len; lia).
    destruct (scanChar_bounds c (Z.of_nat m) st ltac:(lia) Hsd He) as [Hsd' He'].
    apply IH; [lia | exact Hstart | exact Hsd' | exact He'].
Qed.

(** A drive-letter prefix of [directory/name] lies inside [directory]. *)
Lemma hasDriveLetter_joined (directory name : string) :
  Path.hasDriveLetter (directory ++ "/" ++ name) = true ->
  (2 <= String.length directory)%nat.
Proof.
  destruct directory as [|c0 [|c1 r]].
  - destruct name as [|c1 r]; [discriminate|].
    change (Ascii.eqb c1 Path.COLON && false = true -> (2 <= 0)%nat).
    rewrite andb_false_r. discriminate.
  - discriminate.
  - intros _. simpl. lia.
Qed.

(** [path.win32.extname] of a name inside a directory is the POSIX
    extension of the name, for a name without separator. *)
Lemma win32Extname_joined (directory name : string) :
  JS.testClass isSeparatorChar name = false -> name <> EmptyString ->
  Path.win32Extname (directory ++ "/" ++ name) = Path.extname name.
Proof.
  intros Hsep Hne. pose proof (separator_free_no_slash name Hsep) as Hns.
  pose proof (hasDriveLetter_joined directory name) as Hdrive.
  unfold Path.win32Extname.
  set (start := if Path.hasDriveLetter (directory ++ "/" ++ name) then 2%nat else 0%nat).
  assert (Hstart : (start <= String.length directory)%nat).
  { unfold start. destruct (Path.hasDriveLetter (directory ++ "/" ++ name));
      [now apply Hdrive | lia]. }
  clearbody start. clear Hdrive.
  set (pre := directory ++ "/").
  assert (Epath : directory ++ "/" ++ name = pre ++ name)
    by (unfold pre; symmetry; apply append_assoc).
  rewrite Epath.
  assert (Hpre : String.length pre = S (String.length directory)).
  { unfold pre. rewrite length_append. simpl. lia. }
  assert (Hlen : (0 < String.length name)%nat)
    by (destruct name; [contradiction | simpl; lia]).
  rewrite <- (extname_of_shifted pre name Hns Hne). cbv zeta.
  set (stF := Path.scanLoop name 0 (String.length name) Path.scanInit).
  assert (Hms : Path.matchedSlash stF = false).
  { unfold stF. apply scanLoop_matchedSlash; [exact Hns | lia | exact Hlen | now left]. }
  assert (Hloop : Path.win32ScanLoop (pre ++ name) start (String.length (pre ++ name))
                    (Path.mkScan (-1) (Z.of_nat start) (-1) true 0)
                  = Path.mkScan (shiftIndex (JS.len pre) (Path.startDot stF))
                      (JS.len pre)
                      (shiftIndex (JS.len pre) (Path.endIdx stF))
                      false (Path.preDotState stF)).
  { rewrite length_append.
    change (Path.mkScan (-1) (Z.of_nat start) (-1) true 0)
      with (shiftScan (JS.len pre) (withStartPart (Z.of_nat start) Path.scanInit)).
    rewrite win32ScanLoop_shift by (try assumption; cbn; lia).
    rewrite scanLoop_withStartPart by (try assumption; lia).
    fold stF. rewrite Hpre. cbn [Path.win32ScanLoop].
    replace (String.length directory <? start)%nat with false
      by (symmetry; apply Nat.ltb_ge; lia).
    assert (Hget : String.get (String.length directory) (pre ++ name) = Some Path.SLASH).
    { rewrite get_app_left by lia. unfold pre.
      replace (String.length directory) with (String.length directory + 0)%nat by lia.
      now rewrite get_app_right. }
    rewrite Hget.
    change (Path.isPathSeparator Path.SLASH) with true.
    cbn [shiftScan withStartPart Path.matchedSlash].
    rewrite Hms. cbn [negb Path.startDot Path.endIdx Path.preDotState Path.matchedSlash].
    f_equal. unfold JS.len. lia. }
  now rewrite Hloop.
Qed.

(** On a name without separator and without colon the two variants of
    [extname] agree. *)
Lemma win32ScanLoop_plain (t : string) (n : nat) (st : Path.scan) :
  JS.testClass isSeparatorChar t = false -> (n <= String.length t)%nat ->
  Path.win32ScanLoop t 0 n st = Path.scanLoop t 0 n st.
Proof.
  intros Hsep. pose proof (separator_free_no_slash t Hsep) as Hns.
  revert st. induction n as [|i IH]; intros st Hn; [reflexivity|].
  destruct (scanLoop_step t Hns i st ltac:(lia)) as (c & Hc & ->).
  cbn [Path.win32ScanLoop]. rewrite Hc.
  replace (i <? 0)%nat with false by (symmetry; apply Nat.ltb_ge; lia).
  rewrite isPathSeparator_isSeparatorChar,
    (get_class_false isSeparatorChar t i c Hsep Hc).
  apply IH. lia.
Qed.

Lemma win32Extname_plain (t : string) :
  JS.testClass isSeparatorChar t = false ->
  JS.testClass (Ascii.eqb Path.COLON) t = false ->
  Path.win32Extname t = Path.extname t.
Proof.
  intros Hsep Hcolon. unfold Path.win32Extname, Path.extname.
  assert (Hdrive : Path.hasDriveLetter t = false).
  { destruct t as [|c0 [|c1 r]]; try reflexivity. cbn [JS.testClass] in Hcolon.
    apply orb_false_iff in Hcolon as [_ Hc]. apply orb_false_iff in Hc as [Hc _].
    unfold Path.hasDriveLetter. rewrite (Ascii.eqb_sym c1 Path.COLON), Hc.
    reflexivity. }
  rewrite Hdrive. change (Path.mkScan (-1) (Z.of_nat 0) (-1) true 0) with Path.scanInit.
  now rewrite win32ScanLoop_plain by (try assumption; lia).
Qed.

(** On either platform, [path.extname] of a name inside a directory is
    the POSIX extension of the name. *)
Lemma pathExtname_joined (H : Host) (directory name : string) :
  JS.testClass isSeparatorChar name = false -> name <> EmptyString ->
  pathExtname H (directory ++ "/" ++ name) = Path.extname name.
Proof.
  intros Hsep Hne. unfold pathExtname. destruct (String.eqb (platform H) "win32").
  - now apply win32Extname_joined.
  - apply extname_joined; [now apply separator_free_no_slash | exact Hne].
Qed.

(** A descriptor of the built-in table is the one stored for its
    extension. *)
Lemma BUILTIN_BY_EXTENSION_self (H : Host) (d : ScriptDescriptor) :
  In d (BUILTIN_SCRIPT_DESCRIPTORS H) ->
  BUILTIN_BY_EXTENSION H !! extension d = Some d.
Proof.
  intros Hin. rewrite BUILTIN_BY_EXTENSION_lookup.
  unfold BUILTIN_SCRIPT_DESCRIPTORS in *.
  repeat (destruct Hin as [<-|Hin]; [reflexivity|]). contradiction.
Qed.

(** X20.  When the scripts directory joins a name after a slash, the file
    that [quick-it.addScript] writes for a picked built-in type and an
    accepted name is one the tree view shows with that type: its path
    resolves to the picked descriptor, whatever the custom registry
    holds, and its content is that type's template. *)
Theorem created_script_has_picked_type (H : Host)
    (customs : gmap string CustomInterpreter) (run : AddScriptRun)
    (selected : ScriptDescriptor) (input directory uri content : string) :
  In selected (BUILTIN_SCRIPT_DESCRIPTORS H) ->
  pickedType run = Some selected ->
  scriptNameInput run = Some input ->
  validateScriptNameInput input (extension selected) = None ->
  scriptsDirectory run = inr directory ->
  (forall name, uriJoinPath H directory name = directory ++ "/" ++ name) ->
  In (WriteFile uri content) (addScriptCommand H run) ->
  resolveDescriptorForUri H customs uri = Some selected
  /\ content = getInitialTemplateForExtension (extension selected)
  /\ content <> EmptyString.
Proof.
  intros Hin Hpick Hname Hvalid Hdir Hjoin Hwrite.
  pose proof (builtin_extensions_plain H selected Hin) as Hplain.
  destruct (normalizeScriptFileName_validated input (extension selected) Hplain Hvalid)
    as (Hshape & Hext & Hsep & _ & Hok).
  cbv zeta in *.
  set (f := normalizeScriptFileName input (extension selected)) in *.
  assert (Hf : f <> EmptyString).
  { intros E. rewrite E in Hok. destruct (extension selected); discriminate Hok. }
  assert (Huri : uri = directory ++ "/" ++ f
                 /\ content = getInitialTemplateForExtension (extension selected)).
  { unfold addScriptCommand in Hwrite. rewrite Hpick, Hname, Hdir in Hwrite.
    fold f in Hwrite. rewrite Hjoin in Hwrite.
    destruct Hwrite as [E|[E|[E|Hw]]]; try discriminate.
    apply awaiting_In in Hw. destruct (createDirectoryError run); [discriminate|].
    assert (Htail : forall tail,
              In (WriteFile uri content)
                (WriteFile (directory ++ "/" ++ f)
                   (getInitialTemplateForExtension (extension selected))
                 :: awaiting ADD_FAILED (writeFileError run) tail) ->
              (forall u c, ~ In (WriteFile u c) tail) ->
              uri = directory ++ "/" ++ f
              /\ content = getInitialTemplateForExtension (extension selected)).
    { intros tail [E|Hw'] Hnone.
      - now injection E as <- <-.
      - apply awaiting_In in Hw'. destruct (writeFileError run); [discriminate|].
        now apply Hnone in Hw'. }
    assert (Hnone : forall u c,
              ~ In (WriteFile u c)
                  (Notify RefreshView
                   :: OpenTextDocument (directory ++ "/" ++ f)
                   :: awaiting ADD_FAILED (openDocumentError run)
                        (ShowTextDocument (directory ++ "/" ++ f)
                         :: awaiting ADD_FAILED (showDocumentError run)
                              [Notify (ShowInformationMessage
                                         ("Created " ++ quoted f ++ " in QuickIt."))]))).
    { intros u c [E|[E|Hw']]; try discriminate.
      apply awaiting_In in Hw'. destruct (openDocumentError run); [discriminate|].
      destruct Hw' as [E|Hw']; [discriminate|].
      apply awaiting_In in Hw'. destruct (showDocumentError run); [discriminate|].
      destruct Hw' as [E|[]]; discriminate. }
    destruct Hw as [E|Hw]; [discriminate|].
    destruct (scriptExists run).
    - destruct Hw as [E|Hw]; [discriminate|].
      destruct (bool_decide (overwriteSelection run = Some "Overwrite")); [|destruct Hw].
      exact (Htail _ Hw Hnone).
    - exact (Htail _ Hw Hnone). }
  destruct Huri as [-> ->].
  split; [|split; [reflexivity|]].
  - unfold resolveDescriptorForUri.
    rewrite pathExtname_joined by assumption.
    rewrite Hext, (BUILTIN_BY_EXTENSION_self H selected Hin). reflexivity.
  - unfold BUILTIN_SCRIPT_DESCRIPTORS in Hin.
    repeat (destruct Hin as [<-|Hin]; [discriminate|]). contradiction.
Qed.

Lemma created_script_has_picked_type_witness :
  resolveDescriptorForUri posixHost ∅ "/home/u/scripts/backup.py"
  = Some (pythonDescriptor posixHost).
Proof.
  refine (proj1 (created_script_has_picked_type posixHost ∅
                   (mkAddScriptRun (Some (pythonDescriptor posixHost)) (Some " backup ")
                      (inr "/home/u/scripts") None true (Some "Overwrite")
                      None None None)
                   (pythonDescriptor posixHost) " backup " "/home/u/scripts"
                   "/home/u/scripts/backup.py"
                   (getInitialTemplateForExtension ".py") _ _ _ _ _ _ _)).
  - do 3 right. left. reflexivity.
  - reflexivity.
  - reflexivity.
  - vm_compute. reflexivity.
  - reflexivity.
  - intros name. reflexivity.
  - vm_compute. do 5 right. left. reflexivity.
Defined.
